(** * djifix: repair of interrupted DJI video recordings

    A shallow embedding of [djifix.c] (version 2016-04-19) and the properties
    of its detection and recovery logic.

    Conventions of the embedding.
    - [unsigned] is a 32-bit word, held in [Z] with its wrap-around written
      out ([u32]); [unsigned char] is an 8-bit value; [int] and [long] are
      held in [Z] (an LP64 platform: offsets given to [fseek] never wrap).
    - The input stream is a regular file: a byte list, a position and the
      end-of-file indicator.  Seeking past the end succeeds, seeking before
      the start fails; read errors other than end-of-file do not occur.
    - The output stream is the list of bytes written so far.
    - [stderr] is the list of messages printed by [main]; the progress
      messages of the two repair routines are not recorded.
    - Loops that are not structurally recursive take fuel; every caller gives
      fuel that is proved sufficient. *)

From Stdlib Require Import ZArith List Lia Bool.
From Stdlib.Strings Require Import Byte.
Import ListNotations.
Local Open Scope Z_scope.

(** ** Machine integers *)

Definition u32 (z : Z) : Z := z mod 2 ^ 32.

Definition Z_of_byte (b : byte) : Z := Z.of_N (Byte.to_N b).

(** Conversion of an [int] to [unsigned char], as [fputc] does. *)
Definition byte_of_Z (z : Z) : byte :=
  match Byte.of_N (Z.to_N (z mod 256)) with
  | Some b => b
  | None => x00
  end.

(** ** The part of <stdio.h> the program uses *)

Module Stdio.

Record FILE : Type := mkFILE {
  contents : list byte;
  position : Z;
  eof_ind : bool
}.

Definition EOF : Z := -1.

Definition fopen (d : list byte) : FILE := mkFILE d 0 false.

Definition size (f : FILE) : Z := Z.of_nat (length (contents f)).

(** A next character is present. *)
Definition has_char (f : FILE) : bool :=
  negb (eof_ind f) && (0 <=? position f) && (position f <? size f).

Definition fgetc (f : FILE) : Z * FILE :=
  if has_char f then
    (Z_of_byte (nth (Z.to_nat (position f)) (contents f) x00),
     mkFILE (contents f) (position f + 1) false)
  else (EOF, mkFILE (contents f) (position f) true).

Definition feof (f : FILE) : bool := eof_ind f.

Definition ftell (f : FILE) : Z := position f.

Inductive whence : Type := SEEK_SET | SEEK_CUR.

(** [None] stands for a nonzero return value; the stream is then unchanged. *)
Definition fseek (f : FILE) (offset : Z) (w : whence) : option FILE :=
  let target := match w with
                | SEEK_SET => offset
                | SEEK_CUR => position f + offset
                end in
  if target <? 0 then None else Some (mkFILE (contents f) target false).

Definition fputc (c : Z) (out : list byte) : list byte := out ++ [byte_of_Z c].

End Stdio.
Import Stdio.

(** ** Four-character codes *)

Definition fourcc (a b c d : byte) : Z :=
  Z.lor (Z.lor (Z.lor (Z.shiftl (Z_of_byte a) 24) (Z.shiftl (Z_of_byte b) 16))
               (Z.shiftl (Z_of_byte c) 8)) (Z_of_byte d).

Definition fourcc_ftyp : Z := fourcc "f" "t" "y" "p".
Definition fourcc_moov : Z := fourcc "m" "o" "o" "v".
Definition fourcc_free : Z := fourcc "f" "r" "e" "e".
Definition fourcc_mdat : Z := fourcc "m" "d" "a" "t".

(** ** Byte reader *)

Definition get1Byte (fid : FILE) : option Z * FILE :=
  let (fgetcResult, fid) := fgetc fid in
  if feof fid then (None, fid)
  else (Some (fgetcResult mod 256), fid).

Definition get4Bytes (fid : FILE) : option Z * FILE :=
  match get1Byte fid with
  | (None, fid) => (None, fid)
  | (Some c1, fid) =>
  match get1Byte fid with
  | (None, fid) => (None, fid)
  | (Some c2, fid) =>
  match get1Byte fid with
  | (None, fid) => (None, fid)
  | (Some c3, fid) =>
  match get1Byte fid with
  | (None, fid) => (None, fid)
  | (Some c4, fid) =>
      (Some (u32 (Z.lor (Z.lor (Z.lor (Z.shiftl c1 24) (Z.shiftl c2 16))
                               (Z.shiftl c3 8)) c4)), fid)
  end end end end.

(** ** Atom probe *)

(** [Some n] stands for a return value of 1 with [n] stored through
    [numRemainingBytesToSkip]; [None] for a return value of 0, which leaves
    the caller's variable as it was. *)
Definition checkAtom (fid : FILE) (fourccToCheck : Z) : option Z * FILE :=
  match get4Bytes fid with
  | (None, fid) => (None, fid)
  | (Some atomSize, fid) =>
  match get4Bytes fid with
  | (None, fid) => (None, fid)
  | (Some fourcc, fid) =>
      if negb (fourcc =? fourccToCheck) then (None, fid)
      else if atomSize <? 8 then (None, fid)
      else (Some (u32 (atomSize - 8)), fid)
  end end.

(** ** Repair type 1: write the 'ftyp' header, then copy the input *)

(** [while (get1Byte(inputFID, &c)) fputc(c, outputFID);] *)
Fixpoint copyToEnd (fuel : nat) (inputFID : FILE) (outputFID : list byte)
  : option (FILE * list byte) :=
  match fuel with
  | O => None
  | S fuel =>
      match get1Byte inputFID with
      | (None, inputFID) => Some (inputFID, outputFID)
      | (Some c, inputFID) => copyToEnd fuel inputFID (fputc c outputFID)
      end
  end.

Definition doRepairType1 (fuel : nat) (inputFID : FILE) (outputFID : list byte)
  (ftypSize : Z) : option (FILE * list byte) :=
  let outputFID := fputc (Z.shiftr ftypSize 24) outputFID in
  let outputFID := fputc (Z.shiftr ftypSize 16) outputFID in
  let outputFID := fputc (Z.shiftr ftypSize 8) outputFID in
  let outputFID := fputc ftypSize outputFID in
  let outputFID := fputc (Z_of_byte "f") outputFID in
  let outputFID := fputc (Z_of_byte "t") outputFID in
  let outputFID := fputc (Z_of_byte "y") outputFID in
  let outputFID := fputc (Z_of_byte "p") outputFID in
  copyToEnd fuel inputFID outputFID.

(** ** Repair type 2: re-frame the NAL units *)

Definition putStartCode (outputFID : list byte) : list byte :=
  fputc 0x01 (fputc 0x00 (fputc 0x00 (fputc 0x00 outputFID))).

Definition SPS_2160p30 : list Z :=
  [0x27; 0x64; 0x00; 0x33; 0xac; 0x34; 0xc8; 0x03; 0xc0; 0x04; 0x3e; 0xc0;
   0x5a; 0x80; 0x80; 0x80; 0xa0; 0x00; 0x00; 0x7d; 0x20; 0x00; 0x1d; 0x4c; 0x1d;
   0x0c; 0x00; 0x07; 0x27; 0x08; 0x00; 0x01; 0xc9; 0xc3; 0x97; 0x79; 0x71; 0xa1;
   0x80; 0x00; 0xe4; 0xe1; 0x00; 0x00; 0x39; 0x38; 0x72; 0xef; 0x2e; 0x1f; 0x08;
   0x84; 0x53; 0x80; 0xff].
Definition SPS_2160p25 : list Z :=
  [0x27; 0x64; 0x00; 0x33; 0xac; 0x34; 0xc8; 0x03; 0xc0; 0x04; 0x3e; 0xc0;
   0x5a; 0x80; 0x80; 0x80; 0xa0; 0x00; 0x00; 0x7d; 0x00; 0x00; 0x18; 0x6a; 0x1d;
   0x0c; 0x00; 0x07; 0x27; 0x08; 0x00; 0x01; 0xc9; 0xc3; 0x97; 0x79; 0x71; 0xa1;
   0x80; 0x00; 0xe4; 0xe1; 0x00; 0x00; 0x39; 0x38; 0x72; 0xef; 0x2e; 0x1f; 0x08;
   0x84; 0x53; 0x80; 0xff].
Definition SPS_2160p24 : list Z :=
  [0x27; 0x64; 0x00; 0x33; 0xac; 0x34; 0xc8; 0x01; 0x00; 0x01; 0x0f; 0xb0;
   0x16; 0xa0; 0x20; 0x20; 0x28; 0x00; 0x00; 0x1f; 0x48; 0x00; 0x05; 0xdc; 0x07;
   0x43; 0x00; 0x01; 0xc9; 0xc2; 0x00; 0x00; 0x72; 0x70; 0xe5; 0xde; 0x5c; 0x68;
   0x60; 0x00; 0x39; 0x38; 0x40; 0x00; 0x0e; 0x4e; 0x1c; 0xbb; 0xff].
Definition SPS_1520p30 : list Z :=
  [0x27; 0x64; 0x00; 0x29; 0xac; 0x34; 0xc8; 0x02; 0xa4; 0x0b; 0xfb; 0x01;
   0x6a; 0x02; 0x02; 0x02; 0x80; 0x00; 0x01; 0xf4; 0x80; 0x00; 0x75; 0x30; 0x74;
   0x30; 0x00; 0x13; 0x12; 0xc0; 0x00; 0x04; 0xc4; 0xb4; 0x5d; 0xe5; 0xc6; 0x86;
   0x00; 0x02; 0x62; 0x58; 0x00; 0x00; 0x98; 0x96; 0x8b; 0xbc; 0xb8; 0x7c; 0x22;
   0x11; 0x4e; 0x00; 0x00; 0x00; 0xff].
Definition SPS_1520p25 : list Z :=
  [0x27; 0x64; 0x00; 0x29; 0xac; 0x34; 0xc8; 0x02; 0xa4; 0x0b; 0xfb; 0x01;
   0x6a; 0x02; 0x02; 0x02; 0x80; 0x00; 0x00; 0x03; 0x00; 0x80; 0x00; 0x00; 0x19;
   0x74; 0x30; 0x00; 0x13; 0x12; 0xc0; 0x00; 0x04; 0xc4; 0xb4; 0x5d; 0xe5; 0xc6;
   0x86; 0x00; 0x02; 0x62; 0x58; 0x00; 0x00; 0x98; 0x96; 0x8b; 0xbc; 0xb8; 0x7c;
   0x22; 0x11; 0x4e; 0xff].
Definition SPS_1080p60 : list Z :=
  [0x27; 0x64; 0x00; 0x2a; 0xac; 0x34; 0xc8; 0x07; 0x80; 0x22; 0x7e; 0x5c;
   0x05; 0xa8; 0x08; 0x08; 0x0a; 0x00; 0x00; 0x07; 0xd2; 0x00; 0x03; 0xa9; 0x81;
   0xd0; 0xc0; 0x00; 0x4c; 0x4b; 0x00; 0x00; 0x13; 0x12; 0xd1; 0x77; 0x97; 0x1a;
   0x18; 0x00; 0x09; 0x89; 0x60; 0x00; 0x02; 0x62; 0x5a; 0x2e; 0xf2; 0xe1; 0xf0;
   0x88; 0x45; 0x16; 0xff].
Definition SPS_1080i60 : list Z :=
  [0x27; 0x4d; 0x00; 0x2a; 0x9a; 0x66; 0x03; 0xc0; 0x22; 0x3e; 0xf0; 0x16;
   0xc8; 0x00; 0x00; 0x1f; 0x48; 0x00; 0x07; 0x53; 0x07; 0x43; 0x00; 0x02; 0x36;
   0x78; 0x00; 0x02; 0x36; 0x78; 0x5d; 0xe5; 0xc6; 0x86; 0x00; 0x04; 0x6c; 0xf0;
   0x00; 0x04; 0x6c; 0xf0; 0xbb; 0xcb; 0x87; 0xc2; 0x21; 0x14; 0x58; 0xff].
Definition SPS_1080p50 : list Z :=
  [0x27; 0x64; 0x00; 0x29; 0xac; 0x34; 0xc8; 0x07; 0x80; 0x22; 0x7e; 0x5c;
   0x05; 0xa8; 0x08; 0x08; 0x0a; 0x00; 0x00; 0x07; 0xd0; 0x00; 0x03; 0x0d; 0x41;
   0xd0; 0xc0; 0x00; 0x4c; 0x4b; 0x00; 0x00; 0x13; 0x12; 0xd1; 0x77; 0x97; 0x1a;
   0x18; 0x00; 0x09; 0x89; 0x60; 0x00; 0x02; 0x62; 0x5a; 0x2e; 0xf2; 0xe1; 0xf0;
   0x88; 0x45; 0x16; 0xff].
Definition SPS_1080p30 : list Z :=
  [0x27; 0x4d; 0x00; 0x28; 0x9a; 0x66; 0x03; 0xc0; 0x11; 0x3f; 0x2e; 0x02;
   0xd9; 0x00; 0x00; 0x03; 0x03; 0xe9; 0x00; 0x00; 0xea; 0x60; 0xe8; 0x60; 0x00;
   0xe2; 0x98; 0x00; 0x03; 0x8a; 0x60; 0xbb; 0xcb; 0x8d; 0x0c; 0x00; 0x1c; 0x53;
   0x00; 0x00; 0x71; 0x4c; 0x17; 0x79; 0x70; 0xf8; 0x44; 0x22; 0x8b; 0xff].
Definition SPS_1080p25 : list Z :=
  [0x27; 0x4d; 0x00; 0x28; 0x9a; 0x66; 0x03; 0xc0; 0x11; 0x3f; 0x2e; 0x02;
   0xd9; 0x00; 0x00; 0x03; 0x03; 0xe8; 0x00; 0x00; 0xc3; 0x50; 0xe8; 0x60; 0x00;
   0xdc; 0xf0; 0x00; 0x03; 0x73; 0xb8; 0xbb; 0xcb; 0x8d; 0x0c; 0x00; 0x1b; 0x9e;
   0x00; 0x00; 0x6e; 0x77; 0x17; 0x79; 0x70; 0xf8; 0x44; 0x22; 0x8b; 0xff].
Definition SPS_1080p24 : list Z :=
  [0x27; 0x64; 0x00; 0x29; 0xac; 0x34; 0xc8; 0x07; 0x80; 0x22; 0x7e; 0x5c;
   0x05; 0xa8; 0x08; 0x08; 0x0a; 0x00; 0x00; 0x07; 0xd2; 0x00; 0x01; 0x77; 0x01;
   0xd0; 0xc0; 0x00; 0xbe; 0xbc; 0x00; 0x00; 0xbe; 0xbc; 0x17; 0x79; 0x71; 0xa1;
   0x80; 0x01; 0x7d; 0x78; 0x00; 0x01; 0x7d; 0x78; 0x2e; 0xf2; 0xe1; 0xf0; 0x88;
   0x45; 0x16; 0x00; 0x00; 0x00; 0xff].
Definition SPS_720p60 : list Z :=
  [0x27; 0x4d; 0x00; 0x20; 0x9a; 0x66; 0x02; 0x80; 0x2d; 0xd8; 0x0b; 0x64;
   0x00; 0x00; 0x0f; 0xa4; 0x00; 0x07; 0x53; 0x03; 0xa1; 0x80; 0x03; 0x8a; 0x60;
   0x00; 0x0e; 0x29; 0x82; 0xef; 0x2e; 0x34; 0x30; 0x00; 0x71; 0x4c; 0x00; 0x01;
   0xc5; 0x30; 0x5d; 0xe5; 0xc3; 0xe1; 0x10; 0x8a; 0x34; 0xff].
Definition SPS_720p30 : list Z :=
  [0x27; 0x4d; 0x00; 0x1f; 0x9a; 0x66; 0x02; 0x80; 0x2d; 0xd8; 0x0b; 0x64;
   0x00; 0x00; 0x0f; 0xa4; 0x00; 0x03; 0xa9; 0x83; 0xa1; 0x80; 0x02; 0x5c; 0x40;
   0x00; 0x09; 0x71; 0x02; 0xef; 0x2e; 0x34; 0x30; 0x00; 0x4b; 0x88; 0x00; 0x01;
   0x2e; 0x20; 0x5d; 0xe5; 0xc3; 0xe1; 0x10; 0x8a; 0x34; 0xff].
Definition SPS_720p25 : list Z :=
  [0x27; 0x64; 0x00; 0x28; 0xac; 0x34; 0xc8; 0x05; 0x00; 0x5b; 0xb0; 0x16;
   0xa0; 0x20; 0x20; 0x28; 0x00; 0x00; 0x1f; 0x40; 0x00; 0x06; 0x1a; 0x87; 0x43;
   0x00; 0x0f; 0xd4; 0x80; 0x00; 0xfd; 0x4b; 0x5d; 0xe5; 0xc6; 0x86; 0x00; 0x1f;
   0xa9; 0x00; 0x01; 0xfa; 0x96; 0xbb; 0xcb; 0x87; 0xc2; 0x21; 0x14; 0x78; 0xff].
Definition SPS_480p30 : list Z :=
  [0x27; 0x4d; 0x40; 0x1e; 0x9a; 0x66; 0x05; 0x01; 0xed; 0x80; 0xb6; 0x40;
   0x00; 0x00; 0xfa; 0x40; 0x00; 0x3a; 0x98; 0x3a; 0x10; 0x00; 0x5e; 0x68; 0x00;
   0x02; 0xf3; 0x40; 0xbb; 0xcb; 0x8d; 0x08; 0x00; 0x2f; 0x34; 0x00; 0x01; 0x79;
   0xa0; 0x5d; 0xe5; 0xc3; 0xe1; 0x10; 0x8a; 0x3c; 0xff].
Definition PPS_P2VP : list Z :=
  [0x28; 0xee; 0x3c; 0x80; 0xff].
Definition PPS_Inspire : list Z :=
  [0x28; 0xee; 0x38; 0x30; 0xff].

Definition char (b : byte) : Z := Z_of_byte b.

(** The [switch (formatCode)] of [doRepairType2]: the SPS and PPS tables. *)
Definition selectFormat (formatCode : Z) : list Z * list Z :=
  if formatCode =? char "0" then (SPS_2160p30, PPS_Inspire)
  else if formatCode =? char "1" then (SPS_2160p25, PPS_Inspire)
  else if formatCode =? char "2" then (SPS_2160p24, PPS_Inspire)
  else if formatCode =? char "3" then (SPS_1520p30, PPS_Inspire)
  else if formatCode =? char "4" then (SPS_1520p25, PPS_Inspire)
  else if formatCode =? char "5" then (SPS_1080p60, PPS_Inspire)
  else if formatCode =? char "6" then (SPS_1080i60, PPS_P2VP)
  else if formatCode =? char "7" then (SPS_1080p50, PPS_Inspire)
  else if formatCode =? char "8" then (SPS_1080p30, PPS_P2VP)
  else if formatCode =? char "9" then (SPS_1080p25, PPS_P2VP)
  else if (formatCode =? char "a") || (formatCode =? char "A")
    then (SPS_1080p24, PPS_Inspire)
  else if (formatCode =? char "b") || (formatCode =? char "B")
    then (SPS_720p60, PPS_P2VP)
  else if (formatCode =? char "c") || (formatCode =? char "C")
    then (SPS_720p30, PPS_P2VP)
  else if (formatCode =? char "d") || (formatCode =? char "D")
    then (SPS_720p25, PPS_Inspire)
  else if (formatCode =? char "e") || (formatCode =? char "E")
    then (SPS_480p30, PPS_P2VP)
  else (SPS_1080p30, PPS_P2VP) (* shouldn't happen *).

(** [while ((c = *sps++) != 0xff) wr(c);] over a table; the tables all end
    in 0xff, so the end of the list is never reached. *)
Fixpoint writeNAL (nal : list Z) (outputFID : list byte) : list byte :=
  match nal with
  | [] => outputFID
  | c :: nal => if c =? 0xff then outputFID else writeNAL nal (fputc c outputFID)
  end.

(** [while (nalSize-- > 0) wr(fgetc(inputFID));] with [n] the value of
    [nalSize] on entry.  The result of [fgetc] is written unchecked. *)
Fixpoint copyNAL (n : nat) (inputFID : FILE) (outputFID : list byte)
  : FILE * list byte :=
  match n with
  | O => (inputFID, outputFID)
  | S n =>
      let (c, inputFID) := fgetc inputFID in
      copyNAL n inputFID (fputc c outputFID)
  end.

(** The [do ... while (nalSize != 2)] that skips anomalous bytes.  The inner
    [None] is the [return] taken at end of input. *)
Fixpoint skipAnomalous (fuel : nat) (nalSize : Z) (inputFID : FILE)
  : option (option Z * FILE) :=
  match fuel with
  | O => None
  | S fuel =>
      match get1Byte inputFID with
      | (None, inputFID) => Some (None, inputFID)
      | (Some c, inputFID) =>
          let nalSize := Z.lor (u32 (Z.shiftl nalSize 8)) c in
          if negb (nalSize =? 2) then skipAnomalous fuel nalSize inputFID
          else Some (Some nalSize, inputFID)
      end
  end.

Definition anomalous (nalSize : Z) : bool :=
  (nalSize =? 0) || (nalSize >? 0x00FFFFFF).

(** [while (!feof(inputFID)) { ... }] *)
Fixpoint restream (fuel : nat) (nalSize : Z) (inputFID : FILE)
  (outputFID : list byte) : option (FILE * list byte) :=
  match fuel with
  | O => None
  | S fuel' =>
      if feof inputFID then Some (inputFID, outputFID)
      else
        let outputFID := putStartCode outputFID in
        let (inputFID, outputFID) :=
          copyNAL (Z.to_nat nalSize) inputFID outputFID in
        match get4Bytes inputFID with
        | (None, inputFID) => Some (inputFID, outputFID)
        | (Some nalSize, inputFID) =>
            if anomalous nalSize then
              match skipAnomalous fuel nalSize inputFID with
              | None => None
              | Some (None, inputFID) => Some (inputFID, outputFID)
              | Some (Some nalSize, inputFID) =>
                  restream fuel' nalSize inputFID outputFID
              end
            else restream fuel' nalSize inputFID outputFID
        end
  end.

(** [formatCode] is the character with which the prompt loop is left. *)
Definition doRepairType2 (fuel : nat) (formatCode : Z) (inputFID : FILE)
  (outputFID : list byte) (second4Bytes : Z) : option (FILE * list byte) :=
  let (sps, pps) := selectFormat formatCode in
  let outputFID := putStartCode outputFID in
  let outputFID := writeNAL sps outputFID in
  let outputFID := putStartCode outputFID in
  let outputFID := writeNAL pps outputFID in
  let outputFID := putStartCode outputFID in
  let outputFID := fputc (Z.shiftr second4Bytes 24) outputFID in
  let outputFID := fputc (Z.shiftr second4Bytes 16) outputFID in
  match get1Byte inputFID with
  | (None, inputFID) => Some (inputFID, outputFID)
  | (Some c1, inputFID) =>
  match get1Byte inputFID with
  | (None, inputFID) => Some (inputFID, outputFID)
  | (Some c2, inputFID) =>
      let nalSize :=
        u32 (Z.lor (Z.lor (Z.shiftl (Z.land second4Bytes 0xFFFF) 16)
                          (Z.shiftl c1 8)) c2) in
      restream fuel nalSize inputFID outputFID
  end end.

(** ** [main]: detection of the kind of damage *)

(** The messages of [main] on [stderr], with the values they print. *)
Inductive message : Type :=
| UnableToReadStart
| BadInitialFtypLength
| FoundFtypAt (filePosition : Z)
| SawInitialFtyp
| Found2At (filePosition : Z)
| SkippingInitialJunk (word : Z)
| NothingButZerosOrFF
| LookingForSaneData
| UnableToFindSaneData
| SawMoov (atomSize : Z)
| TruncatedBeforeEndOfMoov
| DidntSeeMoov
| FailedToRewind
| SawFree (atomSize : Z)
| TruncatedBeforeEndOfFree
| SawMdat
| SawNestedFtyp
| SawFtypWithinMdat
| DidntSeeFtypInMdat
| DidntSeeMdat
| LookingFor2
| DidntSee2
| ResultWillBeH264
| Done.

Definition say (m : message) (err : list message) : list message := err ++ [m].

(** How the check of the start of the file ends (lines 106-168). *)
Inductive start : Type :=
| StartBad (err : list message)
| StartType1 (inputFID : FILE) (err : list message)
| StartType2 (repairType2Second4Bytes : Z) (inputFID : FILE)
             (err : list message).

(** The [while (1)] over the window [first4Bytes], [next4Bytes]. *)
Fixpoint checkStart (fuel : nat) (first4Bytes next4Bytes : Z)
  (amAtStartOfFile : bool) (inputFID : FILE) (err : list message)
  : option start :=
  match fuel with
  | O => None
  | S fuel =>
      if next4Bytes =? fourcc_ftyp then
        (* Repair type 1 *)
        if first4Bytes <? 8 then Some (StartBad (say BadInitialFtypLength err))
        else
          match fseek inputFID (u32 (first4Bytes - 8)) SEEK_CUR with
          | None => Some (StartBad (say BadInitialFtypLength err))
          | Some inputFID =>
              Some (StartType1 inputFID
                      (if negb amAtStartOfFile
                       then say (FoundFtypAt (ftell inputFID - 8)) err
                       else say SawInitialFtyp err))
          end
      else if first4Bytes =? 0x00000002 then
        (* Assume repair type 2 *)
        Some (StartType2 next4Bytes inputFID
                (if negb amAtStartOfFile
                 then say (Found2At (ftell inputFID - 8)) err
                 else err))
      else if (first4Bytes =? 0x00000000) || (first4Bytes =? 0xFFFFFFFF) then
        let err := if amAtStartOfFile
                   then say (SkippingInitialJunk first4Bytes) err else err in
        let first4Bytes := next4Bytes in
        match get4Bytes inputFID with
        | (None, _) => Some (StartBad (say NothingButZerosOrFF err))
        | (Some next4Bytes, inputFID) =>
            checkStart fuel first4Bytes next4Bytes false inputFID err
        end
      else
        let err := if amAtStartOfFile
                   then say LookingForSaneData err else err in
        match get1Byte inputFID with
        | (None, _) => Some (StartBad (say UnableToFindSaneData err))
        | (Some c, inputFID) =>
            let first4Bytes :=
              Z.lor (Z.land (u32 (Z.shiftl first4Bytes 8)) 0xFFFFFF00)
                    (Z.land (Z.shiftr next4Bytes 24) 0x000000FF) in
            let next4Bytes :=
              Z.lor (Z.land (u32 (Z.shiftl next4Bytes 8)) 0xFFFFFF00) c in
            checkStart fuel first4Bytes next4Bytes false inputFID err
        end
  end.

(** The [while (1)] that follows nested 'ftyp','moov','mdat' sequences
    (lines 214-224): the result is [curPos], [numBytesToSkip] and the
    stream as the loop leaves them. *)
Fixpoint nestedFtyp (fuel : nat) (numBytesToSkip : Z) (inputFID : FILE)
  (err : list message) : option (Z * Z * FILE * list message) :=
  match fuel with
  | O => None
  | S fuel =>
      let curPos := ftell inputFID in
      let stop inputFID := Some (curPos, numBytesToSkip, inputFID, err) in
      match fseek inputFID numBytesToSkip SEEK_CUR with
      | None => stop inputFID
      | Some inputFID =>
      match checkAtom inputFID fourcc_moov with
      | (None, inputFID) => stop inputFID
      | (Some nbts_moov, inputFID) =>
      match fseek inputFID nbts_moov SEEK_CUR with
      | None => stop inputFID
      | Some inputFID =>
      match checkAtom inputFID fourcc_mdat with
      | (None, inputFID) => stop inputFID
      | (Some _, inputFID) =>
      match checkAtom inputFID fourcc_ftyp with
      | (None, inputFID) => stop inputFID
      | (Some numBytesToSkip, inputFID) =>
          nestedFtyp fuel numBytesToSkip inputFID (say SawNestedFtyp err)
      end end end end end
  end.

(** The [while (1)] that looks for 0x00000002 (lines 252-263): the inner
    [option] is [saw2] with [repairType2Second4Bytes]. *)
Fixpoint lookFor2 (fuel : nat) (inputFID : FILE) (err : list message)
  : option (option Z * FILE * list message) :=
  match fuel with
  | O => None
  | S fuel =>
      match get4Bytes inputFID with
      | (None, inputFID) => Some (None, inputFID, err)
      | (Some first4Bytes, inputFID) =>
      match get4Bytes inputFID with
      | (None, inputFID) => Some (None, inputFID, err)
      | (Some next4Bytes, inputFID) =>
          if first4Bytes =? 0x00000002 then
            Some (Some next4Bytes, inputFID,
                  say (Found2At (ftell inputFID - 8)) err)
          else
            match get4Bytes inputFID with
            | (None, inputFID) => Some (None, inputFID, err)
            | (Some _, inputFID) => lookFor2 fuel inputFID err
            end
      end end
  end.

(** What [main] has decided when it opens the output file. *)
Inductive verdict : Type :=
| CannotRepair (err : list message)
| RepairType1 (repairType1FtypSize : Z) (inputFID : FILE)
              (err : list message)
| RepairType2 (repairType2Second4Bytes : Z) (inputFID : FILE)
              (err : list message).

(** The tail of the [if (repairType == 1)] block, entered with
    [repairType == 2] (lines 246-270). *)
Definition fallBackToType2 (fuel : nat) (inputFID : FILE)
  (err : list message) : option verdict :=
  match lookFor2 fuel inputFID (say LookingFor2 err) with
  | None => None
  | Some (None, _, err) => Some (CannotRepair (say DidntSee2 err))
  | Some (Some second4Bytes, inputFID, err) =>
      Some (RepairType2 second4Bytes inputFID err)
  end.

(** From the check for 'mdat' on (lines 202-270). *)
Definition checkMdat (fuel : nat) (inputFID : FILE) (err : list message)
  : option verdict :=
  match checkAtom inputFID fourcc_mdat with
  | (Some _, inputFID) =>
      let err := say SawMdat err in
      match checkAtom inputFID fourcc_ftyp with
      | (Some numBytesToSkip, inputFID) =>
          match nestedFtyp fuel numBytesToSkip inputFID err with
          | None => None
          | Some (curPos, numBytesToSkip, inputFID, err) =>
              let inputFID := match fseek inputFID curPos SEEK_SET with
                              | Some fid => fid
                              | None => inputFID
                              end in
              Some (RepairType1 (u32 (numBytesToSkip + 8)) inputFID
                      (say SawFtypWithinMdat err))
          end
      | (None, inputFID) =>
          let err := say DidntSeeFtypInMdat err in
          match fseek inputFID (-8) SEEK_CUR with
          | None => Some (CannotRepair (say FailedToRewind err))
          | Some inputFID => fallBackToType2 fuel inputFID err
          end
      end
  | (None, inputFID) => fallBackToType2 fuel inputFID (say DidntSeeMdat err)
  end.

(** From the check for 'free' on (lines 187-270). *)
Definition checkFree (fuel : nat) (inputFID : FILE) (err : list message)
  : option verdict :=
  match checkAtom inputFID fourcc_free with
  | (Some numBytesToSkip, inputFID) =>
      let err := say (SawFree (u32 (8 + numBytesToSkip))) err in
      match fseek inputFID numBytesToSkip SEEK_CUR with
      | None => Some (CannotRepair (say TruncatedBeforeEndOfFree err))
      | Some inputFID => checkMdat fuel inputFID err
      end
  | (None, inputFID) =>
      match fseek inputFID (-8) SEEK_CUR with
      | None => Some (CannotRepair (say FailedToRewind err))
      | Some inputFID => checkMdat fuel inputFID err
      end
  end.

(** The [if (repairType == 1)] block (lines 170-271). *)
Definition checkType1 (fuel : nat) (inputFID : FILE) (err : list message)
  : option verdict :=
  match checkAtom inputFID fourcc_moov with
  | (Some numBytesToSkip, inputFID) =>
      let err := say (SawMoov (u32 (8 + numBytesToSkip))) err in
      match fseek inputFID numBytesToSkip SEEK_CUR with
      | None => Some (CannotRepair (say TruncatedBeforeEndOfMoov err))
      | Some inputFID => checkFree fuel inputFID err
      end
  | (None, inputFID) =>
      let err := say DidntSeeMoov err in
      match fseek inputFID (-8) SEEK_CUR with
      | None => Some (CannotRepair (say FailedToRewind err))
      | Some inputFID => checkFree fuel inputFID err
      end
  end.

(** The check of the first bytes of the file (lines 104-168). *)
Definition startOfFile (fuel : nat) (inputFID : FILE) : option start :=
  match get4Bytes inputFID with
  | (None, _) => Some (StartBad [UnableToReadStart])
  | (Some first4Bytes, inputFID) =>
  match get4Bytes inputFID with
  | (None, _) => Some (StartBad [UnableToReadStart])
  | (Some next4Bytes, inputFID) =>
      checkStart fuel first4Bytes next4Bytes true inputFID []
  end end.

(** Everything [main] does with the input before it opens the output file
    (lines 104-275). *)
Definition detect (fuel : nat) (inputFID : FILE) : option verdict :=
  match startOfFile fuel inputFID with
  | None => None
  | Some (StartBad err) => Some (CannotRepair err)
  | Some (StartType2 second4Bytes inputFID err) =>
      Some (RepairType2 second4Bytes inputFID (say ResultWillBeH264 err))
  | Some (StartType1 inputFID err) =>
      match checkType1 fuel inputFID err with
      | Some (RepairType2 second4Bytes inputFID err) =>
          Some (RepairType2 second4Bytes inputFID (say ResultWillBeH264 err))
      | v => v
      end
  end.

(** The result of a run: the exit status, and for status 0 the repair type
    and the bytes of the repaired file. *)
Inductive outcome : Type :=
| Exit1 (err : list message)
| Exit0 (repairType : Z) (outputFile : list byte) (err : list message).

Definition enoughFuel (input : list byte) : nat := S (length input).

(** [main], from the opened input file on.  [input] is the content of the
    file named on the command line and [formatCode] the format typed at the
    prompt of a type 2 repair; the output file is taken to open. *)
Definition main (input : list byte) (formatCode : Z) : option outcome :=
  let fuel := enoughFuel input in
  match detect fuel (fopen input) with
  | None => None
  | Some (CannotRepair err) => Some (Exit1 err)
  | Some (RepairType1 repairType1FtypSize inputFID err) =>
      match doRepairType1 fuel inputFID [] repairType1FtypSize with
      | None => None
      | Some (_, outputFID) => Some (Exit0 1 outputFID (say Done err))
      end
  | Some (RepairType2 repairType2Second4Bytes inputFID err) =>
      match doRepairType2 fuel formatCode inputFID [] repairType2Second4Bytes
      with
      | None => None
      | Some (_, outputFID) => Some (Exit0 2 outputFID (say Done err))
      end
  end.

(** ** Notation for concrete files *)

(** A file given by the values of its bytes. *)
Definition bytes (l : list Z) : list byte := map byte_of_Z l.

(** The four bytes of a 32-bit word, most significant first. *)
Definition be32 (w : Z) : list byte :=
  [byte_of_Z (w / 2 ^ 24); byte_of_Z (w / 2 ^ 16); byte_of_Z (w / 2 ^ 8);
   byte_of_Z w].

Definition tag_ftyp : list byte := ["f"; "t"; "y"; "p"]%byte.
Definition tag_moov : list byte := ["m"; "o"; "o"; "v"]%byte.
Definition tag_mdat : list byte := ["m"; "d"; "a"; "t"]%byte.
Definition startCode : list byte := [x00; x00; x00; x01].

(** ** Vocabulary of the statements *)

(** The value of four bytes read most significant first. *)
Definition word (a b c d : Z) : Z := a * 2 ^ 24 + b * 2 ^ 16 + c * 2 ^ 8 + d.

Definition byte_at (d : list byte) (k : Z) : option Z :=
  if (0 <=? k) && (k <? Z.of_nat (length d))
  then Some (Z_of_byte (nth (Z.to_nat k) d x00))
  else None.

(** The big-endian word that starts at offset [k] of [d]. *)
Definition word_at (d : list byte) (k : Z) : option Z :=
  match byte_at d k, byte_at d (k + 1), byte_at d (k + 2), byte_at d (k + 3)
  with
  | Some a, Some b, Some c, Some e => Some (word a b c e)
  | _, _, _, _ => None
  end.

(** [n] characters can be read from [f] without reaching the end. *)
Definition readable (f : FILE) (n : Z) : bool :=
  negb (eof_ind f) && (0 <=? position f) && (position f + n <=? size f).

Definition advance (f : FILE) (n : Z) : FILE :=
  mkFILE (contents f) (position f + n) false.

(** The characters that can still be read from [f], in order. *)
Definition rest (f : FILE) : list byte :=
  if readable f 0 then skipn (Z.to_nat (position f)) (contents f) else [].

Definition remaining (f : FILE) : nat := length (rest f).

(** [f] after a read that met the end of the file at position [p]. *)
Definition at_eof (f : FILE) (p : Z) : FILE := mkFILE (contents f) p true.

(** Reading can go on from [f]: the end-of-file indicator is clear and the
    position is not negative. *)
Definition good (f : FILE) : Prop := eof_ind f = false /\ 0 <= position f.

(** [g] is a state of the stream of [f] from which reading can go on. *)
Definition later (f g : FILE) : Prop := contents g = contents f /\ good g.

Definition start_ok (f : FILE) (r : start) : Prop :=
  match r with
  | StartBad _ => True
  | StartType1 g _ => later f g
  | StartType2 _ g _ => later f g
  end.

Definition verdict_ok (f : FILE) (v : verdict) : Prop :=
  match v with
  | CannotRepair _ => True
  | RepairType1 s g _ => later f g /\ 8 <= s < 2 ^ 32
  | RepairType2 _ g _ => later f g
  end.

(** The test with which the prompt loop of [doRepairType2] accepts an
    entry (lines 456-458). *)
Definition validEntry (formatCode : Z) : bool :=
  ((char "0" <=? formatCode) && (formatCode <=? char "9"))
  || ((char "a" <=? formatCode) && (formatCode <=? char "e"))
  || ((char "A" <=? formatCode) && (formatCode <=? char "E")).

(** The prompt loop of [doRepairType2] (lines 433-462) over the characters
    still to come on standard input: each turn takes one character and
    leaves the loop if [validEntry] accepts it.  [None] stands for the loop
    that does not end once the input is used up. *)
Fixpoint promptFormat (stdin : list Z) : option Z :=
  match stdin with
  | [] => None
  | formatCode :: stdin =>
      if validEntry formatCode then Some formatCode else promptFormat stdin
  end.

(** The accumulator of the anomaly scan after the bytes [bs], from [acc]. *)
Definition accumulate (acc : Z) (bs : list byte) : Z :=
  fold_left (fun a b => Z.lor (u32 (Z.shiftl a 8)) (Z_of_byte b)) bs acc.

(** What a type 2 repair writes before the first NAL unit of the input,
    for the tables [sps] and [pps] and the word [w] kept from detection. *)
Definition type2_preamble (sps pps : list Z) (w : Z) : list byte :=
  startCode ++ bytes (removelast sps) ++ startCode ++ bytes (removelast pps)
  ++ startCode ++ [byte_of_Z (w / 2 ^ 24); byte_of_Z (w / 2 ^ 16)].

(** The payload size announced by a well-formed header with tag [tag] at
    offset [p] of [d]: the size word less the eight bytes of the header. *)
Definition header_at (d : list byte) (p : Z) (tag : Z) : option Z :=
  match word_at d p, word_at d (p + 4) with
  | Some s, Some t => if (t =? tag) && (8 <=? s) then Some (s - 8) else None
  | _, _ => None
  end.

(** From just past a 'ftyp' header that announces [n] more bytes, with the
    stream at [p]: the 'moov' atom, the 'mdat' header and the 'ftyp' header
    of one more repetition, if they are there.  The result is the offset
    just past that 'ftyp' header and the bytes it announces. *)
Definition nested_again (d : list byte) (p n : Z) : option (Z * Z) :=
  match header_at d (p + n) fourcc_moov with
  | None => None
  | Some m =>
      match header_at d (p + n + 8 + m) fourcc_mdat with
      | None => None
      | Some _ =>
          match header_at d (p + n + 8 + m + 8) fourcc_ftyp with
          | None => None
          | Some n' => Some (p + n + 8 + m + 16, n')
          end
      end
  end.

(** [innermost d p n q m]: following the repetitions from ([p], [n]) as long
    as there is one ends at ([q], [m]). *)
Inductive innermost (d : list byte) : Z -> Z -> Z -> Z -> Prop :=
| innermost_here (p n : Z) :
    nested_again d p n = None -> innermost d p n p n
| innermost_deeper (p n p' n' q m : Z) :
    nested_again d p n = Some (p', n') -> innermost d p' n' q m ->
    innermost d p n q m.

Definition is_filler (a : Z) : bool := (a =? 0x00000000) || (a =? 0xFFFFFFFF).

(** [scan_path d j k]: the window of [checkStart] moves from offset [j] to
    offset [k] of [d], four bytes on over a filler word and one byte on over
    any other window that is not a signature. *)
Inductive scan_path (d : list byte) : Z -> Z -> Prop :=
| path_here (k : Z) : scan_path d k k
| path_filler (j k a b : Z) :
    word_at d j = Some a -> word_at d (j + 4) = Some b ->
    b <> fourcc_ftyp -> is_filler a = true ->
    scan_path d (j + 4) k -> scan_path d j k
| path_garbage (j k a b : Z) :
    word_at d j = Some a -> word_at d (j + 4) = Some b ->
    b <> fourcc_ftyp -> a <> 2 -> is_filler a = false ->
    scan_path d (j + 1) k -> scan_path d j k.

(** The offset after an optional atom with tag [tag] at offset [p]: past the
    atom if a well-formed header with that tag is there, [p] otherwise. *)
Definition skip_atom (d : list byte) (tag : Z) (p : Z) : Z :=
  match header_at d p tag with
  | Some n => p + 8 + n
  | None => p
  end.

(** ** Sample files *)

(** A damaged file that holds a 'ftyp' atom, then 'mdat' beginning with
    a nested 'ftyp' header, then three bytes of payload. *)
Definition sample_type1 : list byte :=
  be32 8 ++ tag_ftyp ++ be32 16 ++ tag_mdat ++ be32 8 ++ tag_ftyp
  ++ bytes [1; 2; 3].

(** A raw stream: 0x00000002, the two bytes 09 10, a unit of declared
    length 5 of which only two bytes are present. *)
Definition sample_truncated : list byte :=
  bytes [0; 0; 0; 2;  0x09; 0x10; 0; 0;  0; 5;  0xAA; 0xBB].

(** A stream whose second length field is zero; 0x00000002 is completed
    five bytes after it. *)
Definition sample_anomalous : list byte :=
  bytes [0xAA;  0; 0; 0; 0;  7; 0; 0; 0; 2;  0xBB; 0xCC].

(** 'ftyp'; 'mdat' that begins with 'ftyp' (header at 16); then once more
    'moov', 'mdat' and 'ftyp' (header at 40, size 12); four bytes. *)
Definition sample_nested : list byte :=
  be32 8 ++ tag_ftyp ++ be32 16 ++ tag_mdat ++ be32 8 ++ tag_ftyp
  ++ be32 8 ++ tag_moov ++ be32 16 ++ tag_mdat ++ be32 12 ++ tag_ftyp
  ++ bytes [1; 2; 3; 4].

(** Forty zero bytes, then the tag 'ftyp' at once, then a nested chain. *)
Definition sample_zeros_then_tag : list byte :=
  repeat x00 40 ++ tag_ftyp ++ be32 16 ++ tag_mdat ++ be32 8 ++ tag_ftyp
  ++ bytes [1; 2; 3].

(** Zero bytes, then 0x00000002 at offset 5, which is not a multiple
    of 4, then a unit of three bytes. *)
Definition sample_marker_at_5 : list byte :=
  bytes [0; 0; 0; 0; 0;  0; 0; 0; 2;  0x09; 0x10;  0; 3;  1; 2; 3;
         0; 0; 0; 1;  9].

(** One byte of garbage, then a 'ftyp' atom of size 16 at offset 1. *)
Definition sample_ftyp_at_1 : list byte :=
  bytes [7] ++ be32 16 ++ tag_ftyp ++ bytes [1; 2; 3; 4; 5; 6; 7; 8]
  ++ be32 16 ++ tag_mdat ++ be32 8 ++ tag_ftyp ++ bytes [1; 2; 3].

(** Eight zero bytes, then the tag 'ftyp' at once, then a nested chain. *)
Definition sample_8_zeros_then_tag : list byte :=
  repeat x00 8 ++ tag_ftyp ++ be32 16 ++ tag_mdat ++ be32 8 ++ tag_ftyp
  ++ bytes [1; 2; 3].

(** Eight zero bytes, then a 'ftyp' atom, then 'mdat' beginning with a
    nested 'ftyp' header. *)
Definition sample_8_zeros_then_atom : list byte :=
  repeat x00 8 ++ be32 8 ++ tag_ftyp ++ be32 16 ++ tag_mdat ++ be32 8
  ++ tag_ftyp ++ bytes [1; 2; 3].

(** 'ftyp', then 'mdat' whose data is a zero word followed by 0x00000002
    at offset 20, four bytes after the start of the data. *)
Definition sample_marker_second_word : list byte :=
  be32 8 ++ tag_ftyp ++ be32 16 ++ tag_mdat
  ++ bytes [0; 0; 0; 0;  0; 0; 0; 2;  0x09; 0x10; 0; 0;  0; 1; 0xAA; 0;
            0; 0; 0; 0;  0; 0; 0; 0;  0; 0].

(** The same with 0x00000002 first in the data of 'mdat'. *)
Definition sample_marker_first_word : list byte :=
  be32 8 ++ tag_ftyp ++ be32 16 ++ tag_mdat
  ++ bytes [0; 0; 0; 2;  0x09; 0x10; 0; 0;  0; 1; 0xAA; 0;
            0; 0; 0; 0;  0; 0; 0; 0;  0; 0].

(** Five bytes of garbage, then 0x00000002 at offset 5. *)
Definition sample_garbage_marker : list byte :=
  bytes [7; 7; 7; 7; 7;  0; 0; 0; 2;  0x09; 0x10;  0; 3;  1; 2; 3].

(** [l] ends with 0xff and holds no 0xff before: the loop of [writeNAL]
    stops at the last element of the table. *)
Definition terminated (l : list Z) : bool :=
  match rev l with
  | x :: r => (x =? 0xff) && forallb (fun y => negb (y =? 0xff)) r
  | [] => false
  end.

(** A unit as the damaged file holds it: its length in four bytes, most
    significant first, then its bytes. *)
Definition frame (u : list byte) : list byte :=
  be32 (Z.of_nat (length u)) ++ u.

(** Units as the repaired file holds them: each after a start code. *)
Definition withStartCodes (units : list (list byte)) : list byte :=
  concat (map (fun u => startCode ++ u) units).

(** The length of a unit that the main loop accepts as it is. *)
Definition plainLength (u : list byte) : Prop :=
  1 <= Z.of_nat (length u) <= 0x00FFFFFF.
(** [getchar] on the characters still to come on standard input; at the
    end of the input it returns [EOF], again and again. *)
Definition getchar (stdin : list Z) : Z * list Z :=
  match stdin with
  | [] => (EOF, [])
  | c :: stdin => (c, stdin)
  end.

(** [do {formatCode = getchar(); } while (formatCode == '\r' &&
    formatCode == '\n');] (line 455). *)
Fixpoint readEntry (fuel : nat) (stdin : list Z) : option (Z * list Z) :=
  match fuel with
  | O => None
  | S fuel =>
      let (formatCode, stdin) := getchar stdin in
      if (formatCode =? char x0d) && (formatCode =? char x0a)
      then readEntry fuel stdin
      else Some (formatCode, stdin)
  end.

(** The [while (1)] of the prompt (lines 433-462), with the number of times
    "Invalid entry!" has been printed.  The result is the entry, the input
    left and that number. *)
Fixpoint promptLoop (fuel : nat) (stdin : list Z) (invalid : nat)
  : option (Z * list Z * nat) :=
  match fuel with
  | O => None
  | S fuel =>
      match readEntry (S fuel) stdin with
      | None => None
      | Some (formatCode, stdin) =>
          if validEntry formatCode then Some (formatCode, stdin, invalid)
          else promptLoop fuel stdin (S invalid)
      end
  end.
(** ** The string formatted for the name of the output file *)

Definition repairedFilenameStr : list byte :=
  ["-"; "r"; "e"; "p"; "a"; "i"; "r"; "e"; "d"]%byte.

(** [strrchr(s, c)] on a string without its final NUL: the index of the
    last [c], [None] for the null pointer. *)
Fixpoint strrchr (s : list byte) (c : byte) : option nat :=
  match s with
  | [] => None
  | x :: s =>
      match strrchr s c with
      | Some i => Some (S i)
      | None => if Byte.eqb x c then Some O else None
      end
  end.

(** The block that makes the name of the output file (lines 278-290): the
    name is cut at its last '.', or kept whole when it has none, and
    [sprintf] is given it with "-repaired", '.' and the suffix to format.
    The result is the string that [sprintf] is given to write and
    [outputFileNameSize], the size of the buffer allocated for it.  The two
    are kept apart: whether the string fits the buffer is a property to be
    proved of them, and what the program holds at [outputFileName] after a
    write past the end of the buffer is not modelled. *)
Definition makeOutputFileName (inputFileName : list byte) (repairType : Z)
  : list byte * Z :=
  let dotPtr := match strrchr inputFileName "." with
                | Some i => i
                | None => length inputFileName
                end in
  let inputFileName := firstn dotPtr inputFileName in
  let suffixLen := if repairType =? 1 then 3 else 4 in
  let outputFileNameSize := u32 (Z.of_nat dotPtr + 1 + suffixLen + 1) in
  let outputFileName :=
    inputFileName ++ repairedFilenameStr ++ ["."%byte]
    ++ (if repairType =? 1 then ["m"; "p"; "4"]%byte
        else ["h"; "2"; "6"; "4"]%byte) in
  (outputFileName, outputFileNameSize).

(** ** The prompt and the switch of [doRepairType2] together *)

(** The labels of the [switch (formatCode)] of [doRepairType2] (lines
    465-479): whether [formatCode] is one of them.  For every other value
    the [default] (line 480) is taken. *)
Definition hasCase (formatCode : Z) : bool :=
  (formatCode =? char "0") || (formatCode =? char "1")
  || (formatCode =? char "2") || (formatCode =? char "3")
  || (formatCode =? char "4") || (formatCode =? char "5")
  || (formatCode =? char "6") || (formatCode =? char "7")
  || (formatCode =? char "8") || (formatCode =? char "9")
  || (formatCode =? char "a") || (formatCode =? char "A")
  || (formatCode =? char "b") || (formatCode =? char "B")
  || (formatCode =? char "c") || (formatCode =? char "C")
  || (formatCode =? char "d") || (formatCode =? char "D")
  || (formatCode =? char "e") || (formatCode =? char "E").

(** [doRepairType2] from its first line (lines 422-532): the prompt on the
    characters [stdin] still to come on standard input, then the switch and
    the repair with the entry the prompt has let through.  [formatCode] is
    a local of the function: the switch sees no other value than that one.
    The result is the stream, the output, the input left on [stdin] and the
    number of times "Invalid entry!" was printed; [None] when the fuel of
    the prompt or of the repair is used up. *)
Definition doRepairType2_prompted (promptFuel fuel : nat) (stdin : list Z)
  (inputFID : FILE) (outputFID : list byte) (second4Bytes : Z)
  : option (FILE * list byte * list Z * nat) :=
  match promptLoop promptFuel stdin 0 with
  | None => None
  | Some (formatCode, stdin, invalid) =>
      match doRepairType2 fuel formatCode inputFID outputFID second4Bytes with
      | None => None
      | Some (inputFID, outputFID) =>
          Some (inputFID, outputFID, stdin, invalid)
      end
  end.

(** * Properties *)

(** ** Bytes and words *)

Lemma Z_of_byte_range (b : byte) : 0 <= Z_of_byte b < 256.
Proof.
  unfold Z_of_byte. pose proof (Byte.to_N_bounded b). lia.
Qed.

Lemma Z_of_byte_mod (b : byte) : Z_of_byte b mod 256 = Z_of_byte b.
Proof. apply Z.mod_small, Z_of_byte_range. Qed.

Lemma byte_of_Z_of_byte (b : byte) : byte_of_Z (Z_of_byte b) = b.
Proof.
  unfold byte_of_Z. rewrite Z_of_byte_mod. unfold Z_of_byte.
  rewrite N2Z.id, Byte.of_to_N. reflexivity.
Qed.

Lemma Z_of_byte_of_Z (z : Z) : Z_of_byte (byte_of_Z z) = z mod 256.
Proof.
  unfold byte_of_Z, Z_of_byte.
  assert (Hr : 0 <= z mod 256 < 256) by (apply Z.mod_pos_bound; lia).
  destruct (Byte.of_N (Z.to_N (z mod 256))) as [b|] eqn:E.
  - apply Byte.to_of_N in E. rewrite E. lia.
  - apply Byte.of_N_None_iff in E. lia.
Qed.

Lemma byte_of_Z_mod (z : Z) : byte_of_Z (z mod 256) = byte_of_Z z.
Proof. unfold byte_of_Z. rewrite Z.mod_mod by lia. reflexivity. Qed.

Lemma land_shiftl_low (hi lo n : Z) :
  0 <= n -> 0 <= lo < 2 ^ n -> Z.land (Z.shiftl hi n) lo = 0.
Proof.
  intros Hn Hlo. apply Z.bits_inj'. intros i Hi.
  rewrite Z.land_spec, Z.bits_0.
  destruct (Z.lt_ge_cases i n) as [Hlt|Hge].
  - rewrite Z.shiftl_spec_low by assumption. reflexivity.
  - rewrite <- (Z.mod_small lo (2 ^ n)) by assumption.
    rewrite Z.mod_pow2_bits_high by lia. apply andb_false_r.
Qed.

Lemma lor_shiftl_add (hi lo n : Z) :
  0 <= n -> 0 <= lo < 2 ^ n -> Z.lor (Z.shiftl hi n) lo = hi * 2 ^ n + lo.
Proof.
  intros Hn Hlo.
  rewrite <- Z.lxor_lor, <- Z.add_nocarry_lxor
    by (apply land_shiftl_low; assumption).
  rewrite Z.shiftl_mul_pow2 by assumption. reflexivity.
Qed.

Lemma word_range (a b c d : Z) :
  0 <= a < 256 -> 0 <= b < 256 -> 0 <= c < 256 -> 0 <= d < 256 ->
  0 <= word a b c d < 2 ^ 32.
Proof. unfold word. lia. Qed.

Lemma lor_word (a b c d : Z) :
  0 <= a < 256 -> 0 <= b < 256 -> 0 <= c < 256 -> 0 <= d < 256 ->
  u32 (Z.lor (Z.lor (Z.lor (Z.shiftl a 24) (Z.shiftl b 16)) (Z.shiftl c 8)) d)
  = word a b c d.
Proof.
  intros Ha Hb Hc Hd.
  assert (E1 : Z.lor (Z.shiftl a 24) (Z.shiftl b 16)
               = Z.shiftl (a * 2 ^ 8 + b) 16).
  { rewrite <- (lor_shiftl_add a b 8) by lia.
    rewrite Z.shiftl_lor, Z.shiftl_shiftl by lia. reflexivity. }
  rewrite E1.
  assert (E2 : Z.lor (Z.shiftl (a * 2 ^ 8 + b) 16) (Z.shiftl c 8)
               = Z.shiftl ((a * 2 ^ 8 + b) * 2 ^ 8 + c) 8).
  { rewrite <- (lor_shiftl_add (a * 2 ^ 8 + b) c 8) by lia.
    rewrite Z.shiftl_lor, Z.shiftl_shiftl by lia. reflexivity. }
  rewrite E2, lor_shiftl_add by lia.
  unfold u32, word. rewrite Z.mod_small; lia.
Qed.

Lemma fourcc_values :
  fourcc_ftyp = 0x66747970 /\ fourcc_moov = 0x6d6f6f76 /\
  fourcc_free = 0x66726565 /\ fourcc_mdat = 0x6d646174.
Proof. repeat split; reflexivity. Qed.

(** ** The byte reader *)

Lemma byte_at_range (d : list byte) (k v : Z) :
  byte_at d k = Some v -> 0 <= v < 256.
Proof.
  unfold byte_at. destruct (_ && _); intros E; inversion E.
  apply Z_of_byte_range.
Qed.

Lemma byte_at_Some (d : list byte) (k : Z) :
  0 <= k < Z.of_nat (length d) ->
  byte_at d k = Some (Z_of_byte (nth (Z.to_nat k) d x00)).
Proof.
  intros H. unfold byte_at.
  replace ((0 <=? k) && (k <? Z.of_nat (length d))) with true; [reflexivity|].
  symmetry. apply andb_true_iff. split; [apply Z.leb_le|apply Z.ltb_lt]; lia.
Qed.

Lemma byte_at_None (d : list byte) (k : Z) :
  ~ 0 <= k < Z.of_nat (length d) -> byte_at d k = None.
Proof.
  intros H. unfold byte_at.
  destruct (Z.leb_spec 0 k), (Z.ltb_spec k (Z.of_nat (length d)));
    simpl; try reflexivity; lia.
Qed.

Lemma word_at_range (d : list byte) (k w : Z) :
  word_at d k = Some w -> 0 <= w < 2 ^ 32.
Proof.
  unfold word_at.
  destruct (byte_at d k) eqn:E0; [|discriminate].
  destruct (byte_at d (k + 1)) eqn:E1; [|discriminate].
  destruct (byte_at d (k + 2)) eqn:E2; [|discriminate].
  destruct (byte_at d (k + 3)) eqn:E3; [|discriminate].
  intros E; inversion E; subst.
  apply word_range; eapply byte_at_range; eassumption.
Qed.

Lemma word_at_inside (d : list byte) (k w : Z) :
  word_at d k = Some w -> 0 <= k /\ k + 4 <= Z.of_nat (length d).
Proof.
  unfold word_at, byte_at.
  destruct (Z.leb_spec 0 k); simpl; [|discriminate].
  destruct (Z.ltb_spec k (Z.of_nat (length d))); [|discriminate].
  destruct (Z.leb_spec 0 (k + 1)); simpl; [|discriminate].
  destruct (Z.ltb_spec (k + 1) (Z.of_nat (length d))); [|discriminate].
  destruct (Z.leb_spec 0 (k + 2)); simpl; [|discriminate].
  destruct (Z.ltb_spec (k + 2) (Z.of_nat (length d))); [|discriminate].
  destruct (Z.leb_spec 0 (k + 3)); simpl; [|discriminate].
  destruct (Z.ltb_spec (k + 3) (Z.of_nat (length d))); [|discriminate].
  intros _. lia.
Qed.

Lemma word_at_defined (d : list byte) (k : Z) :
  0 <= k -> k + 4 <= Z.of_nat (length d) -> exists w, word_at d k = Some w.
Proof.
  intros H0 H4. unfold word_at.
  rewrite !byte_at_Some by lia. eexists. reflexivity.
Qed.

Lemma readable_true (f : FILE) (n : Z) :
  readable f n = true <->
  eof_ind f = false /\ 0 <= position f /\ position f + n <= size f.
Proof.
  unfold readable. rewrite !andb_true_iff, negb_true_iff, Z.leb_le, Z.leb_le.
  tauto.
Qed.

Lemma has_char_readable (f : FILE) : has_char f = readable f 1.
Proof.
  unfold has_char, readable. f_equal.
  destruct (Z.ltb_spec (position f) (size f)),
           (Z.leb_spec (position f + 1) (size f)); try reflexivity; lia.
Qed.

Lemma get1Byte_eq (f : FILE) :
  get1Byte f =
  if readable f 1
  then (byte_at (contents f) (position f), advance f 1)
  else (None, at_eof f (position f)).
Proof.
  unfold get1Byte, fgetc. rewrite has_char_readable.
  destruct (readable f 1) eqn:R; simpl; [|reflexivity].
  apply readable_true in R. unfold size in R.
  rewrite byte_at_Some, Z_of_byte_mod by lia. reflexivity.
Qed.

Ltac cmp :=
  repeat match goal with
  | |- context [Z.leb ?a ?b] => destruct (Z.leb_spec a b)
  | |- context [Z.ltb ?a ?b] => destruct (Z.ltb_spec a b)
  end.

Lemma readable_advance (f : FILE) (n m : Z) :
  readable f n = true -> 0 <= n ->
  readable (advance f n) m = readable f (n + m).
Proof.
  intros R Hn. apply readable_true in R. destruct R as (E & P & S).
  unfold readable, advance, size in *. simpl. rewrite E. simpl.
  cmp; simpl; try reflexivity; lia.
Qed.

Lemma readable_less (f : FILE) (n m : Z) :
  readable f n = true -> m <= n -> readable f m = true.
Proof.
  rewrite !readable_true. intros (E & P & S) H.
  repeat split; try assumption. lia.
Qed.

Lemma readable_false (f : FILE) (n : Z) :
  readable f 0 = true -> readable f n = false -> size f < position f + n.
Proof.
  intros R0 R. apply readable_true in R0. destruct R0 as (E & P & S).
  unfold readable in R. rewrite E in R. simpl in R.
  revert R. cmp; simpl; try discriminate; lia.
Qed.

Lemma advance_advance (f : FILE) (n m : Z) :
  advance (advance f n) m = advance f (n + m).
Proof. unfold advance. simpl. f_equal. lia. Qed.

Lemma get4Bytes_readable (f : FILE) :
  readable f 4 = true ->
  get4Bytes f = (word_at (contents f) (position f), advance f 4)
  /\ exists w, word_at (contents f) (position f) = Some w.
Proof.
  intros R.
  pose proof (proj1 (readable_true _ _) R) as (E & P & S). unfold size in S.
  destruct (word_at_defined (contents f) (position f)) as [w Hw]; try lia.
  split; [|eauto].
  unfold get4Bytes.
  rewrite get1Byte_eq, (readable_less f 4 1) by (assumption || lia).
  unfold word_at in *.
  destruct (byte_at (contents f) (position f)) as [a|] eqn:Ea;
    [|discriminate].
  destruct (byte_at (contents f) (position f + 1)) as [b|] eqn:Eb;
    [|discriminate].
  destruct (byte_at (contents f) (position f + 2)) as [c|] eqn:Ec;
    [|discriminate].
  destruct (byte_at (contents f) (position f + 3)) as [d|] eqn:Ed;
    [|discriminate].
  rewrite get1Byte_eq, readable_advance, (readable_less f 4 (1+1))
    by (assumption || lia || (eapply readable_less; [eassumption|lia])).
  simpl contents; simpl position. rewrite Eb.
  rewrite get1Byte_eq, advance_advance, readable_advance,
    (readable_less f 4 (1+1+1))
    by (assumption || lia || (eapply readable_less; [eassumption|lia])).
  simpl contents; simpl position.
  replace (position f + (1 + 1)) with (position f + 2) by lia. rewrite Ec.
  rewrite get1Byte_eq, advance_advance, readable_advance,
    (readable_less f 4 (1+1+1+1))
    by (assumption || lia || (eapply readable_less; [eassumption|lia])).
  simpl contents; simpl position.
  replace (position f + (1 + 1 + 1)) with (position f + 3) by lia. rewrite Ed.
  rewrite advance_advance.
  rewrite lor_word by (eapply byte_at_range; eassumption). reflexivity.
Qed.

Lemma get4Bytes_short (f : FILE) :
  readable f 4 = false ->
  exists p, get4Bytes f = (None, at_eof f p)
            /\ position f <= p <= position f + 3
            /\ (readable f 0 = true -> p = size f).
Proof.
  intros R. unfold get4Bytes.
  rewrite get1Byte_eq. destruct (readable f 1) eqn:R1.
  2:{ exists (position f). split; [reflexivity|]. split; [lia|].
      intros R0. pose proof (readable_false f 1 R0 R1).
      apply readable_true in R0. lia. }
  pose proof (proj1 (readable_true _ _) R1) as (E & P & S).
  pose proof (readable_less f 1 0 R1 ltac:(lia)) as R0.
  rewrite byte_at_Some by (unfold size in S; lia).
  rewrite get1Byte_eq, readable_advance by (assumption || lia).
  destruct (readable f (1 + 1)) eqn:R2.
  2:{ exists (position f + 1). split; [reflexivity|]. split; [lia|].
      intros _. pose proof (readable_false f _ R0 R2). lia. }
  pose proof (proj1 (readable_true _ _) R2) as (_ & _ & S2).
  simpl contents; simpl position.
  rewrite byte_at_Some by (unfold size in S2; lia).
  rewrite get1Byte_eq, advance_advance, readable_advance
    by (assumption || lia).
  destruct (readable f (1 + 1 + 1)) eqn:R3.
  2:{ exists (position f + 2). split; [unfold at_eof; simpl; repeat f_equal; lia|].
      split; [lia|].
      intros _. pose proof (readable_false f _ R0 R3). lia. }
  pose proof (proj1 (readable_true _ _) R3) as (_ & _ & S3).
  simpl contents; simpl position.
  rewrite byte_at_Some by (unfold size in S3; lia).
  rewrite get1Byte_eq, advance_advance, readable_advance
    by (assumption || lia).
  replace (1 + 1 + 1 + 1) with 4 by lia. rewrite R.
  exists (position f + 3). split; [unfold at_eof; simpl; repeat f_equal; lia|].
  split; [lia|].
  intros _. pose proof (readable_false f _ R0 R). lia.
Qed.

(** ** The unread part of the input *)

Lemma skipn_nth_cons {A : Type} (d : A) (l : list A) (n : nat) :
  (n < length l)%nat -> skipn n l = nth n l d :: skipn (S n) l.
Proof.
  revert l. induction n as [|n IH]; intros [|a l] H; simpl in *; try lia.
  - reflexivity.
  - apply IH. lia.
Qed.

Lemma rest_at_eof (f : FILE) (p : Z) : rest (at_eof f p) = [].
Proof. reflexivity. Qed.

Lemma rest_nil (f : FILE) : readable f 1 = false -> rest f = [].
Proof.
  intros R. unfold rest. destruct (readable f 0) eqn:R0; [|reflexivity].
  pose proof (readable_false f 1 R0 R). apply skipn_all2.
  apply readable_true in R0. unfold size in *. lia.
Qed.

Lemma rest_cons (f : FILE) :
  readable f 1 = true ->
  exists b, rest f = b :: rest (advance f 1)
            /\ byte_at (contents f) (position f) = Some (Z_of_byte b).
Proof.
  intros R. exists (nth (Z.to_nat (position f)) (contents f) x00).
  pose proof (proj1 (readable_true _ _) R) as (E & P & S). unfold size in S.
  unfold rest. rewrite readable_advance, (readable_less f 1 0)
    by (assumption || lia).
  replace (1 + 0) with 1 by lia. rewrite R.
  simpl. split; [|apply byte_at_Some; lia].
  rewrite (skipn_nth_cons x00) by lia.
  do 2 f_equal. lia.
Qed.

Lemma get1Byte_rest (f : FILE) :
  get1Byte f =
  match rest f with
  | b :: _ => (Some (Z_of_byte b), advance f 1)
  | [] => (None, at_eof f (position f))
  end.
Proof.
  rewrite get1Byte_eq. destruct (readable f 1) eqn:R.
  - destruct (rest_cons f R) as (b & -> & ->). reflexivity.
  - rewrite rest_nil by assumption. reflexivity.
Qed.

Lemma rest_advance (f : FILE) (b : byte) (r : list byte) :
  rest f = b :: r -> rest (advance f 1) = r.
Proof.
  intros E. destruct (readable f 1) eqn:R.
  - destruct (rest_cons f R) as (b' & E' & _). congruence.
  - rewrite rest_nil in E by assumption. discriminate.
Qed.

Lemma rest_skipn (f : FILE) :
  eof_ind f = false -> 0 <= position f ->
  rest f = skipn (Z.to_nat (position f)) (contents f).
Proof.
  intros E P. unfold rest, readable. rewrite E. simpl.
  destruct (Z.leb_spec 0 (position f)); [|lia].
  destruct (Z.leb_spec (position f + 0) (size f)); simpl; [reflexivity|].
  symmetry. apply skipn_all2. unfold size in *. lia.
Qed.

Lemma rest_advance_n (f : FILE) (n : Z) :
  readable f 0 = true -> 0 <= n ->
  rest (advance f n) = skipn (Z.to_nat n) (rest f).
Proof.
  intros R Hn. apply readable_true in R. destruct R as (E & P & S).
  rewrite (rest_skipn f), (rest_skipn (advance f n)) by (simpl; lia || assumption).
  simpl. rewrite skipn_skipn. f_equal. lia.
Qed.

Lemma remaining_le (f : FILE) : (remaining f <= length (contents f))%nat.
Proof.
  unfold remaining, rest. destruct (readable f 0); simpl; [|lia].
  rewrite length_skipn. lia.
Qed.

(** ** The atom probe *)

Lemma checkAtom_readable (f : FILE) (tag : Z) :
  readable f 8 = true ->
  exists s t,
    word_at (contents f) (position f) = Some s /\
    word_at (contents f) (position f + 4) = Some t /\
    checkAtom f tag =
      (if (t =? tag) && (8 <=? s) then Some (s - 8) else None, advance f 8).
Proof.
  intros R.
  assert (R4 : readable f 4 = true) by (eapply readable_less; [eassumption|lia]).
  destruct (get4Bytes_readable f R4) as (G1 & s & Hs).
  assert (R4' : readable (advance f 4) 4 = true)
    by (rewrite readable_advance by (assumption || lia); exact R).
  destruct (get4Bytes_readable _ R4') as (G2 & t & Ht).
  simpl in G2, Ht. rewrite advance_advance in G2.
  exists s, t. repeat split; try assumption.
  unfold checkAtom. rewrite G1, Hs, G2, Ht.
  pose proof (word_at_range _ _ _ Hs) as Hr.
  destruct (t =? tag); simpl; [|reflexivity].
  destruct (Z.ltb_spec s 8), (Z.leb_spec 8 s); try lia; [reflexivity|].
  unfold u32. rewrite Z.mod_small by lia. reflexivity.
Qed.

Lemma checkAtom_short (f : FILE) (tag : Z) :
  readable f 8 = false ->
  exists p, checkAtom f tag = (None, at_eof f p)
            /\ position f <= p <= position f + 7
            /\ (readable f 0 = true -> p = size f).
Proof.
  intros R. unfold checkAtom.
  destruct (readable f 4) eqn:R4.
  - destruct (get4Bytes_readable f R4) as (G1 & s & Hs). rewrite G1, Hs.
    assert (R4' : readable (advance f 4) 4 = false)
      by (rewrite readable_advance by (assumption || lia); exact R).
    destruct (get4Bytes_short _ R4') as (p & G2 & Hp & Hend).
    rewrite G2. exists p. simpl in *. repeat split; try lia.
    intros R0. apply Hend.
    rewrite readable_advance by (assumption || lia). exact R4.
  - destruct (get4Bytes_short _ R4) as (p & G1 & Hp & Hend).
    rewrite G1. exists p. repeat split; try lia. exact Hend.
Qed.

(** ** Repair type 1 *)

Lemma copyToEnd_rest (fuel : nat) (f : FILE) (out : list byte) :
  (remaining f < fuel)%nat ->
  exists f', copyToEnd fuel f out = Some (f', out ++ rest f)
             /\ contents f' = contents f.
Proof.
  revert f out. induction fuel as [|fuel IH]; intros f out Hf; [lia|].
  simpl. rewrite get1Byte_rest. unfold remaining in Hf.
  destruct (rest f) as [|b r] eqn:E.
  - eexists. rewrite app_nil_r. split; reflexivity.
  - destruct (IH (advance f 1) (fputc (Z_of_byte b) out)) as (f' & -> & Hc).
    + unfold remaining. rewrite (rest_advance f b r E). simpl in Hf. lia.
    + exists f'. split; [|exact Hc].
      unfold fputc. rewrite byte_of_Z_of_byte, (rest_advance f b r E),
        <- app_assoc. reflexivity.
Qed.

Lemma doRepairType1_output (fuel : nat) (f : FILE) (out : list byte) (S : Z) :
  (remaining f < fuel)%nat ->
  exists f', doRepairType1 fuel f out S
             = Some (f', out ++ be32 S ++ tag_ftyp ++ rest f).
Proof.
  intros Hf. unfold doRepairType1.
  destruct (copyToEnd_rest fuel f
    (fputc (Z_of_byte "p") (fputc (Z_of_byte "y") (fputc (Z_of_byte "t")
      (fputc (Z_of_byte "f") (fputc S (fputc (Z.shiftr S 8)
        (fputc (Z.shiftr S 16) (fputc (Z.shiftr S 24) out)))))))) Hf)
    as (f' & -> & _).
  exists f'. do 2 f_equal. unfold fputc, be32, tag_ftyp.
  rewrite !byte_of_Z_of_byte, !Z.shiftr_div_pow2 by lia.
  rewrite <- !app_assoc. reflexivity.
Qed.

(** ** Inversion of the readers *)

Lemma get1Byte_inv (f : FILE) :
  (exists c, get1Byte f = (Some c, advance f 1) /\ readable f 1 = true
             /\ byte_at (contents f) (position f) = Some c)
  \/ (get1Byte f = (None, at_eof f (position f)) /\ readable f 1 = false).
Proof.
  rewrite get1Byte_eq. destruct (readable f 1) eqn:R.
  - left. pose proof (proj1 (readable_true _ _) R) as (E & P & S).
    unfold size in S. rewrite byte_at_Some by lia.
    eexists. repeat split.
  - right. split; reflexivity.
Qed.

Lemma get4Bytes_inv (f : FILE) :
  (exists w, get4Bytes f = (Some w, advance f 4) /\ readable f 4 = true
             /\ word_at (contents f) (position f) = Some w)
  \/ (exists p, get4Bytes f = (None, at_eof f p) /\ readable f 4 = false).
Proof.
  destruct (readable f 4) eqn:R.
  - left. destruct (get4Bytes_readable f R) as (G & w & Hw).
    exists w. rewrite G, Hw. repeat split.
  - right. destruct (get4Bytes_short f R) as (p & G & _).
    exists p. split; [exact G|reflexivity].
Qed.

Lemma checkAtom_inv (f : FILE) (tag : Z) :
  (exists n, checkAtom f tag = (Some n, advance f 8) /\ readable f 8 = true
             /\ word_at (contents f) (position f) = Some (n + 8)
             /\ word_at (contents f) (position f + 4) = Some tag
             /\ 0 <= n < 2 ^ 32 - 8)
  \/ (exists g, checkAtom f tag = (None, g) /\ contents g = contents f
                /\ position f <= position g <= position f + 8).
Proof.
  destruct (readable f 8) eqn:R.
  - destruct (checkAtom_readable f tag R) as (s & t & Hs & Ht & ->).
    pose proof (word_at_range _ _ _ Hs).
    destruct (Z.eqb_spec t tag); simpl.
    + destruct (Z.leb_spec 8 s).
      * left. exists (s - 8). subst t.
        replace (s - 8 + 8) with s by lia. repeat split; try assumption; lia.
      * right. eexists. repeat split; simpl; lia.
    + right. eexists. repeat split; simpl; lia.
  - destruct (checkAtom_short f tag R) as (p & -> & Hp & _).
    right. eexists. repeat split; simpl; lia.
Qed.

Lemma fseek_inv (f : FILE) (off : Z) (w : whence) (g : FILE) :
  fseek f off w = Some g ->
  contents g = contents f /\ eof_ind g = false /\ 0 <= position g /\
  position g = match w with SEEK_SET => off | SEEK_CUR => position f + off end.
Proof.
  unfold fseek. destruct w; simpl.
  - destruct (Z.ltb_spec off 0); intros E; inversion E; simpl. repeat split; lia.
  - destruct (Z.ltb_spec (position f + off) 0); intros E; inversion E; simpl.
    repeat split; lia.
Qed.

Lemma fseek_forward (f : FILE) (off : Z) :
  0 <= position f -> 0 <= off -> fseek f off SEEK_CUR = Some (advance f off).
Proof.
  intros P O. unfold fseek.
  destruct (Z.ltb_spec (position f + off) 0); [lia|reflexivity].
Qed.

Lemma remaining_readable (f : FILE) :
  readable f 0 = true -> Z.of_nat (remaining f) = size f - position f.
Proof.
  intros R. unfold remaining, rest. rewrite R, length_skipn.
  apply readable_true in R. unfold size in *. lia.
Qed.

Lemma remaining_advance (f : FILE) (n : Z) :
  readable f n = true -> 0 < n ->
  (remaining (advance f n) + Z.to_nat n <= remaining f)%nat.
Proof.
  intros R Hn.
  assert (R0 : readable f 0 = true) by (eapply readable_less; [eassumption|lia]).
  assert (R0' : readable (advance f n) 0 = true).
  { rewrite readable_advance by (assumption || lia).
    replace (n + 0) with n by lia. exact R. }
  pose proof (remaining_readable f R0).
  pose proof (remaining_readable _ R0'). unfold size in *. simpl in *. lia.
Qed.

Lemma good_advance (f : FILE) (n : Z) :
  readable f n = true -> 0 <= n -> later f (advance f n).
Proof.
  intros R Hn. apply readable_true in R. unfold later, good. simpl.
  repeat split. lia.
Qed.

Lemma later_refl (f : FILE) : good f -> later f f.
Proof. intros G. split; [reflexivity|exact G]. Qed.

Lemma later_trans (f g h : FILE) : later f g -> later g h -> later f h.
Proof. unfold later. intros (C1 & G1) (C2 & G2). split; congruence. Qed.

(** ** The loops of [main] end, and keep the stream in order *)

Lemma start_ok_later (f g : FILE) (r : start) :
  later f g -> start_ok g r -> start_ok f r.
Proof.
  intros L. destruct r; simpl; try tauto; apply later_trans; exact L.
Qed.

Lemma verdict_ok_later (f g : FILE) (v : verdict) :
  later f g -> verdict_ok g v -> verdict_ok f v.
Proof.
  intros L. destruct v; simpl; try tauto.
  - intros (L' & Hs). split; [eapply later_trans; eassumption|exact Hs].
  - apply later_trans; exact L.
Qed.

Lemma fseek_later (f g : FILE) (off : Z) (w : whence) :
  fseek f off w = Some g -> later f g.
Proof.
  intros E. apply fseek_inv in E. unfold later, good. tauto.
Qed.

Lemma checkStart_ok (fuel : nat) (a b : Z) (s : bool) (f : FILE)
  (err : list message) :
  good f -> (remaining f < fuel)%nat ->
  exists r, checkStart fuel a b s f err = Some r /\ start_ok f r.
Proof.
  revert a b s f err.
  induction fuel as [|fuel IH]; intros a b s f err G Hf; [lia|].
  cbn [checkStart].
  destruct (b =? fourcc_ftyp).
  { destruct (a <? 8); [eexists; split; [reflexivity|exact I]|].
    destruct (fseek f (u32 (a - 8)) SEEK_CUR) as [g|] eqn:E;
      [|eexists; split; [reflexivity|exact I]].
    eexists; split; [reflexivity|]. simpl. eapply fseek_later; eassumption. }
  destruct (a =? 2).
  { eexists; split; [reflexivity|]. simpl. apply later_refl; assumption. }
  destruct ((a =? 0) || (a =? 4294967295)).
  { destruct (get4Bytes_inv f) as [(w & -> & R & _)|(p & -> & _)];
      [|eexists; split; [reflexivity|exact I]].
    destruct (IH b w false (advance f 4)
                (if s then say (SkippingInitialJunk a) err else err))
      as (r & -> & Hr).
    - apply good_advance; [assumption|lia].
    - pose proof (remaining_advance f 4 R). lia.
    - exists r. split; [reflexivity|].
      eapply start_ok_later; [|eassumption]. apply good_advance; [assumption|lia]. }
  destruct (get1Byte_inv f) as [(c & -> & R & _)|(-> & _)];
    [|eexists; split; [reflexivity|exact I]].
  match goal with |- exists r, checkStart fuel ?a' ?b' false _ ?e = _ /\ _ =>
    destruct (IH a' b' false (advance f 1) e) as (r & -> & Hr) end.
  - apply good_advance; [assumption|lia].
  - pose proof (remaining_advance f 1 R). lia.
  - exists r. split; [reflexivity|].
    eapply start_ok_later; [|eassumption]. apply good_advance; [assumption|lia].
Qed.

Lemma lookFor2_ok (fuel : nat) (f : FILE) (err : list message) :
  (remaining f < fuel)%nat ->
  exists r g err', lookFor2 fuel f err = Some (r, g, err')
                   /\ (r <> None -> later f g).
Proof.
  revert f err. induction fuel as [|fuel IH]; intros f err Hf; [lia|].
  cbn [lookFor2].
  destruct (get4Bytes_inv f) as [(a & -> & R1 & _)|(p & -> & _)];
    [|do 3 eexists; split; [reflexivity|congruence]].
  pose proof (good_advance f 4 R1 ltac:(lia)) as L1.
  pose proof (remaining_advance f 4 R1 ltac:(lia)) as M1.
  destruct (get4Bytes_inv (advance f 4)) as [(b & -> & R2 & _)|(p & -> & _)];
    [|do 3 eexists; split; [reflexivity|congruence]].
  pose proof (good_advance _ 4 R2 ltac:(lia)) as L2.
  pose proof (remaining_advance _ 4 R2 ltac:(lia)) as M2.
  destruct (a =? 2).
  { do 3 eexists; split; [reflexivity|]. intros _.
    eapply later_trans; eassumption. }
  destruct (get4Bytes_inv (advance (advance f 4) 4))
    as [(c & -> & R3 & _)|(p & -> & _)];
    [|do 3 eexists; split; [reflexivity|congruence]].
  pose proof (good_advance _ 4 R3 ltac:(lia)) as L3.
  pose proof (remaining_advance _ 4 R3 ltac:(lia)) as M3.
  destruct (IH (advance (advance (advance f 4) 4) 4) err)
    as (r & g & err' & -> & Hr); [lia|].
  exists r, g, err'. split; [reflexivity|]. intros N.
  eapply later_trans; [exact L1|]. eapply later_trans; [exact L2|].
  eapply later_trans; [exact L3|]. exact (Hr N).
Qed.

Lemma nestedFtyp_ok (fuel : nat) (n : Z) (f : FILE) (err : list message) :
  0 <= n < 2 ^ 32 - 8 -> 0 <= position f ->
  (Z.to_nat (size f - position f) < fuel)%nat ->
  exists curPos n' g err',
    nestedFtyp fuel n f err = Some (curPos, n', g, err')
    /\ contents g = contents f /\ 0 <= curPos /\ 0 <= n' < 2 ^ 32 - 8.
Proof.
  revert n f err. induction fuel as [|fuel IH]; intros n f err Hn P Hf; [lia|].
  cbn [nestedFtyp]. rewrite fseek_forward by lia.
  destruct (checkAtom_inv (advance f n) fourcc_moov)
    as [(m & -> & R1 & _ & _ & Hm)|(g & -> & C & _)];
    [|do 4 eexists; split; [reflexivity|]; simpl in *; unfold ftell; tauto].
  rewrite fseek_forward by (simpl; lia).
  destruct (checkAtom_inv (advance (advance (advance f n) 8) m) fourcc_mdat)
    as [(d & -> & R2 & _)|(g & -> & C & _)];
    [|do 4 eexists; split; [reflexivity|]; simpl in *; unfold ftell; tauto].
  destruct (checkAtom_inv
              (advance (advance (advance (advance f n) 8) m) 8) fourcc_ftyp)
    as [(n' & -> & R3 & _ & _ & Hn')|(g & -> & C & _)];
    [|do 4 eexists; split; [reflexivity|]; simpl in *; unfold ftell; tauto].
  apply readable_true in R3. simpl in R3. unfold size in *. simpl in R3.
  match goal with |- context [nestedFtyp fuel n' ?g ?e] =>
    destruct (IH n' g e) as (cp & n'' & h & err' & -> & C & Hcp & Hn'') end;
    [assumption|simpl; lia|simpl; lia|].
  do 4 eexists. split; [reflexivity|]. simpl in C. tauto.
Qed.

Lemma fallBackToType2_ok (fuel : nat) (f : FILE) (err : list message) :
  (length (contents f) < fuel)%nat ->
  exists v, fallBackToType2 fuel f err = Some v /\ verdict_ok f v.
Proof.
  intros Hf. unfold fallBackToType2.
  destruct (lookFor2_ok fuel f (say LookingFor2 err))
    as (r & g & err' & -> & Hr); [pose proof (remaining_le f); lia|].
  destruct r as [w|].
  - eexists. split; [reflexivity|]. simpl. apply Hr. discriminate.
  - eexists. split; [reflexivity|exact I].
Qed.

Lemma verdict_ok_contents (f g : FILE) (v : verdict) :
  contents g = contents f -> verdict_ok g v -> verdict_ok f v.
Proof.
  intros C. destruct v; simpl; unfold later; try rewrite C; tauto.
Qed.

Lemma checkMdat_ok (fuel : nat) (f : FILE) (err : list message) :
  (length (contents f) < fuel)%nat ->
  exists v, checkMdat fuel f err = Some v /\ verdict_ok f v.
Proof.
  intros Hf. unfold checkMdat.
  destruct (checkAtom_inv f fourcc_mdat)
    as [(d & -> & R1 & _)|(g & -> & C & _)].
  - destruct (checkAtom_inv (advance f 8) fourcc_ftyp)
      as [(n & -> & R2 & _ & _ & Hn)|(g & -> & C & _)].
    + apply readable_true in R2. simpl in R2.
      destruct (nestedFtyp_ok fuel n (advance (advance f 8) 8)
                  (say SawMdat err))
        as (cp & n' & g & err' & -> & C & Hcp & Hn');
        [assumption|simpl; lia|unfold size; simpl; lia|].
      eexists. split; [reflexivity|]. simpl.
      unfold fseek. destruct (Z.ltb_spec cp 0); [lia|].
      unfold later, good, u32. simpl in *.
      rewrite Z.mod_small by lia. repeat split; (assumption || lia).
    + destruct (fseek g (-8) SEEK_CUR) as [h|] eqn:E;
        [|eexists; split; [reflexivity|exact I]].
      apply fseek_inv in E. destruct E as (Ch & _).
      destruct (fallBackToType2_ok fuel h
                  (say DidntSeeFtypInMdat (say SawMdat err)))
        as (v & -> & Hv); [simpl in *; rewrite Ch, C; exact Hf|].
      exists v. split; [reflexivity|].
      eapply verdict_ok_contents; [|exact Hv]. simpl in *. congruence.
  - destruct (fallBackToType2_ok fuel g (say DidntSeeMdat err))
      as (v & -> & Hv); [rewrite C; exact Hf|].
    exists v. split; [reflexivity|].
    eapply verdict_ok_contents; [|exact Hv]. exact C.
Qed.

Lemma checkFree_ok (fuel : nat) (f : FILE) (err : list message) :
  (length (contents f) < fuel)%nat ->
  exists v, checkFree fuel f err = Some v /\ verdict_ok f v.
Proof.
  intros Hf. unfold checkFree.
  destruct (checkAtom_inv f fourcc_free)
    as [(n & -> & R1 & _)|(g & -> & C & _)].
  - destruct (fseek (advance f 8) n SEEK_CUR) as [h|] eqn:E;
      [|eexists; split; [reflexivity|exact I]].
    apply fseek_inv in E. destruct E as (Ch & _).
    destruct (checkMdat_ok fuel h (say (SawFree (u32 (8 + n))) err))
      as (v & -> & Hv); [rewrite Ch; exact Hf|].
    exists v. split; [reflexivity|].
    eapply verdict_ok_contents; [|exact Hv]. exact Ch.
  - destruct (fseek g (-8) SEEK_CUR) as [h|] eqn:E;
      [|eexists; split; [reflexivity|exact I]].
    apply fseek_inv in E. destruct E as (Ch & _).
    destruct (checkMdat_ok fuel h err)
      as (v & -> & Hv); [rewrite Ch, C; exact Hf|].
    exists v. split; [reflexivity|].
    eapply verdict_ok_contents; [|exact Hv]. congruence.
Qed.

Lemma checkType1_ok (fuel : nat) (f : FILE) (err : list message) :
  (length (contents f) < fuel)%nat ->
  exists v, checkType1 fuel f err = Some v /\ verdict_ok f v.
Proof.
  intros Hf. unfold checkType1.
  destruct (checkAtom_inv f fourcc_moov)
    as [(n & -> & R1 & _)|(g & -> & C & _)].
  - destruct (fseek (advance f 8) n SEEK_CUR) as [h|] eqn:E;
      [|eexists; split; [reflexivity|exact I]].
    apply fseek_inv in E. destruct E as (Ch & _).
    destruct (checkFree_ok fuel h (say (SawMoov (u32 (8 + n))) err))
      as (v & -> & Hv); [rewrite Ch; exact Hf|].
    exists v. split; [reflexivity|].
    eapply verdict_ok_contents; [|exact Hv]. exact Ch.
  - destruct (fseek g (-8) SEEK_CUR) as [h|] eqn:E;
      [|eexists; split; [reflexivity|exact I]].
    apply fseek_inv in E. destruct E as (Ch & _).
    destruct (checkFree_ok fuel h (say DidntSeeMoov err))
      as (v & -> & Hv); [rewrite Ch, C; exact Hf|].
    exists v. split; [reflexivity|].
    eapply verdict_ok_contents; [|exact Hv]. congruence.
Qed.

Lemma startOfFile_ok (input : list byte) :
  exists r, startOfFile (enoughFuel input) (fopen input) = Some r
            /\ start_ok (fopen input) r.
Proof.
  unfold startOfFile, enoughFuel. set (f := fopen input).
  destruct (get4Bytes_inv f) as [(a & -> & R1 & _)|(p & -> & _)];
    [|eexists; split; [reflexivity|exact I]].
  destruct (get4Bytes_inv (advance f 4)) as [(b & -> & R2 & _)|(p & -> & _)];
    [|eexists; split; [reflexivity|exact I]].
  pose proof (good_advance f 4 R1 ltac:(lia)) as L1.
  pose proof (good_advance _ 4 R2 ltac:(lia)) as L2.
  pose proof (later_trans _ _ _ L1 L2) as L.
  destruct (checkStart_ok (S (length input)) a b true
              (advance (advance f 4) 4) []) as (r & -> & Hr);
    [apply L2|pose proof (remaining_le (advance (advance f 4) 4));
              simpl in *; lia|].
  exists r. split; [reflexivity|].
  eapply start_ok_later; eassumption.
Qed.

Lemma detect_ok (input : list byte) :
  exists v, detect (enoughFuel input) (fopen input) = Some v
            /\ verdict_ok (fopen input) v.
Proof.
  unfold detect.
  destruct (startOfFile_ok input) as (r & -> & Hr).
  destruct r as [err|g err|w g err]; simpl in Hr.
  - eexists; split; [reflexivity|exact I].
  - destruct (checkType1_ok (enoughFuel input) g err) as (v & -> & Hv).
    { destruct Hr as (C & _). rewrite C. unfold enoughFuel. simpl. lia. }
    assert (Hv' : verdict_ok (fopen input) v).
    { eapply verdict_ok_later; [|exact Hv]. exact Hr. }
    destruct v; eexists; (split; [reflexivity|exact Hv']).
  - eexists; split; [reflexivity|]. exact Hr.
Qed.

Lemma be32_word (w : Z) :
  0 <= w < 2 ^ 32 ->
  word (Z_of_byte (byte_of_Z (w / 2 ^ 24))) (Z_of_byte (byte_of_Z (w / 2 ^ 16)))
       (Z_of_byte (byte_of_Z (w / 2 ^ 8))) (Z_of_byte (byte_of_Z w)) = w.
Proof.
  intros H. rewrite !Z_of_byte_of_Z. unfold word.
  change (2 ^ 24) with 16777216. change (2 ^ 16) with 65536.
  change (2 ^ 8) with 256. change (2 ^ 32) with 4294967296 in H.
  Z.div_mod_to_equations. lia.
Qed.

(** ** Repair path A: the output *)

Lemma main_type1
  (input : list byte) (formatCode S : Z) (inputFID : FILE)
  (err : list message) :
  detect (enoughFuel input) (fopen input) = Some (RepairType1 S inputFID err) ->
  main input formatCode
  = Some (Exit0 1
            (be32 S ++ tag_ftyp
             ++ skipn (Z.to_nat (position inputFID)) input)
            (say Done err)).
Proof.
  intros D. unfold main. rewrite D.
  destruct (detect_ok input) as (v & D' & Hv).
  rewrite D in D'. inversion D'; subst v. simpl in Hv.
  destruct Hv as ((C & E & P) & _). simpl in C.
  destruct (doRepairType1_output (enoughFuel input) inputFID [] S)
    as (f' & ->).
  { pose proof (remaining_le inputFID). rewrite C in *.
    unfold enoughFuel. lia. }
  rewrite rest_skipn, C by assumption. reflexivity.
Qed.

(** C1.  Whenever [main] decides on a type 1 repair with 'ftyp' size [S],
    the repaired file is the four bytes of [S], most significant first,
    then 'ftyp', then every byte of the input from the position of the
    stream at the start of the repair to the end of the input, unchanged. *)
Theorem type1_output_is_header_then_copy
  (input : list byte) (formatCode S : Z) (inputFID : FILE)
  (err : list message) :
  detect (enoughFuel input) (fopen input) = Some (RepairType1 S inputFID err) ->
  main input formatCode
  = Some (Exit0 1
            (be32 S ++ tag_ftyp
             ++ skipn (Z.to_nat (position inputFID)) input)
            (say Done err)).
Proof. apply main_type1. Qed.

Lemma type1_output_witness :
  main sample_type1 (char "8")
  = Some (Exit0 1 (be32 8 ++ tag_ftyp ++ skipn 24 sample_type1)
            [SawInitialFtyp; DidntSeeMoov; SawMdat; SawFtypWithinMdat; Done]).
Proof.
  apply (type1_output_is_header_then_copy sample_type1 (char "8") 8
           (mkFILE sample_type1 24 false)
           [SawInitialFtyp; DidntSeeMoov; SawMdat; SawFtypWithinMdat]).
  vm_compute. reflexivity.
Defined.

(** ** The atom probe: contract *)

(** C7.  [checkAtom] fails exactly when fewer than eight bytes can be read,
    or the tag read is not the expected one, or the size read is below 8.
    When it succeeds it yields the size less 8 and leaves the stream just
    past the eight bytes of the header, the payload unread.  When it fails
    the position is not put back: it is past the header if the header could
    be read, and at the end of the input otherwise. *)
Theorem checkAtom_contract (fid : FILE) (fourccToCheck : Z) :
  let atomSize := word_at (contents fid) (position fid) in
  let tag := word_at (contents fid) (position fid + 4) in
  (fst (checkAtom fid fourccToCheck) = None <->
     readable fid 8 = false \/ tag <> Some fourccToCheck
     \/ exists s, atomSize = Some s /\ s < 8)
  /\ (forall n, fst (checkAtom fid fourccToCheck) = Some n ->
        atomSize = Some (n + 8)
        /\ snd (checkAtom fid fourccToCheck) = advance fid 8
        /\ rest (snd (checkAtom fid fourccToCheck)) = skipn 8 (rest fid))
  /\ (fst (checkAtom fid fourccToCheck) = None ->
        if readable fid 8
        then snd (checkAtom fid fourccToCheck) = advance fid 8
        else exists p, snd (checkAtom fid fourccToCheck) = at_eof fid p
                       /\ position fid <= p
                       /\ (readable fid 0 = true -> p = size fid)).
Proof.
  intros atomSize tag. subst atomSize tag.
  destruct (readable fid 8) eqn:R.
  - destruct (checkAtom_readable fid fourccToCheck R)
      as (s & t & Hs & Ht & E).
    rewrite E, Hs, Ht. simpl fst; simpl snd.
    pose proof (readable_less fid 8 0 R ltac:(lia)) as R0.
    destruct (Z.eqb_spec t fourccToCheck) as [->|Ne];
      [destruct (Z.leb_spec 8 s)|]; simpl.
    + split; [|split].
      * split; [discriminate|].
        intros [Q|[Q|(s' & Q & Hlt)]];
          [discriminate|congruence|inversion Q; lia].
      * intros n Hn. inversion Hn; subst n.
        replace (s - 8 + 8) with s by lia.
        repeat split. apply rest_advance_n; [exact R0|lia].
      * discriminate.
    + split; [|split].
      * split; [|reflexivity]. intros _. right. right. exists s. split;
          [reflexivity|assumption].
      * discriminate.
      * reflexivity.
    + split; [|split].
      * split; [|reflexivity]. intros _. right. left. congruence.
      * discriminate.
      * reflexivity.
  - destruct (checkAtom_short fid fourccToCheck R) as (p & E & Hp & Hend).
    rewrite E. simpl fst; simpl snd. split; [|split].
    + split; [|reflexivity]. intros _. left. reflexivity.
    + discriminate.
    + intros _. exists p. repeat split; [lia|exact Hend].
Qed.

Lemma checkAtom_contract_witness :
  (fst (checkAtom (mkFILE sample_type1 16 false) fourcc_ftyp) = Some 0 ->
   word_at sample_type1 16 = Some (0 + 8)
   /\ snd (checkAtom (mkFILE sample_type1 16 false) fourcc_ftyp)
      = advance (mkFILE sample_type1 16 false) 8
   /\ rest (snd (checkAtom (mkFILE sample_type1 16 false) fourcc_ftyp))
      = skipn 8 (rest (mkFILE sample_type1 16 false)))
  /\ fst (checkAtom (mkFILE sample_type1 16 false) fourcc_ftyp) = Some 0.
Proof.
  split.
  - exact (proj1 (proj2 (checkAtom_contract
                           (mkFILE sample_type1 16 false) fourcc_ftyp)) 0).
  - vm_compute. reflexivity.
Defined.

(** ** Repair type 2: the pieces *)

Lemma fgetc_rest (f : FILE) :
  fgetc f =
  match rest f with
  | b :: _ => (Z_of_byte b, advance f 1)
  | [] => (EOF, at_eof f (position f))
  end.
Proof.
  unfold fgetc. rewrite has_char_readable.
  destruct (readable f 1) eqn:R.
  - destruct (rest_cons f R) as (b & -> & Hb).
    pose proof (proj1 (readable_true _ _) R) as (E & P & S).
    unfold size in S. rewrite byte_at_Some in Hb by lia.
    inversion Hb as [Hb']. rewrite Hb'. reflexivity.
  - rewrite rest_nil by assumption. reflexivity.
Qed.

Lemma advance_0 (f : FILE) : eof_ind f = false -> advance f 0 = f.
Proof.
  destruct f as [c p e]. simpl. intros ->. unfold advance. simpl.
  f_equal. lia.
Qed.

Lemma copyNAL_spec (n : nat) (f : FILE) (out : list byte) :
  exists f',
    copyNAL n f out
    = (f', out ++ firstn n (rest f) ++ repeat xff (n - remaining f))
    /\ rest f' = skipn n (rest f)
    /\ contents f' = contents f
    /\ ((n <= remaining f)%nat -> eof_ind f = false ->
        f' = advance f (Z.of_nat n)).
Proof.
  revert f out. induction n as [|n IH]; intros f out.
  - exists f. simpl. rewrite app_nil_r. repeat split.
    intros _ E. symmetry. apply advance_0. exact E.
  - cbn [copyNAL]. rewrite fgetc_rest. unfold remaining.
    destruct (rest f) as [|b r] eqn:E.
    + destruct (IH (at_eof f (position f)) (fputc EOF out))
        as (f' & -> & Hr & Hc & _).
      exists f'. rewrite rest_at_eof in *. unfold remaining.
      rewrite rest_at_eof. simpl. rewrite firstn_nil in *.
      rewrite skipn_nil in Hr. repeat split; try assumption.
      * unfold fputc. rewrite <- app_assoc. simpl.
        rewrite Nat.sub_0_r. reflexivity.
      * lia.
    + pose proof (rest_advance f b r E) as Er.
      destruct (IH (advance f 1) (fputc (Z_of_byte b) out))
        as (f' & -> & Hr & Hc & Ha).
      exists f'. unfold remaining in *. rewrite Er in *. simpl.
      repeat split; try assumption.
      * unfold fputc. rewrite byte_of_Z_of_byte, <- app_assoc. reflexivity.
      * intros Hn _. rewrite Ha by (simpl; lia || reflexivity).
        rewrite advance_advance. f_equal. lia.
Qed.

Lemma writeNAL_app (nal : list Z) (out : list byte) :
  writeNAL nal out = out ++ writeNAL nal [].
Proof.
  revert out. induction nal as [|c nal IH]; intros out; simpl.
  - symmetry. apply app_nil_r.
  - destruct (c =? 255); [symmetry; apply app_nil_r|].
    rewrite IH, (IH (fputc c [])). unfold fputc. simpl.
    rewrite <- app_assoc. reflexivity.
Qed.

Lemma putStartCode_app (out : list byte) : putStartCode out = out ++ startCode.
Proof.
  unfold putStartCode, fputc, startCode. rewrite <- !app_assoc. reflexivity.
Qed.

Lemma skipAnomalous_total (fuel : nat) (n : Z) (f : FILE) :
  (remaining f < fuel)%nat ->
  exists r g, skipAnomalous fuel n f = Some (r, g)
              /\ contents g = contents f
              /\ (remaining g <= remaining f)%nat
              /\ (r <> None -> eof_ind g = false).
Proof.
  revert n f. induction fuel as [|fuel IH]; intros n f Hf; [lia|].
  cbn [skipAnomalous].
  destruct (get1Byte_inv f) as [(c & -> & R & _)|(-> & _)].
  - pose proof (remaining_advance f 1 R ltac:(lia)) as M.
    destruct (negb (Z.lor (u32 (Z.shiftl n 8)) c =? 2)).
    + destruct (IH (Z.lor (u32 (Z.shiftl n 8)) c) (advance f 1))
        as (r & g & -> & C & Hr & He); [lia|].
      exists r, g. repeat split; try assumption. lia.
    + do 2 eexists. repeat split. lia.
  - do 2 eexists. split; [reflexivity|]. repeat split.
    + unfold remaining. rewrite rest_at_eof. simpl. lia.
    + congruence.
Qed.

Lemma restream_total (fuel : nat) (n : Z) (f : FILE) (out : list byte) :
  (remaining f < fuel)%nat -> exists r, restream fuel n f out = Some r.
Proof.
  revert n f out. induction fuel as [|fuel IH]; intros n f out Hf; [lia|].
  cbn [restream]. destruct (feof f); [eexists; reflexivity|].
  destruct (copyNAL_spec (Z.to_nat n) f (putStartCode out))
    as (f1 & -> & Hr & _).
  assert (M1 : (remaining f1 <= remaining f)%nat).
  { unfold remaining. rewrite Hr, length_skipn. lia. }
  destruct (get4Bytes_inv f1) as [(w & -> & R & _)|(p & -> & _)];
    [|eexists; reflexivity].
  pose proof (remaining_advance f1 4 R ltac:(lia)) as M2.
  destruct (anomalous w).
  - destruct (skipAnomalous_total (S fuel) w (advance f1 4))
      as (r & g & -> & _ & M3 & _); [lia|].
    destruct r as [n'|]; [|eexists; reflexivity].
    apply IH. lia.
  - apply IH. lia.
Qed.

Lemma doRepairType2_total (fuel : nat) (formatCode : Z) (f : FILE)
  (out : list byte) (w : Z) :
  (remaining f < fuel)%nat ->
  exists r, doRepairType2 fuel formatCode f out w = Some r.
Proof.
  intros Hf. unfold doRepairType2.
  destruct (selectFormat formatCode) as [sps pps].
  destruct (get1Byte_inv f) as [(c1 & -> & R1 & _)|(-> & _)];
    [|eexists; reflexivity].
  pose proof (remaining_advance f 1 R1 ltac:(lia)).
  destruct (get1Byte_inv (advance f 1)) as [(c2 & -> & R2 & _)|(-> & _)];
    [|eexists; reflexivity].
  pose proof (remaining_advance _ 1 R2 ltac:(lia)).
  apply restream_total. lia.
Qed.

(** The run of [main] always ends. *)
Lemma main_total (input : list byte) (formatCode : Z) :
  exists r, main input formatCode = Some r.
Proof.
  unfold main. destruct (detect_ok input) as (v & -> & Hv).
  destruct v as [err|s g err|w g err]; simpl in Hv.
  - eexists; reflexivity.
  - destruct Hv as ((C & _) & _).
    destruct (doRepairType1_output (enoughFuel input) g [] s) as (f' & ->).
    { pose proof (remaining_le g). rewrite C in *. unfold enoughFuel.
      simpl in *. lia. }
    eexists; reflexivity.
  - destruct Hv as (C & _).
    destruct (doRepairType2_total (enoughFuel input) formatCode g [] w)
      as ([f' o] & ->).
    { pose proof (remaining_le g). rewrite C in *. unfold enoughFuel.
      simpl in *. lia. }
    eexists; reflexivity.
Qed.

(** ** The format table *)

(** The prompt lets only supported entries through: in a run of the whole
    program the default branch of [selectFormat] is not taken. *)
Lemma promptFormat_valid (stdin : list Z) (formatCode : Z) :
  promptFormat stdin = Some formatCode -> validEntry formatCode = true.
Proof.
  induction stdin as [|c stdin IH]; simpl; [discriminate|].
  destruct (validEntry c) eqn:V; [|exact IH].
  intros Q; inversion Q; subst; exact V.
Qed.

(** The [default] of the switch selects the tables of entry 8.  It is
    taken for the values that the prompt does not let through. *)
Lemma selectFormat_default (formatCode : Z) :
  validEntry formatCode = false ->
  selectFormat formatCode = (SPS_1080p30, PPS_P2VP).
Proof.
  intros V. unfold selectFormat.
  repeat match goal with
  | |- context [formatCode =? ?c] =>
      destruct (Z.eqb_spec formatCode c) as [->|_];
      [vm_compute in V; discriminate|]
  end.
  reflexivity.
Qed.

Lemma restream_extends (fuel : nat) (n : Z) (f : FILE) (out : list byte)
  (g : FILE) (o : list byte) :
  restream fuel n f out = Some (g, o) -> exists o', o = out ++ o'.
Proof.
  revert n f out. induction fuel as [|fuel IH]; intros n f out; [discriminate|].
  cbn [restream]. destruct (feof f).
  { intros E; inversion E. exists []. symmetry. apply app_nil_r. }
  destruct (copyNAL_spec (Z.to_nat n) f (putStartCode out))
    as (f1 & -> & _).
  rewrite putStartCode_app, <- app_assoc.
  set (unit := startCode ++ _).
  assert (Hstop : forall h, Some (h, out ++ unit) = Some (g, o) ->
                            exists o', o = out ++ o').
  { intros h E; inversion E. eexists; reflexivity. }
  assert (Hgo : forall n' h, restream fuel n' h (out ++ unit) = Some (g, o) ->
                             exists o', o = out ++ o').
  { intros n' h E. apply IH in E. destruct E as (o' & ->).
    exists (unit ++ o'). symmetry. apply app_assoc. }
  destruct (get4Bytes f1) as [[w|] f2]; [|apply Hstop].
  destruct (anomalous w); [|apply Hgo].
  destruct (skipAnomalous (S fuel) w f2) as [[[n'|] f3]|];
    [apply Hgo|apply Hstop|discriminate].
Qed.

Lemma restream_first_unit (fuel : nat) (n : Z) (f : FILE) (out : list byte)
  (g : FILE) (o : list byte) :
  restream fuel n f out = Some (g, o) -> feof f = false ->
  exists o',
    o = out ++ startCode ++ firstn (Z.to_nat n) (rest f)
        ++ repeat xff (Z.to_nat n - remaining f) ++ o'.
Proof.
  destruct fuel as [|fuel]; [discriminate|].
  intros Hr E. revert Hr. cbn [restream]. rewrite E.
  destruct (copyNAL_spec (Z.to_nat n) f (putStartCode out))
    as (f1 & -> & _).
  rewrite putStartCode_app.
  set (F := firstn _ _). set (R := repeat _ _).
  assert (Hstop : forall h, Some (h, (out ++ startCode) ++ F ++ R)
                            = Some (g, o) ->
            exists o', o = out ++ startCode ++ F ++ R ++ o').
  { intros h Q; inversion Q. exists [].
    rewrite app_nil_r, <- !app_assoc. reflexivity. }
  assert (Hgo : forall n' h,
            restream fuel n' h ((out ++ startCode) ++ F ++ R) = Some (g, o) ->
            exists o', o = out ++ startCode ++ F ++ R ++ o').
  { intros n' h Q. apply restream_extends in Q. destruct Q as (o' & ->).
    exists o'. rewrite <- !app_assoc. reflexivity. }
  destruct (get4Bytes f1) as [[w|] f2]; [|apply Hstop].
  destruct (anomalous w); [|apply Hgo].
  destruct (skipAnomalous (S fuel) w f2) as [[[n'|] f3]|];
    [apply Hgo|apply Hstop|discriminate].
Qed.

Lemma first_nal_size (w c1 c2 : Z) :
  0 <= c1 < 256 -> 0 <= c2 < 256 ->
  u32 (Z.lor (Z.lor (Z.shiftl (Z.land w 0xFFFF) 16) (Z.shiftl c1 8)) c2)
  = Z.lor (Z.shiftl (Z.land w 0xFFFF) 16) (Z.lor (Z.shiftl c1 8) c2).
Proof.
  intros H1 H2. rewrite <- Z.lor_assoc.
  change 0xFFFF with (Z.ones 16). rewrite Z.land_ones by lia.
  pose proof (Z.mod_pos_bound w (2 ^ 16) ltac:(lia)).
  rewrite (lor_shiftl_add c1 c2 8) by lia.
  rewrite lor_shiftl_add by lia.
  unfold u32. apply Z.mod_small. lia.
Qed.

Lemma selectFormat_8 : selectFormat (char "8") = (SPS_1080p30, PPS_P2VP).
Proof. reflexivity. Qed.

Lemma tables_of_entry_8 :
  writeNAL SPS_1080p30 [] = bytes (removelast SPS_1080p30)
  /\ writeNAL PPS_P2VP [] = bytes (removelast PPS_P2VP).
Proof. split; vm_compute; reflexivity. Qed.

(** ** Repair path B: the start of the output *)

(** C2.  Whenever [main] decides on a type 2 repair with the word [w] kept
    from detection and the entry is 8, the repaired file begins with a start
    code, the 1080p/30 SPS table without its final 0xff, a start code, the
    P2VP PPS table without its final 0xff, a start code and the two high
    bytes of [w].  With [c1], [c2] the next two bytes of the input, the first
    unit that follows has length ((w & 0xFFFF) << 16) | (c1 << 8 | c2). *)
Theorem type2_output_for_entry_8
  (input : list byte) (w : Z) (inputFID : FILE) (err : list message) :
  detect (enoughFuel input) (fopen input) = Some (RepairType2 w inputFID err) ->
  (removelast SPS_1080p30 ++ [0xff] = SPS_1080p30
   /\ ~ In 0xff (removelast SPS_1080p30))
  /\ (removelast PPS_P2VP ++ [0xff] = PPS_P2VP
      /\ ~ In 0xff (removelast PPS_P2VP))
  /\ exists out,
      main input (char "8")
      = Some (Exit0 2 (type2_preamble SPS_1080p30 PPS_P2VP w ++ out)
                (say Done err))
      /\ forall c1 c2 r,
          skipn (Z.to_nat (position inputFID)) input = c1 :: c2 :: r ->
          let nalSize :=
            Z.lor (Z.shiftl (Z.land w 0xFFFF) 16)
                  (Z.lor (Z.shiftl (Z_of_byte c1) 8) (Z_of_byte c2)) in
          exists out',
            out = startCode ++ firstn (Z.to_nat nalSize) r
                  ++ repeat xff (Z.to_nat nalSize - length r) ++ out'.
Proof.
  intros D.
  split; [split; [reflexivity|vm_compute; intuition discriminate]|].
  split; [split; [reflexivity|vm_compute; intuition discriminate]|].
  destruct (detect_ok input) as (v & D' & Hv).
  rewrite D in D'. inversion D'; subst v. simpl in Hv.
  destruct Hv as (C & E & P). simpl in C.
  assert (Hf : (remaining inputFID < enoughFuel input)%nat).
  { pose proof (remaining_le inputFID). rewrite C in *.
    unfold enoughFuel. lia. }
  unfold main. rewrite D. unfold doRepairType2. rewrite selectFormat_8.
  rewrite !putStartCode_app, (writeNAL_app SPS_1080p30),
    (writeNAL_app PPS_P2VP).
  destruct tables_of_entry_8 as (-> & ->).
  set (pre := fputc _ (fputc _ _)).
  assert (Hpre : pre = type2_preamble SPS_1080p30 PPS_P2VP w).
  { subst pre. unfold fputc, type2_preamble.
    rewrite !Z.shiftr_div_pow2 by lia.
    rewrite <- !app_assoc. reflexivity. }
  rewrite get1Byte_rest. rewrite (rest_skipn inputFID E P), C.
  destruct (skipn (Z.to_nat (position inputFID)) input) as [|c1 r1] eqn:S1.
  { exists []. rewrite app_nil_r, Hpre. split; [reflexivity|discriminate]. }
  assert (R1 : rest (advance inputFID 1) = r1).
  { apply (rest_advance inputFID c1). rewrite rest_skipn, C by assumption.
    exact S1. }
  rewrite get1Byte_rest, R1.
  destruct r1 as [|c2 r].
  { exists []. rewrite app_nil_r, Hpre. split; [reflexivity|discriminate]. }
  pose proof (rest_advance _ c2 r R1) as R2.
  rewrite first_nal_size by apply Z_of_byte_range.
  set (nalSize := Z.lor _ _). set (g := advance (advance inputFID 1) 1).
  assert (Hg : (remaining g < enoughFuel input)%nat).
  { unfold remaining in *. subst g. rewrite R2.
    rewrite rest_skipn, C, S1 in Hf by assumption. simpl in Hf. lia. }
  destruct (restream_total (enoughFuel input) nalSize g pre Hg)
    as ([h o] & Hr).
  rewrite Hr.
  destruct (restream_first_unit _ _ _ _ _ _ Hr eq_refl) as (o' & ->).
  eexists. split; [rewrite Hpre; reflexivity|].
  intros c1' c2' r' Q. inversion Q; subst c1' c2' r'.
  exists o'. fold nalSize. unfold remaining. subst g. rewrite R2.
  reflexivity.
Qed.

Lemma type2_output_witness :
  exists out,
    main sample_truncated (char "8")
    = Some (Exit0 2 (type2_preamble SPS_1080p30 PPS_P2VP 0x09100000 ++ out)
              (say Done [ResultWillBeH264])).
Proof.
  destruct (type2_output_for_entry_8 sample_truncated 0x09100000
              (mkFILE sample_truncated 8 false) [ResultWillBeH264])
    as (_ & _ & out & Hm & _).
  - vm_compute. reflexivity.
  - exists out. exact Hm.
Defined.

(** ** Repair path B: end of input inside a unit *)

(** C6 (the code departs from it).  The input ends two bytes into a unit of
    declared length 5: the repaired file holds the two bytes read and then
    three bytes 0xff that were never in the input, one for each [fgetc]
    that returned [EOF]; the next read of a length field then ends the
    loop.  The output is not cut at the last byte read. *)
Theorem eof_inside_unit_writes_ff :
  main sample_truncated (char "8")
  = Some (Exit0 2
            (type2_preamble SPS_1080p30 PPS_P2VP 0x09100000
             ++ startCode ++ bytes [0xAA; 0xBB; 0xFF; 0xFF; 0xFF])
            [ResultWillBeH264; Done])
  /\ main sample_truncated (char "8")
     <> Some (Exit0 2
                (type2_preamble SPS_1080p30 PPS_P2VP 0x09100000
                 ++ startCode ++ bytes [0xAA; 0xBB])
                [ResultWillBeH264; Done]).
Proof.
  assert (E : main sample_truncated (char "8")
              = Some (Exit0 2
                        (type2_preamble SPS_1080p30 PPS_P2VP 0x09100000
                         ++ startCode ++ bytes [0xAA; 0xBB; 0xFF; 0xFF; 0xFF])
                        [ResultWillBeH264; Done]))
    by (vm_compute; reflexivity).
  split; [exact E|]. rewrite E. vm_compute. intros Q. discriminate Q.
Qed.

(** ** Repair path B: recovery from an anomalous length *)

Lemma accumulate_cons (acc : Z) (b : byte) (bs : list byte) :
  accumulate acc (b :: bs)
  = accumulate (Z.lor (u32 (Z.shiftl acc 8)) (Z_of_byte b)) bs.
Proof. reflexivity. Qed.

Lemma skipAnomalous_spec (fuel : nat) (n : Z) (f : FILE) :
  (remaining f < fuel)%nat ->
  (exists k,
      (1 <= k <= remaining f)%nat
      /\ accumulate n (firstn k (rest f)) = 2
      /\ (forall j, (1 <= j < k)%nat -> accumulate n (firstn j (rest f)) <> 2)
      /\ skipAnomalous fuel n f = Some (Some 2, advance f (Z.of_nat k)))
  \/ ((forall j, (1 <= j <= remaining f)%nat ->
                 accumulate n (firstn j (rest f)) <> 2)
      /\ exists g, skipAnomalous fuel n f = Some (None, g)).
Proof.
  revert n f. induction fuel as [|fuel IH]; intros n f Hf; [lia|].
  cbn [skipAnomalous]. rewrite get1Byte_rest. unfold remaining in *.
  destruct (rest f) as [|b r] eqn:E.
  { right. split; [simpl; lia|]. eexists; reflexivity. }
  pose proof (rest_advance f b r E) as Er.
  set (acc := Z.lor (u32 (Z.shiftl n 8)) (Z_of_byte b)).
  destruct (Z.eqb_spec acc 2) as [H2|H2]; simpl negb; cbv iota.
  - left. exists 1%nat. simpl. repeat split; try lia.
    + exact H2.
    + fold acc. rewrite H2. reflexivity.
  - destruct (IH acc (advance f 1)) as [(k & Hk & A & Hmin & ->)|(Hnone & g & ->)].
    + rewrite Er. simpl in Hf. lia.
    + left. exists (S k). rewrite Er in *. simpl length.
      split; [lia|]. split; [exact A|]. split.
      * intros [|j] Hj; [lia|]. destruct j as [|j]; [exact H2|].
        rewrite firstn_cons, accumulate_cons. apply Hmin. lia.
      * rewrite advance_advance. do 3 f_equal. lia.
    + right. rewrite Er in *. split; [|eexists; reflexivity].
      intros [|j] Hj; [lia|]. destruct j as [|j]; [exact H2|].
      rewrite firstn_cons, accumulate_cons. apply Hnone. simpl in Hj. lia.
Qed.

Lemma readable_of_remaining (f : FILE) (k : nat) :
  (1 <= k <= remaining f)%nat -> readable f (Z.of_nat k) = true.
Proof.
  unfold remaining, rest. intros H.
  destruct (readable f 0) eqn:R0; [|simpl in H; lia].
  rewrite length_skipn in H. apply readable_true in R0.
  apply readable_true. unfold size in *.
  destruct R0 as (? & ? & ?). repeat split; try assumption. lia.
Qed.

(** C4.  In an iteration of the main loop that reads a length [w] which is
    0 or above 0x00FFFFFF, bytes are read one at a time into the accumulator
    [(acc << 8) | byte], from [w].  If [k] is the first count of bytes after
    which the accumulator is 2, the loop goes on from just after these [k]
    bytes with length 2; if the accumulator is never 2 before the end of the
    input, the routine returns with what it has written.  In both cases it
    ends. *)
Theorem anomalous_length_recovery
  (fuel : nat) (nalSize : Z) (f : FILE) (out : list byte)
  (f1 f2 : FILE) (out1 : list byte) (w : Z) :
  (remaining f < fuel)%nat ->
  feof f = false ->
  copyNAL (Z.to_nat nalSize) f (putStartCode out) = (f1, out1) ->
  get4Bytes f1 = (Some w, f2) ->
  w = 0 \/ 0x00FFFFFF < w ->
  (forall k,
      (1 <= k <= remaining f2)%nat ->
      accumulate w (firstn k (rest f2)) = 2 ->
      (forall j, (1 <= j < k)%nat -> accumulate w (firstn j (rest f2)) <> 2) ->
      restream (S fuel) nalSize f out
      = restream fuel 2 (advance f2 (Z.of_nat k)) out1)
  /\ ((forall j, (1 <= j <= remaining f2)%nat ->
                 accumulate w (firstn j (rest f2)) <> 2) ->
      exists g, restream (S fuel) nalSize f out = Some (g, out1))
  /\ exists r, restream (S fuel) nalSize f out = Some r.
Proof.
  intros Hf E Hc Hg Hw.
  assert (A : anomalous w = true).
  { unfold anomalous. destruct Hw as [->|Hw]; [reflexivity|].
    apply orb_true_iff. right. apply Z.gtb_lt. exact Hw. }
  assert (M : (remaining f2 < S fuel)%nat).
  { destruct (copyNAL_spec (Z.to_nat nalSize) f (putStartCode out))
      as (f1' & Hc' & Hr & _).
    rewrite Hc in Hc'. inversion Hc'; subst f1'.
    destruct (get4Bytes_inv f1) as [(w' & G & R & _)|(p & G & _)];
      rewrite Hg in G; inversion G; subst.
    pose proof (remaining_advance f1 4 R ltac:(lia)).
    unfold remaining in *. rewrite Hr, length_skipn in *. lia. }
  assert (Step : restream (S fuel) nalSize f out
                 = match skipAnomalous (S fuel) w f2 with
                   | None => None
                   | Some (None, g) => Some (g, out1)
                   | Some (Some n, g) => restream fuel n g out1
                   end).
  { cbn [restream]. rewrite E, Hc, Hg, A. reflexivity. }
  rewrite Step.
  destruct (skipAnomalous_spec (S fuel) w f2 M)
    as [(k & Hk & Ak & Hmin & ->)|(Hnone & g & ->)].
  - split; [|split].
    + intros k' Hk' Ak' Hmin'.
      assert (k' = k).
      { destruct (Nat.lt_trichotomy k' k) as [Q|[Q|Q]]; [|exact Q|].
        - exfalso. apply (Hmin k'); [lia|exact Ak'].
        - exfalso. apply (Hmin' k); [lia|exact Ak]. }
      subst k'. reflexivity.
    + intros Hnone. exfalso. apply (Hnone k); [lia|exact Ak].
    + apply restream_total.
      pose proof (readable_of_remaining f2 k Hk) as R.
      pose proof (remaining_advance f2 (Z.of_nat k) R ltac:(lia)). lia.
  - split; [|split].
    + intros k Hk Ak _. exfalso. apply (Hnone k); assumption.
    + intros _. exists g. reflexivity.
    + eexists; reflexivity.
Qed.

Lemma anomalous_length_recovery_witness :
  restream 14 1 (fopen sample_anomalous) []
  = restream 13 2 (advance (mkFILE sample_anomalous 5 false) 5)
      (startCode ++ bytes [0xAA])
  /\ restream 13 2 (advance (mkFILE sample_anomalous 5 false) 5)
       (startCode ++ bytes [0xAA])
     = Some (mkFILE sample_anomalous 12 true,
             startCode ++ bytes [0xAA] ++ startCode ++ bytes [0xBB; 0xCC]).
Proof.
  split.
  - refine (proj1 (anomalous_length_recovery 13 1 (fopen sample_anomalous) []
                     (mkFILE sample_anomalous 1 false)
                     (mkFILE sample_anomalous 5 false)
                     (startCode ++ bytes [0xAA]) 0 _ _ _ _ _) 5%nat _ _ _).
    + vm_compute. lia.
    + reflexivity.
    + vm_compute. reflexivity.
    + vm_compute. reflexivity.
    + left. reflexivity.
    + vm_compute. lia.
    + vm_compute. reflexivity.
    + intros j Hj.
      destruct j as [|[|[|[|[|j]]]]]; try lia; vm_compute; discriminate.
  - vm_compute. reflexivity.
Defined.

(** ** Repair path A: nested 'ftyp', 'moov', 'mdat' sequences *)

Lemma word_at_outside (d : list byte) (k : Z) :
  ~ (0 <= k /\ k + 4 <= Z.of_nat (length d)) -> word_at d k = None.
Proof.
  intros H. destruct (word_at d k) eqn:E; [|reflexivity].
  apply word_at_inside in E. tauto.
Qed.

Lemma checkAtom_header (f : FILE) (tag : Z) :
  good f ->
  exists g, checkAtom f tag = (header_at (contents f) (position f) tag, g)
            /\ contents g = contents f
            /\ (header_at (contents f) (position f) tag <> None ->
                g = advance f 8).
Proof.
  intros (E & P). destruct (readable f 8) eqn:R.
  - destruct (checkAtom_readable f tag R) as (s & t & Hs & Ht & ->).
    unfold header_at. rewrite Hs, Ht. eexists. repeat split.
  - destruct (checkAtom_short f tag R) as (p & -> & _).
    assert (N : header_at (contents f) (position f) tag = None).
    { unfold header_at.
      destruct (word_at (contents f) (position f)) eqn:E1; [|reflexivity].
      destruct (word_at (contents f) (position f + 4)) eqn:E2; [|reflexivity].
      exfalso. apply word_at_inside in E2.
      unfold readable in R. rewrite E in R. simpl in R.
      destruct (Z.leb_spec 0 (position f)); [|lia].
      destruct (Z.leb_spec (position f + 8) (size f)); [discriminate|].
      unfold size in *. lia. }
    rewrite N. eexists. repeat split. congruence.
Qed.

Lemma header_at_nonneg (d : list byte) (p tag n : Z) :
  header_at d p tag = Some n -> 0 <= n < 2 ^ 32 - 8 /\ 0 <= p
                                /\ p + 8 <= Z.of_nat (length d).
Proof.
  unfold header_at.
  destruct (word_at d p) as [s|] eqn:E1; [|discriminate].
  destruct (word_at d (p + 4)) as [t|] eqn:E2; [|discriminate].
  pose proof (word_at_range _ _ _ E1).
  apply word_at_inside in E1. apply word_at_inside in E2.
  destruct (t =? tag); simpl; [|discriminate].
  destruct (Z.leb_spec 8 s); [|discriminate].
  intros Q; inversion Q. lia.
Qed.

Lemma nested_again_further (d : list byte) (p n p' n' : Z) :
  0 <= n -> nested_again d p n = Some (p', n') ->
  p + 24 <= p' <= Z.of_nat (length d) /\ 0 <= n' < 2 ^ 32 - 8.
Proof.
  intros Hn. unfold nested_again.
  destruct (header_at d (p + n) fourcc_moov) as [m|] eqn:E1; [|discriminate].
  destruct (header_at d (p + n + 8 + m) fourcc_mdat) as [x|] eqn:E2;
    [|discriminate].
  destruct (header_at d (p + n + 8 + m + 8) fourcc_ftyp) as [y|] eqn:E3;
    [|discriminate].
  apply header_at_nonneg in E1, E2, E3.
  intros Q; inversion Q; subst. lia.
Qed.

Lemma innermost_further (d : list byte) (p n q m : Z) :
  innermost d p n q m -> 0 <= n ->
  0 <= m /\ (q = p /\ m = n /\ nested_again d p n = None
             \/ p + 24 <= q /\ nested_again d p n <> None).
Proof.
  induction 1 as [p n N|p n p' n' q m N _ IH]; intros Hn.
  - split; [assumption|]. left. repeat split. exact N.
  - destruct (nested_again_further d p n p' n' Hn N) as (Hp & Hn').
    destruct (IH ltac:(lia)) as (Hm & Hq).
    split; [assumption|]. right. split; [lia|congruence].
Qed.

Lemma innermost_unique (d : list byte) (p n q m q' m' : Z) :
  innermost d p n q m -> innermost d p n q' m' -> q = q' /\ m = m'.
Proof.
  intros H. revert q' m'.
  induction H as [p n N|p n p' n' q m N _ IH]; intros q' m' H'.
  - inversion H'; subst; [split; reflexivity|congruence].
  - inversion H'; subst; [congruence|].
    match goal with Q : nested_again d p n = Some _ |- _ =>
      rewrite N in Q; inversion Q; subst end.
    apply IH. assumption.
Qed.

Lemma nestedFtyp_innermost (fuel : nat) (n : Z) (f : FILE)
  (err : list message) :
  0 <= n -> 0 <= position f ->
  (Z.to_nat (size f - position f) < fuel)%nat ->
  exists q m g err',
    nestedFtyp fuel n f err = Some (q, m, g, err')
    /\ innermost (contents f) (position f) n q m
    /\ contents g = contents f.
Proof.
  revert n f err. induction fuel as [|fuel IH]; intros n f err Hn P Hf; [lia|].
  cbn [nestedFtyp]. rewrite fseek_forward by lia. unfold ftell.
  assert (Stop : forall g : FILE,
            nested_again (contents f) (position f) n = None ->
            contents g = contents f ->
            exists q m g' err',
              Some (position f, n, g, err) = Some (q, m, g', err')
              /\ innermost (contents f) (position f) n q m
              /\ contents g' = contents f).
  { intros g N C. do 4 eexists. split; [reflexivity|].
    split; [apply innermost_here; exact N|exact C]. }
  destruct (checkAtom_header (advance f n) fourcc_moov)
    as (g1 & -> & C1 & A1); [split; simpl; [reflexivity|lia]|].
  simpl contents in *. simpl position in *.
  destruct (header_at (contents f) (position f + n) fourcc_moov)
    as [mv|] eqn:H1;
    [|apply Stop; [unfold nested_again; rewrite H1; reflexivity|exact C1]].
  rewrite A1 by discriminate.
  pose proof (header_at_nonneg _ _ _ _ H1) as (Hmv & _).
  rewrite fseek_forward by (simpl; lia).
  destruct (checkAtom_header (advance (advance (advance f n) 8) mv)
              fourcc_mdat)
    as (g2 & -> & C2 & A2); [split; simpl; [reflexivity|lia]|].
  simpl contents in *. simpl position in *.
  destruct (header_at (contents f) (position f + n + 8 + mv) fourcc_mdat)
    as [md|] eqn:H2;
    [|apply Stop; [unfold nested_again; rewrite H1, H2; reflexivity|exact C2]].
  rewrite A2 by discriminate.
  destruct (checkAtom_header
              (advance (advance (advance (advance f n) 8) mv) 8) fourcc_ftyp)
    as (g3 & -> & C3 & A3); [split; simpl; [reflexivity|lia]|].
  simpl contents in *. simpl position in *.
  destruct (header_at (contents f) (position f + n + 8 + mv + 8) fourcc_ftyp)
    as [n'|] eqn:H3;
    [|apply Stop; [unfold nested_again; rewrite H1, H2, H3; reflexivity
                  |exact C3]].
  rewrite A3 by discriminate.
  pose proof (header_at_nonneg _ _ _ _ H3) as (Hn' & _ & Hin).
  match goal with |- context [nestedFtyp fuel n' ?g ?e] =>
    destruct (IH n' g e) as (q & m & h & err' & -> & I & C) end;
    [lia|simpl; lia|unfold size in *; simpl; lia|].
  simpl in I, C. do 4 eexists. split; [reflexivity|]. split; [|exact C].
  eapply innermost_deeper; [|exact I].
  unfold nested_again. rewrite H1, H2, H3. do 2 f_equal. lia.
Qed.

Lemma checkMdat_innermost
  (fuel : nat) (f : FILE) (err : list message) (n : Z) :
  good f ->
  (length (contents f) < fuel)%nat ->
  header_at (contents f) (position f) fourcc_mdat <> None ->
  header_at (contents f) (position f + 8) fourcc_ftyp = Some n ->
  exists q m err',
    innermost (contents f) (position f + 16) n q m
    /\ checkMdat fuel f err
       = Some (RepairType1 (m + 8) (mkFILE (contents f) q false) err')
    /\ (q = position f + 16 <->
        nested_again (contents f) (position f + 16) n = None).
Proof.
  intros G Hf Hmdat Hftyp. pose proof G as (E & P).
  unfold checkMdat.
  destruct (checkAtom_header f fourcc_mdat G) as (g1 & -> & _ & A1).
  destruct (header_at (contents f) (position f) fourcc_mdat) as [x|];
    [|congruence].
  rewrite A1 by discriminate.
  destruct (checkAtom_header (advance f 8) fourcc_ftyp)
    as (g2 & -> & _ & A2); [split; simpl; [reflexivity|lia]|].
  simpl contents in *. simpl position in *. rewrite Hftyp in *.
  rewrite A2 by discriminate.
  pose proof (header_at_nonneg _ _ _ _ Hftyp) as (Hn & _ & Hin).
  destruct (nestedFtyp_innermost fuel n (advance (advance f 8) 8)
              (say SawMdat err))
    as (q & m & g & err' & -> & I & C);
    [lia|simpl; lia|unfold size; simpl; lia|].
  simpl in I, C. replace (position f + 8 + 8) with (position f + 16) in I by lia.
  destruct (innermost_further _ _ _ _ _ I ltac:(lia)) as (Hm & Hq).
  exists q, m, (say SawFtypWithinMdat err'). split; [exact I|]. split.
  - unfold fseek. destruct (Z.ltb_spec q 0); [lia|].
    rewrite C. do 3 f_equal. unfold u32. apply Z.mod_small.
    assert (Hm' : 0 <= m < 2 ^ 32 - 8); [|lia].
    clear - I Hn. induction I as [p n N|p n p' n' q m N _ IH]; [lia|].
    apply IH. eapply nested_again_further; [|exact N]. lia.
  - split.
    + intros Q. destruct Hq as [(_ & _ & N)|(Hq & _)]; [exact N|lia].
    + intros N. destruct Hq as [(Q & _)|(_ & N')]; [exact Q|congruence].
Qed.

(** C5 (as the code has it).  When 'mdat' begins with a 'ftyp' header that
    announces [n] more bytes, [main] follows the repetitions of 'moov',
    'mdat', 'ftyp' as long as there is one, and decides on a type 1 repair
    whose 'ftyp' size is that of the last 'ftyp' header so matched, with the
    stream put back just past that same last header.  This is the position
    just past the first nested header only when no repetition is there. *)
Theorem nested_ftyp_restores_innermost
  (fuel : nat) (f : FILE) (err : list message) (n : Z) :
  good f ->
  (length (contents f) < fuel)%nat ->
  header_at (contents f) (position f) fourcc_mdat <> None ->
  header_at (contents f) (position f + 8) fourcc_ftyp = Some n ->
  exists q m err',
    innermost (contents f) (position f + 16) n q m
    /\ checkMdat fuel f err
       = Some (RepairType1 (m + 8) (mkFILE (contents f) q false) err')
    /\ (q = position f + 16 <->
        nested_again (contents f) (position f + 16) n = None).
Proof. apply checkMdat_innermost. Qed.

Lemma nested_ftyp_witness :
  exists q m err',
    innermost sample_nested 24 0 q m
    /\ checkMdat 100 (mkFILE sample_nested 8 false) []
       = Some (RepairType1 (m + 8) (mkFILE sample_nested q false) err').
Proof.
  destruct (nested_ftyp_restores_innermost 100
              (mkFILE sample_nested 8 false) [] 0)
    as (q & m & err' & I & Q & _).
  - split; [reflexivity|simpl; lia].
  - vm_compute. lia.
  - vm_compute. discriminate.
  - vm_compute. reflexivity.
  - exists q, m, err'. split; [exact I|exact Q].
Defined.

(** C5, counterexample.  In [sample_nested] the first nested 'ftyp' header
    is matched at offset 16, which leaves the stream at 24; one repetition
    follows.  [main] decides on a type 1 repair with the stream at 48, just
    past the second nested header, not at 24. *)
Lemma nested_ftyp_counterexample :
  checkAtom (mkFILE sample_nested 16 false) fourcc_ftyp
  = (Some 0, mkFILE sample_nested 24 false)
  /\ detect (enoughFuel sample_nested) (fopen sample_nested)
     = Some (RepairType1 12 (mkFILE sample_nested 48 false)
               [SawInitialFtyp; DidntSeeMoov; SawMdat; SawNestedFtyp;
                SawFtypWithinMdat])
  /\ position (mkFILE sample_nested 48 false) <> 24
  /\ main sample_nested (char "8")
     = Some (Exit0 1 (be32 12 ++ tag_ftyp ++ bytes [1; 2; 3; 4])
               [SawInitialFtyp; DidntSeeMoov; SawMdat; SawNestedFtyp;
                SawFtypWithinMdat; Done]).
Proof.
  repeat split; try (vm_compute; reflexivity).
  simpl. lia.
Qed.

(** ** The check of the start of the file *)

Lemma land_low_byte_clear (y : Z) :
  0 <= y < 2 ^ 24 -> Z.land (Z.shiftl y 8) 0xFFFFFF00 = Z.shiftl y 8.
Proof.
  intros H. change 0xFFFFFF00 with (Z.shiftl (Z.ones 24) 8).
  rewrite <- Z.shiftl_land, Z.land_ones by lia.
  rewrite Z.mod_small by assumption. reflexivity.
Qed.

Lemma shift_in_byte (x0 x1 x2 x3 c : Z) :
  0 <= x0 < 256 -> 0 <= x1 < 256 -> 0 <= x2 < 256 -> 0 <= x3 < 256 ->
  0 <= c < 256 ->
  Z.lor (Z.land (u32 (Z.shiftl (word x0 x1 x2 x3) 8)) 0xFFFFFF00) c
  = word x1 x2 x3 c.
Proof.
  intros H0 H1 H2 H3 Hc.
  assert (E : u32 (Z.shiftl (word x0 x1 x2 x3) 8)
              = Z.shiftl (x1 * 2 ^ 16 + x2 * 2 ^ 8 + x3) 8).
  { rewrite !Z.shiftl_mul_pow2 by lia. unfold u32, word.
    change (2 ^ 24) with 16777216. change (2 ^ 16) with 65536.
    change (2 ^ 8) with 256. change (2 ^ 32) with 4294967296.
    Z.div_mod_to_equations. lia. }
  rewrite E, land_low_byte_clear by lia.
  rewrite lor_shiftl_add by lia. unfold word. lia.
Qed.

Lemma top_byte (x0 x1 x2 x3 : Z) :
  0 <= x0 < 256 -> 0 <= x1 < 256 -> 0 <= x2 < 256 -> 0 <= x3 < 256 ->
  Z.land (Z.shiftr (word x0 x1 x2 x3) 24) 0x000000FF = x0.
Proof.
  intros H0 H1 H2 H3. change 0x000000FF with (Z.ones 8).
  rewrite Z.land_ones, Z.shiftr_div_pow2 by lia. unfold word.
  change (2 ^ 24) with 16777216. change (2 ^ 16) with 65536.
  change (2 ^ 8) with 256.
  Z.div_mod_to_equations. lia.
Qed.

Lemma word_at_bytes (d : list byte) (k w : Z) :
  word_at d k = Some w ->
  exists x0 x1 x2 x3,
    byte_at d k = Some x0 /\ byte_at d (k + 1) = Some x1
    /\ byte_at d (k + 2) = Some x2 /\ byte_at d (k + 3) = Some x3
    /\ w = word x0 x1 x2 x3.
Proof.
  unfold word_at.
  destruct (byte_at d k) as [x0|]; [|discriminate].
  destruct (byte_at d (k + 1)) as [x1|]; [|discriminate].
  destruct (byte_at d (k + 2)) as [x2|]; [|discriminate].
  destruct (byte_at d (k + 3)) as [x3|]; [|discriminate].
  intros Q; inversion Q. exists x0, x1, x2, x3. repeat split.
Qed.

Lemma shift_window (d : list byte) (j a b c : Z) :
  word_at d j = Some a -> word_at d (j + 4) = Some b ->
  byte_at d (j + 8) = Some c ->
  word_at d (j + 1)
  = Some (Z.lor (Z.land (u32 (Z.shiftl a 8)) 0xFFFFFF00)
                (Z.land (Z.shiftr b 24) 0x000000FF))
  /\ word_at d (j + 1 + 4)
     = Some (Z.lor (Z.land (u32 (Z.shiftl b 8)) 0xFFFFFF00) c).
Proof.
  intros Ha Hb Hc.
  destruct (word_at_bytes _ _ _ Ha) as (a0 & a1 & a2 & a3 & A0 & A1 & A2 & A3 & ->).
  destruct (word_at_bytes _ _ _ Hb) as (b0 & b1 & b2 & b3 & B0 & B1 & B2 & B3 & ->).
  pose proof (byte_at_range _ _ _ A0). pose proof (byte_at_range _ _ _ A1).
  pose proof (byte_at_range _ _ _ A2). pose proof (byte_at_range _ _ _ A3).
  pose proof (byte_at_range _ _ _ B0). pose proof (byte_at_range _ _ _ B1).
  pose proof (byte_at_range _ _ _ B2). pose proof (byte_at_range _ _ _ B3).
  pose proof (byte_at_range _ _ _ Hc).
  rewrite top_byte, !shift_in_byte by assumption.
  unfold word_at.
  replace (j + 1 + 1) with (j + 2) by lia.
  replace (j + 1 + 2) with (j + 3) by lia.
  replace (j + 1 + 3) with (j + 4) by lia.
  replace (j + 1 + 4) with (j + 4 + 1) by lia.
  replace (j + 4 + 1 + 1) with (j + 4 + 2) by lia.
  replace (j + 4 + 1 + 2) with (j + 4 + 3) by lia.
  replace (j + 4 + 1 + 3) with (j + 8) by lia.
  rewrite A1, A2, A3, B0, B1, B2, B3, Hc. split; reflexivity.
Qed.

Lemma scan_path_le (d : list byte) (j k : Z) : scan_path d j k -> j <= k.
Proof. induction 1; lia. Qed.

Lemma scan_path_window (d : list byte) (j k b' : Z) :
  scan_path d j k -> word_at d (k + 4) = Some b' ->
  exists b, word_at d (j + 4) = Some b.
Proof. intros P Q; destruct P; eauto. Qed.

Lemma get4Bytes_at (d : list byte) (p w : Z) :
  word_at d p = Some w ->
  get4Bytes (mkFILE d p false) = (Some w, mkFILE d (p + 4) false).
Proof.
  intros H. pose proof (word_at_inside _ _ _ H) as (H0 & H4).
  destruct (get4Bytes_readable (mkFILE d p false)) as (G & _).
  - apply readable_true. unfold size. simpl. repeat split; lia.
  - rewrite G. simpl. rewrite H. reflexivity.
Qed.

Lemma get1Byte_at (d : list byte) (p c : Z) :
  0 <= p -> byte_at d p = Some c ->
  get1Byte (mkFILE d p false) = (Some c, mkFILE d (p + 1) false).
Proof.
  intros P H. rewrite get1Byte_eq.
  assert (R : readable (mkFILE d p false) 1 = true).
  { apply readable_true. unfold size. simpl. repeat split; try lia.
    unfold byte_at in H.
    destruct (Z.leb_spec 0 p); [|discriminate].
    destruct (Z.ltb_spec p (Z.of_nat (length d))); [lia|discriminate]. }
  rewrite R. simpl. rewrite H. reflexivity.
Qed.

Lemma remaining_at (d : list byte) (p : Z) :
  0 <= p <= Z.of_nat (length d) ->
  Z.of_nat (remaining (mkFILE d p false)) = Z.of_nat (length d) - p.
Proof.
  intros H. rewrite remaining_readable; [reflexivity|].
  apply readable_true. unfold size. simpl. repeat split; lia.
Qed.

(** Along a scan path [checkStart] carries its window from [j] to [k]. *)
Lemma checkStart_path (d : list byte) (j k : Z) :
  scan_path d j k ->
  forall (fuel : nat) (a b a' b' : Z) (s : bool) (err : list message),
    word_at d j = Some a -> word_at d (j + 4) = Some b ->
    word_at d k = Some a' -> word_at d (k + 4) = Some b' ->
    (Z.to_nat (Z.of_nat (length d) - (j + 8)) < fuel)%nat ->
    exists fuel',
      checkStart fuel a b s (mkFILE d (j + 8) false) err
      = checkStart fuel' a' b' (s && (j =? k)) (mkFILE d (k + 8) false)
          (if j =? k then err
           else if s
                then say (if is_filler a then SkippingInitialJunk a
                          else LookingForSaneData) err
                else err)
      /\ (Z.to_nat (Z.of_nat (length d) - (k + 8)) < fuel')%nat.
Proof.
  induction 1 as [k|j k a0 b0 Ha0 Hb0 Nb Fa P IH
                   |j k a0 b0 Ha0 Hb0 Nb N2 Fa P IH];
    intros fuel a b a' b' s err Ha Hb Ha' Hb' Hf.
  - exists fuel. rewrite Z.eqb_refl, andb_true_r.
    rewrite Ha in Ha'. rewrite Hb in Hb'. inversion Ha'; inversion Hb'; subst.
    split; [reflexivity|assumption].
  - rewrite Ha in Ha0. rewrite Hb in Hb0. inversion Ha0; inversion Hb0; subst.
    destruct (scan_path_window _ _ _ _ P Hb') as (w & Hw).
    replace (j + 4 + 4) with (j + 8) in Hw by lia.
    pose proof (word_at_inside _ _ _ Hw) as (_ & Hin).
    pose proof (scan_path_le _ _ _ P) as Hle.
    destruct fuel as [|fuel]; [lia|]. cbn [checkStart].
    destruct (Z.eqb_spec b0 fourcc_ftyp); [contradiction|].
    assert (N2 : (a0 =? 2) = false).
    { unfold is_filler in Fa. apply orb_true_iff in Fa.
      destruct Fa as [Q|Q]; apply Z.eqb_eq in Q; subst; reflexivity. }
    rewrite N2. pose proof Fa as Fa'. unfold is_filler in Fa'. rewrite Fa'.
    rewrite (get4Bytes_at d (j + 8) w Hw).
    replace (j + 8 + 4) with (j + 4 + 8) by lia.
    destruct (IH fuel b0 w a' b' false
                (if s then say (SkippingInitialJunk a0) err else err))
      as (fuel' & -> & Hf'); try assumption.
    + replace (j + 4 + 4) with (j + 8) by lia. exact Hw.
    + lia.
    + exists fuel'. split; [|exact Hf'].
      destruct (Z.eqb_spec j k); [lia|]. rewrite andb_false_r, Fa. simpl andb.
      destruct (j + 4 =? k); reflexivity.
  - rewrite Ha in Ha0. rewrite Hb in Hb0. inversion Ha0; inversion Hb0; subst.
    destruct (scan_path_window _ _ _ _ P Hb') as (w & Hw).
    pose proof (word_at_inside _ _ _ Ha) as (Hj & _).
    destruct (word_at_bytes _ _ _ Hw) as (x0 & x1 & x2 & c & _ & _ & _ & Hc & _).
    replace (j + 1 + 4 + 3) with (j + 8) in Hc by lia.
    pose proof (word_at_inside _ _ _ Hw) as (_ & Hin).
    pose proof (scan_path_le _ _ _ P) as Hle.
    destruct (shift_window d j a0 b0 c Ha Hb Hc) as (Ha1 & Hb1).
    destruct fuel as [|fuel]; [lia|]. cbn [checkStart].
    destruct (Z.eqb_spec b0 fourcc_ftyp); [contradiction|].
    destruct (Z.eqb_spec a0 2); [contradiction|].
    pose proof Fa as Fa'. unfold is_filler in Fa'. rewrite Fa'.
    rewrite (get1Byte_at d (j + 8) c ltac:(lia) Hc).
    replace (j + 8 + 1) with (j + 1 + 8) by lia.
    match goal with |- context [checkStart fuel ?x ?y false _ ?e] =>
      destruct (IH fuel x y a' b' false e) as (fuel' & -> & Hf') end;
      try assumption.
    + lia.
    + exists fuel'. split; [|exact Hf'].
      destruct (Z.eqb_spec j k); [lia|]. rewrite andb_false_r, Fa. simpl andb.
      destruct (j + 1 =? k); reflexivity.
Qed.

Lemma scan_path_first (d : list byte) (j k a' : Z) :
  scan_path d j k -> word_at d k = Some a' ->
  exists a, word_at d j = Some a.
Proof. intros P Q; destruct P; eauto. Qed.

Lemma startOfFile_path (input : list byte) (k a a' b' : Z) :
  scan_path input 0 k ->
  word_at input 0 = Some a ->
  word_at input k = Some a' -> word_at input (k + 4) = Some b' ->
  exists fuel',
    startOfFile (enoughFuel input) (fopen input)
    = checkStart (S fuel') a' b' (k =? 0) (mkFILE input (k + 8) false)
        (if k =? 0 then []
         else [if is_filler a then SkippingInitialJunk a
               else LookingForSaneData]).
Proof.
  intros P Ha Ha' Hb'.
  destruct (scan_path_window _ _ _ _ P Hb') as (b & Hb). simpl in Hb.
  unfold startOfFile, fopen.
  rewrite (get4Bytes_at input 0 a Ha). cbv beta iota.
  change (0 + 4) with 4. rewrite (get4Bytes_at input 4 b Hb). cbv beta iota.
  change (4 + 4) with (0 + 8).
  destruct (checkStart_path input 0 k P (enoughFuel input) a b a' b' true [])
    as (fuel' & E & Hf); try assumption.
  { unfold enoughFuel. lia. }
  rewrite E. destruct fuel' as [|fuel']; [lia|]. cbn [andb].
  exists fuel'. destruct (0 =? k) eqn:Q; rewrite Z.eqb_sym, Q; reflexivity.
Qed.

Lemma checkStart_marker (fuel : nat) (b : Z) (s : bool) (f : FILE)
  (err : list message) :
  b <> fourcc_ftyp ->
  checkStart (S fuel) 2 b s f err
  = Some (StartType2 b f
            (if negb s then say (Found2At (ftell f - 8)) err else err)).
Proof.
  intros N. cbn [checkStart].
  destruct (Z.eqb_spec b fourcc_ftyp); [contradiction|]. reflexivity.
Qed.

Lemma checkStart_ftyp (fuel : nat) (a : Z) (s : bool) (d : list byte) (p : Z)
  (err : list message) :
  8 <= a < 2 ^ 32 -> 0 <= p ->
  exists err',
    checkStart (S fuel) a fourcc_ftyp s (mkFILE d p false) err
    = Some (StartType1 (mkFILE d (p + a - 8) false) err').
Proof.
  intros Ha P. cbn [checkStart]. rewrite Z.eqb_refl.
  destruct (Z.ltb_spec a 8); [lia|].
  unfold u32. rewrite Z.mod_small by lia.
  unfold fseek. simpl.
  destruct (Z.ltb_spec (p + (a - 8)) 0); [lia|].
  eexists. do 3 f_equal. lia.
Qed.

Lemma garbage_path (d : list byte) (k : Z) (n : nat) (j : Z) :
  (forall i, j <= i < k ->
     exists a b, word_at d i = Some a /\ word_at d (i + 4) = Some b
                 /\ b <> fourcc_ftyp /\ a <> 2 /\ is_filler a = false) ->
  k - j = Z.of_nat n -> scan_path d j k.
Proof.
  revert j. induction n as [|n IH]; intros j H E.
  - replace j with k by lia. apply path_here.
  - destruct (H j ltac:(lia)) as (a & b & Ha & Hb & Nb & N2 & Fa).
    eapply path_garbage; try eassumption.
    apply IH; [|lia]. intros i Hi. apply H. lia.
Qed.

Lemma zero_path (d : list byte) (n : Z) (s : Z) (m : nat) (i : Z) :
  (forall x, 0 <= x < n -> word_at d (4 * x) = Some 0) ->
  word_at d (4 * n) = Some s -> s <> fourcc_ftyp ->
  0 <= i -> n - i = Z.of_nat m -> scan_path d (4 * i) (4 * n).
Proof.
  intros Hz Hs Ns. revert i. induction m as [|m IH]; intros i Hi E.
  - replace i with n by lia. apply path_here.
  - assert (Hnext : exists b, word_at d (4 * i + 4) = Some b
                              /\ b <> fourcc_ftyp).
    { destruct (Z.eq_dec (i + 1) n) as [Q|Q].
      - exists s. replace (4 * i + 4) with (4 * n) by lia. split; assumption.
      - exists 0. replace (4 * i + 4) with (4 * (i + 1)) by lia.
        split; [apply Hz; lia|discriminate]. }
    destruct Hnext as (b & Hb & Nb).
    eapply (path_filler d (4 * i) (4 * n) 0 b);
      [apply Hz; lia|exact Hb|exact Nb|reflexivity|].
    replace (4 * i + 4) with (4 * (i + 1)) by lia. apply IH; lia.
Qed.

(** C3 (as the code has it).  (1) When every window before offset [k] is
    garbage (its first word is not 0, 0xFFFFFFFF or 2 and its second word
    is not 'ftyp'), the check of the start of the file moves on one byte at
    a time and stops with its window at [k], whatever [k] modulo 4: on
    0x00000002 at [k] it decides for type 2, the stream just past the
    window, and the offset it reports is [k]; on a size of at least 8
    followed by 'ftyp' at [k] it decides for type 1, the stream at the end
    of that atom.  (2) When the input starts with [n] zero words and then a
    size word of at least 8, other than the value of 'ftyp' itself, followed
    by 'ftyp', the zero words are skipped and the atom is found at offset
    [4 * n].  (3) In general the window moves four bytes on when its first
    word is 0 or 0xFFFFFFFF and one byte on when it is any other word but
    0x00000002, as long as its second word is not 'ftyp' ([scan_path]);
    when such steps, in any mix, bring it to offset [k], it stops there
    with the outcomes of (1), and on a word below 8 followed by 'ftyp' the
    run is given up. *)
Theorem classifier_reaches_signature (input : list byte) :
  (forall k, 0 <= k ->
     (forall j, 0 <= j < k ->
        exists a b, word_at input j = Some a /\ word_at input (j + 4) = Some b
                    /\ b <> fourcc_ftyp /\ a <> 2 /\ is_filler a = false) ->
     (forall b, word_at input k = Some 2 -> word_at input (k + 4) = Some b ->
                b <> fourcc_ftyp ->
        startOfFile (enoughFuel input) (fopen input)
        = Some (StartType2 b (mkFILE input (k + 8) false)
                  (if k =? 0 then []
                   else [LookingForSaneData; Found2At k])))
     /\ (forall s, word_at input k = Some s -> 8 <= s ->
                   word_at input (k + 4) = Some fourcc_ftyp ->
           exists err,
             startOfFile (enoughFuel input) (fopen input)
             = Some (StartType1 (mkFILE input (k + s) false) err)))
  /\ (forall n s, 0 <= n ->
        (forall x, 0 <= x < n -> word_at input (4 * x) = Some 0) ->
        word_at input (4 * n) = Some s -> 8 <= s -> s <> fourcc_ftyp ->
        word_at input (4 * n + 4) = Some fourcc_ftyp ->
        exists err,
          startOfFile (enoughFuel input) (fopen input)
          = Some (StartType1 (mkFILE input (4 * n + s) false) err))
  /\ (forall k a0, scan_path input 0 k -> word_at input 0 = Some a0 ->
        (forall b, word_at input k = Some 2 ->
                   word_at input (k + 4) = Some b -> b <> fourcc_ftyp ->
           startOfFile (enoughFuel input) (fopen input)
           = Some (StartType2 b (mkFILE input (k + 8) false)
                     (if k =? 0 then []
                      else [if is_filler a0 then SkippingInitialJunk a0
                            else LookingForSaneData; Found2At k])))
        /\ (forall s, word_at input k = Some s -> 8 <= s ->
                      word_at input (k + 4) = Some fourcc_ftyp ->
              exists err,
                startOfFile (enoughFuel input) (fopen input)
                = Some (StartType1 (mkFILE input (k + s) false) err))
        /\ (forall s, word_at input k = Some s -> s < 8 ->
                      word_at input (k + 4) = Some fourcc_ftyp ->
              startOfFile (enoughFuel input) (fopen input)
              = Some (StartBad
                        ((if k =? 0 then []
                          else [if is_filler a0 then SkippingInitialJunk a0
                                else LookingForSaneData])
                         ++ [BadInitialFtypLength])))).
Proof.
  assert (T1 : forall k a s, scan_path input 0 k ->
            word_at input 0 = Some a -> word_at input k = Some s -> 8 <= s ->
            word_at input (k + 4) = Some fourcc_ftyp ->
            exists err,
              startOfFile (enoughFuel input) (fopen input)
              = Some (StartType1 (mkFILE input (k + s) false) err)).
  { intros k a s P Ha Hs H8 Ht.
    destruct (startOfFile_path input k a s _ P Ha Hs Ht) as (fuel' & ->).
    pose proof (word_at_range _ _ _ Hs).
    pose proof (scan_path_le _ _ _ P).
    match goal with |- context [checkStart _ _ _ ?s' _ ?e] =>
      destruct (checkStart_ftyp fuel' s s' input (k + 8) e)
        as (err' & ->); [lia|lia|] end.
    exists err'. do 3 f_equal. lia. }
  assert (T2 : forall k a b, scan_path input 0 k ->
            word_at input 0 = Some a -> word_at input k = Some 2 ->
            word_at input (k + 4) = Some b -> b <> fourcc_ftyp ->
            startOfFile (enoughFuel input) (fopen input)
            = Some (StartType2 b (mkFILE input (k + 8) false)
                      (if k =? 0 then []
                       else [if is_filler a then SkippingInitialJunk a
                             else LookingForSaneData; Found2At k]))).
  { intros k a b P Ha H2 Hb Nb.
    destruct (startOfFile_path input k a 2 b P Ha H2 Hb) as (fuel' & ->).
    rewrite checkStart_marker by assumption.
    destruct (Z.eqb_spec k 0) as [->|Nk]; [reflexivity|].
    unfold ftell, say. cbn [negb position app].
    replace (k + 8 - 8) with k by lia. reflexivity. }
  split; [|split].
  - intros k Hk Hg.
    assert (P : scan_path input 0 k)
      by (apply (garbage_path input k (Z.to_nat k) 0); [exact Hg|lia]).
    split.
    + intros b H2 Hb Nb.
      destruct (scan_path_first _ _ _ _ P H2) as (a & Ha).
      rewrite (T2 k a b P Ha H2 Hb Nb).
      destruct (Z.eqb_spec k 0) as [->|Nk]; [reflexivity|].
      destruct (Hg 0 ltac:(lia)) as (a0 & b0 & Ha0 & _ & _ & _ & Fa).
      rewrite Ha in Ha0. inversion Ha0; subst a0. rewrite Fa. reflexivity.
    + intros s Hs H8 Ht.
      destruct (scan_path_first _ _ _ _ P Hs) as (a & Ha).
      exact (T1 k a s P Ha Hs H8 Ht).
  - intros n s Hn Hz Hs H8 Ns Ht.
    assert (P : scan_path input 0 (4 * n))
      by (apply (zero_path input n s (Z.to_nat n) 0); (assumption || lia)).
    destruct (scan_path_first _ _ _ _ P Hs) as (a & Ha).
    exact (T1 (4 * n) a s P Ha Hs H8 Ht).
  - intros k a0 P Ha. split; [|split].
    + intros b H2 Hb Nb. exact (T2 k a0 b P Ha H2 Hb Nb).
    + intros s Hs H8 Ht. exact (T1 k a0 s P Ha Hs H8 Ht).
    + intros s Hs H8 Ht.
      destruct (startOfFile_path input k a0 s _ P Ha Hs Ht) as (fuel' & ->).
      cbn [checkStart]. rewrite Z.eqb_refl.
      destruct (Z.ltb_spec s 8); [|lia].
      destruct (k =? 0); reflexivity.
Qed.

Lemma classifier_reaches_signature_witness :
  startOfFile (enoughFuel sample_garbage_marker) (fopen sample_garbage_marker)
  = Some (StartType2 0x09100003 (mkFILE sample_garbage_marker 13 false)
            [LookingForSaneData; Found2At 5]).
Proof.
  refine (proj1 (proj1 (classifier_reaches_signature sample_garbage_marker)
                   5 _ _) 0x09100003 _ _ _).
  - lia.
  - intros j Hj.
    assert (Q : j = 0 \/ j = 1 \/ j = 2 \/ j = 3 \/ j = 4) by lia.
    destruct Q as [->|[->|[->|[->| ->]]]];
      do 2 eexists; (split; [vm_compute; reflexivity|]);
      (split; [vm_compute; reflexivity|]);
      repeat split; vm_compute; discriminate.
  - vm_compute. reflexivity.
  - vm_compute. reflexivity.
  - vm_compute. discriminate.
Defined.

(** C3, counterexamples.  Forty zero bytes with 'ftyp' right after them:
    the word before the tag is 0, below 8, and the run is given up.  Zero
    bytes with 0x00000002 at offset 5, the first signature of the input:
    the zero words move the window from 0 to 4 to 8, the window is never at
    5, and the run is given up at the end of the input.  One byte of
    garbage before a 'ftyp' atom of size 16 at offset 1: the offset printed
    is 9. *)
Lemma classifier_counterexample :
  startOfFile (enoughFuel sample_zeros_then_tag) (fopen sample_zeros_then_tag)
  = Some (StartBad [SkippingInitialJunk 0; BadInitialFtypLength])
  /\ (word_at sample_marker_at_5 5 = Some 2
      /\ word_at sample_marker_at_5 9 = Some 0x09100003
      /\ (forall j, 0 <= j < 5 ->
            word_at sample_marker_at_5 j = Some 0
            /\ word_at sample_marker_at_5 (j + 4) <> Some fourcc_ftyp)
      /\ startOfFile (enoughFuel sample_marker_at_5) (fopen sample_marker_at_5)
         = Some (StartBad [SkippingInitialJunk 0; UnableToFindSaneData]))
  /\ (word_at sample_ftyp_at_1 1 = Some 16
      /\ word_at sample_ftyp_at_1 5 = Some fourcc_ftyp
      /\ startOfFile (enoughFuel sample_ftyp_at_1) (fopen sample_ftyp_at_1)
         = Some (StartType1 (mkFILE sample_ftyp_at_1 17 false)
                   [LookingForSaneData; FoundFtypAt 9])).
Proof.
  split; [vm_compute; reflexivity|]. split.
  - split; [vm_compute; reflexivity|]. split; [vm_compute; reflexivity|].
    split; [|vm_compute; reflexivity].
    intros j Hj.
    assert (Q : j = 0 \/ j = 1 \/ j = 2 \/ j = 3 \/ j = 4) by lia.
    destruct Q as [->|[->|[->|[->| ->]]]];
      (split; [vm_compute; reflexivity|vm_compute; discriminate]).
  - repeat split; vm_compute; reflexivity.
Qed.

(** ** Zero filler before a 'ftyp' atom *)

Lemma checkAtom_at (d : list byte) (p tag : Z) :
  0 <= p -> p + 8 <= Z.of_nat (length d) ->
  checkAtom (mkFILE d p false) tag
  = (header_at d p tag, mkFILE d (p + 8) false).
Proof.
  intros P H.
  destruct (checkAtom_readable (mkFILE d p false) tag)
    as (s & t & Hs & Ht & ->).
  { apply readable_true. unfold size. simpl. repeat split; lia. }
  simpl in Hs, Ht. unfold header_at. rewrite Hs, Ht. reflexivity.
Qed.

Lemma skip_atom_le (d : list byte) (tag p : Z) : p <= skip_atom d tag p.
Proof.
  unfold skip_atom. destruct (header_at d p tag) as [n|] eqn:E; [|lia].
  apply header_at_nonneg in E. lia.
Qed.

Lemma skip_probe (d : list byte) (tag p : Z) :
  0 <= p -> p + 8 <= Z.of_nat (length d) ->
  match checkAtom (mkFILE d p false) tag with
  | (Some n, g) => fseek g n SEEK_CUR
  | (None, g) => fseek g (-8) SEEK_CUR
  end = Some (mkFILE d (skip_atom d tag p) false).
Proof.
  intros P H. rewrite checkAtom_at by assumption. unfold skip_atom.
  destruct (header_at d p tag) as [n|] eqn:E.
  - apply header_at_nonneg in E. unfold fseek. simpl.
    destruct (Z.ltb_spec (p + 8 + n) 0); [lia|reflexivity].
  - unfold fseek. simpl.
    destruct (Z.ltb_spec (p + 8 + -8) 0); [lia|].
    do 2 f_equal. lia.
Qed.

Lemma checkFree_skip (fuel : nat) (d : list byte) (p : Z)
  (err : list message) :
  0 <= p -> p + 8 <= Z.of_nat (length d) ->
  exists err',
    checkFree fuel (mkFILE d p false) err
    = checkMdat fuel (mkFILE d (skip_atom d fourcc_free p) false) err'.
Proof.
  intros P H. pose proof (skip_probe d fourcc_free p P H) as S.
  unfold checkFree.
  destruct (checkAtom (mkFILE d p false) fourcc_free) as [[n|] g];
    rewrite S; eexists; reflexivity.
Qed.

Lemma checkType1_skip (fuel : nat) (d : list byte) (p : Z)
  (err : list message) :
  0 <= p -> p + 8 <= Z.of_nat (length d) ->
  exists err',
    checkType1 fuel (mkFILE d p false) err
    = checkFree fuel (mkFILE d (skip_atom d fourcc_moov p) false) err'.
Proof.
  intros P H. pose proof (skip_probe d fourcc_moov p P H) as S.
  unfold checkType1.
  destruct (checkAtom (mkFILE d p false) fourcc_moov) as [[n|] g];
    rewrite S; eexists; reflexivity.
Qed.

(** C9 (as the code has it).  The input is eight zero bytes and then a
    word [s0].  (1) When [s0] is at least 8 and not the value of 'ftyp'
    itself, and is followed by 'ftyp' (a 'ftyp' atom), then after that atom
    a 'moov' atom or not, a 'free' atom or not, and 'mdat' beginning with a
    nested 'ftyp' header: the zero words are skipped, [main] decides on a
    type 1 repair, and the repaired file begins with the size of the
    innermost nested 'ftyp' header, written most significant byte first,
    and 'ftyp'.  (2) When [s0] is 'ftyp', the tag right after the zero
    bytes, the word before the tag is 0 and the run is given up with "Bad
    length for initial 'ftyp' atom", whatever follows. *)
Theorem zeros_then_ftyp_atom_is_type1
  (input : list byte) (formatCode s0 : Z) :
  word_at input 0 = Some 0 -> word_at input 4 = Some 0 ->
  word_at input 8 = Some s0 ->
  (forall n,
     8 <= s0 -> s0 <> fourcc_ftyp ->
     word_at input 12 = Some fourcc_ftyp ->
     let p := skip_atom input fourcc_free
                (skip_atom input fourcc_moov (8 + s0)) in
     header_at input p fourcc_mdat <> None ->
     header_at input (p + 8) fourcc_ftyp = Some n ->
     exists q m err,
       innermost input (p + 16) n q m
       /\ detect (enoughFuel input) (fopen input)
          = Some (RepairType1 (m + 8) (mkFILE input q false) err)
       /\ main input formatCode
          = Some (Exit0 1
                    (be32 (m + 8) ++ tag_ftyp ++ skipn (Z.to_nat q) input)
                    (say Done err)))
  /\ (s0 = fourcc_ftyp ->
      main input formatCode
      = Some (Exit1 [SkippingInitialJunk 0; BadInitialFtypLength])).
Proof.
  intros Z0 Z4 Hs. split.
  - intros n H8 Ns Ht p Hmdat Hftyp.
    pose proof (header_at_nonneg _ _ _ _ Hftyp) as (Hn & Hp & Hin).
    pose proof (skip_atom_le input fourcc_moov (8 + s0)) as L1.
    pose proof (skip_atom_le input fourcc_free
                  (skip_atom input fourcc_moov (8 + s0))) as L2.
    fold p in L2.
    assert (P : scan_path input 0 (4 * 2)).
    { apply (zero_path input 2 s0 2 0); try assumption; try lia.
      intros x Hx. assert (Q : x = 0 \/ x = 1) by lia.
      destruct Q as [-> | ->]; assumption. }
    destruct (startOfFile_path input (4 * 2) 0 s0 _ P Z0 Hs Ht)
      as (fuel' & S).
    pose proof (word_at_range _ _ _ Hs).
    match type of S with context [checkStart _ _ _ ?s' _ ?e] =>
      destruct (checkStart_ftyp fuel' s0 s' input (4 * 2 + 8) e)
        as (err0 & S0); [lia|lia|] end.
    rewrite S0 in S. clear S0.
    replace (4 * 2 + 8 + s0 - 8) with (8 + s0) in S by lia.
    destruct (checkType1_skip (enoughFuel input) input (8 + s0) err0)
      as (err1 & T1); [lia|lia|].
    destruct (checkFree_skip (enoughFuel input) input
                (skip_atom input fourcc_moov (8 + s0)) err1)
      as (err2 & T2); [lia|lia|].
    fold p in T2.
    destruct (checkMdat_innermost (enoughFuel input) (mkFILE input p false)
                err2 n)
      as (q & m & err' & I & M & _).
    { split; simpl; [reflexivity|lia]. }
    { unfold enoughFuel. simpl. lia. }
    { exact Hmdat. }
    { exact Hftyp. }
    simpl in I, M.
    assert (D : detect (enoughFuel input) (fopen input)
                = Some (RepairType1 (m + 8) (mkFILE input q false) err')).
    { unfold detect. rewrite S, T1, T2, M. reflexivity. }
    exists q, m, err'. split; [exact I|]. split; [exact D|].
    apply (main_type1 input formatCode (m + 8) (mkFILE input q false) err' D).
  - intros ->.
    assert (P : scan_path input 0 4).
    { apply (path_filler input 0 4 0 0);
        [exact Z0|exact Z4|discriminate|reflexivity|apply path_here]. }
    destruct (startOfFile_path input 4 0 0 fourcc_ftyp P Z0 Z4 Hs)
      as (fuel' & S).
    unfold main, detect. rewrite S. reflexivity.
Qed.

Lemma zeros_then_ftyp_atom_witness :
  exists q m err,
    innermost sample_8_zeros_then_atom 32 0 q m
    /\ main sample_8_zeros_then_atom (char "8")
       = Some (Exit0 1 (be32 (m + 8) ++ tag_ftyp
                        ++ skipn (Z.to_nat q) sample_8_zeros_then_atom)
                 (say Done err)).
Proof.
  destruct (proj1 (zeros_then_ftyp_atom_is_type1 sample_8_zeros_then_atom
                     (char "8") 8 eq_refl eq_refl eq_refl) 0)
    as (q & m & err & I & _ & M).
  - lia.
  - vm_compute. discriminate.
  - vm_compute. reflexivity.
  - vm_compute. discriminate.
  - vm_compute. reflexivity.
  - exists q, m, err. split; [exact I|exact M].
Defined.

(** C9, counterexample.  Eight zero bytes with 'ftyp' right after them and
    a nested chain behind: the word before the tag is 0, and the run is
    given up with "Bad length for initial 'ftyp' atom". *)
Lemma zeros_then_tag_counterexample :
  main sample_8_zeros_then_tag (char "8")
  = Some (Exit1 [SkippingInitialJunk 0; BadInitialFtypLength]).
Proof. vm_compute. reflexivity. Qed.

(** ** The search for 0x00000002 after 'mdat' *)

(** One turn of the loop of [lookFor2] that does not see 0x00000002 in
    [first4Bytes] consumes three words, whatever the second and the third
    are. *)
Lemma lookFor2_stride (fuel : nat) (d : list byte) (p a b c : Z)
  (err : list message) :
  word_at d p = Some a -> a <> 2 ->
  word_at d (p + 4) = Some b -> word_at d (p + 8) = Some c ->
  lookFor2 (S fuel) (mkFILE d p false) err
  = lookFor2 fuel (mkFILE d (p + 12) false) err.
Proof.
  intros Ha Na Hb Hc. cbn [lookFor2].
  rewrite (get4Bytes_at d p a Ha), (get4Bytes_at d (p + 4) b Hb).
  destruct (Z.eqb_spec a 2); [contradiction|].
  replace (p + 4 + 4) with (p + 8) by lia.
  rewrite (get4Bytes_at d (p + 8) c Hc).
  replace (p + 8 + 4) with (p + 12) by lia. reflexivity.
Qed.

(** C10 (the code departs from it).  In [sample_marker_second_word] the
    search starts at offset 16, the start of the data of 'mdat', and
    0x00000002 stands at offset 20, four bytes on, with more than eight
    bytes behind it.  The first turn of the loop reads the words at 16, 20
    and 24 and tests only the one at 16; the next turn starts at 28.  The
    marker is not found and the run is given up.  The same data with the
    marker at offset 16 is repaired. *)
Theorem marker_search_tests_every_third_word :
  word_at sample_marker_second_word 20 = Some 2
  /\ lookFor2 (enoughFuel sample_marker_second_word)
       (mkFILE sample_marker_second_word 16 false) []
     = lookFor2 (length sample_marker_second_word)
         (mkFILE sample_marker_second_word 28 false) []
  /\ (exists g,
        lookFor2 (enoughFuel sample_marker_second_word)
          (mkFILE sample_marker_second_word 16 false) []
        = Some (None, g, []))
  /\ main sample_marker_second_word (char "8")
     = Some (Exit1 [SawInitialFtyp; DidntSeeMoov; SawMdat; DidntSeeFtypInMdat;
                    LookingFor2; DidntSee2])
  /\ main sample_marker_first_word (char "8")
     = Some (Exit0 2
               (type2_preamble SPS_1080p30 PPS_P2VP 0x09100000
                ++ startCode ++ bytes [0xAA])
               [SawInitialFtyp; DidntSeeMoov; SawMdat; DidntSeeFtypInMdat;
                LookingFor2; Found2At 16; ResultWillBeH264; Done]).
Proof.
  split; [vm_compute; reflexivity|]. split.
  - unfold enoughFuel.
    apply (lookFor2_stride _ sample_marker_second_word 16 0 2 0x09100000);
      try (vm_compute; reflexivity). discriminate.
  - split; [eexists; vm_compute; reflexivity|].
    split; vm_compute; reflexivity.
Qed.

(** * Further properties of the code *)

(** ** Words of a file given as a list *)

Lemma byte_at_cons_0 (a : byte) (l : list byte) :
  byte_at (a :: l) 0 = Some (Z_of_byte a).
Proof. apply byte_at_Some. simpl length. lia. Qed.

Lemma byte_at_cons_S (a : byte) (l : list byte) (k : Z) :
  0 <= k -> byte_at (a :: l) (k + 1) = byte_at l k.
Proof.
  intros H. unfold byte_at. cbn [length].
  rewrite Nat2Z.inj_succ, Z2Nat.inj_add by lia.
  replace (Z.to_nat k + Z.to_nat 1)%nat with (S (Z.to_nat k)) by lia.
  cbn [nth].
  destruct (Z.leb_spec 0 (k + 1)), (Z.leb_spec 0 k); try lia.
  destruct (Z.ltb_spec (k + 1) (Z.succ (Z.of_nat (length l)))),
           (Z.ltb_spec k (Z.of_nat (length l))); try lia; reflexivity.
Qed.

Lemma word_at_cons_S (a : byte) (l : list byte) (k : Z) :
  0 <= k -> word_at (a :: l) (k + 1) = word_at l k.
Proof.
  intros H. unfold word_at.
  replace (k + 1 + 1) with (k + 1 + 1) by reflexivity.
  replace (k + 1 + 2) with (k + 2 + 1) by lia.
  replace (k + 1 + 3) with (k + 3 + 1) by lia.
  rewrite !byte_at_cons_S by lia. reflexivity.
Qed.

Lemma word_at_cons4 (a b c d : byte) (l : list byte) :
  word_at (a :: b :: c :: d :: l) 0
  = Some (word (Z_of_byte a) (Z_of_byte b) (Z_of_byte c) (Z_of_byte d)).
Proof.
  unfold word_at. rewrite byte_at_cons_0.
  change (0 + 1) with (0 + 1). rewrite (byte_at_cons_S a _ 0) by lia.
  rewrite byte_at_cons_0.
  change (0 + 2) with (1 + 1). rewrite (byte_at_cons_S a _ 1) by lia.
  change 1 with (0 + 1) at 1. rewrite (byte_at_cons_S b _ 0) by lia.
  rewrite byte_at_cons_0.
  change (0 + 3) with (2 + 1). rewrite (byte_at_cons_S a _ 2) by lia.
  change 2 with (1 + 1) at 1. rewrite (byte_at_cons_S b _ 1) by lia.
  change 1 with (0 + 1) at 1. rewrite (byte_at_cons_S c _ 0) by lia.
  rewrite byte_at_cons_0. reflexivity.
Qed.

Lemma word_at_skip4 (a b c d : byte) (l : list byte) (k : Z) :
  0 <= k -> word_at (a :: b :: c :: d :: l) (k + 4) = word_at l k.
Proof.
  intros H.
  replace (k + 4) with (k + 3 + 1) by lia. rewrite word_at_cons_S by lia.
  replace (k + 3) with (k + 2 + 1) by lia. rewrite word_at_cons_S by lia.
  replace (k + 2) with (k + 1 + 1) by lia. rewrite word_at_cons_S by lia.
  apply word_at_cons_S. exact H.
Qed.

(** ** Inputs that cannot be repaired *)

(** X1.  An input of fewer than eight bytes, the empty file among them, is
    given up at once with "Unable to read the start of the file": nothing
    is written and the exit status is 1. *)
Theorem short_input_is_given_up (input : list byte) (formatCode : Z) :
  (length input < 8)%nat ->
  main input formatCode = Some (Exit1 [UnableToReadStart]).
Proof.
  intros H. unfold main, detect, startOfFile.
  destruct (get4Bytes_inv (fopen input)) as [(a & -> & R1 & _)|(p & -> & _)];
    [|reflexivity].
  destruct (get4Bytes_inv (advance (fopen input) 4))
    as [(b & -> & R2 & _)|(p & -> & _)]; [|reflexivity].
  exfalso. rewrite readable_advance in R2 by (assumption || lia).
  apply readable_true in R2. unfold size in R2. simpl in R2. lia.
Qed.

Lemma short_input_witness :
  main [] (char "8") = Some (Exit1 [UnableToReadStart])
  /\ main (bytes [0; 0; 0; 2; 9; 16; 0]) (char "8")
     = Some (Exit1 [UnableToReadStart]).
Proof.
  split; apply short_input_is_given_up; simpl; lia.
Defined.

Lemma byte_at_constant (c : byte) (d : list byte) (k : Z) :
  Forall (eq c) d -> 0 <= k < Z.of_nat (length d) ->
  byte_at d k = Some (Z_of_byte c).
Proof.
  intros F H. rewrite byte_at_Some by assumption.
  rewrite Forall_forall in F.
  rewrite <- (F (nth (Z.to_nat k) d x00)); [reflexivity|].
  apply nth_In. lia.
Qed.

Lemma word_at_constant (c : byte) (d : list byte) (k : Z) :
  Forall (eq c) d -> 0 <= k -> k + 4 <= Z.of_nat (length d) ->
  word_at d k
  = Some (word (Z_of_byte c) (Z_of_byte c) (Z_of_byte c) (Z_of_byte c)).
Proof.
  intros F H0 H4. unfold word_at.
  rewrite !(byte_at_constant c) by (assumption || lia). reflexivity.
Qed.

Lemma checkStart_filler_only (c : byte) (d : list byte) (fuel : nat) (p : Z)
  (s : bool) (err : list message) :
  let w := word (Z_of_byte c) (Z_of_byte c) (Z_of_byte c) (Z_of_byte c) in
  Forall (eq c) d -> is_filler w = true ->
  0 <= p -> (Z.to_nat (Z.of_nat (length d) - p) < fuel)%nat ->
  checkStart fuel w w s (mkFILE d p false) err
  = Some (StartBad (say NothingButZerosOrFF
                      (if s then say (SkippingInitialJunk w) err else err))).
Proof.
  intros w F Fw. revert p s err.
  assert (Nt : (w =? fourcc_ftyp) = false).
  { unfold is_filler in Fw. apply orb_true_iff in Fw.
    destruct Fw as [Q|Q]; apply Z.eqb_eq in Q; rewrite Q; reflexivity. }
  assert (N2 : (w =? 2) = false).
  { unfold is_filler in Fw. apply orb_true_iff in Fw.
    destruct Fw as [Q|Q]; apply Z.eqb_eq in Q; rewrite Q; reflexivity. }
  induction fuel as [|fuel IH]; intros p s err P Hf; [lia|].
  cbn [checkStart]. rewrite Nt, N2. unfold is_filler in Fw. rewrite Fw.
  destruct (get4Bytes_inv (mkFILE d p false))
    as [(w' & -> & R & W)|(q & -> & _)]; [|reflexivity].
  simpl in W. apply readable_true in R. unfold size in R. simpl in R.
  rewrite (word_at_constant c) in W by (assumption || lia).
  inversion W; subst w'. fold w.
  unfold advance. simpl. rewrite IH by lia. reflexivity.
Qed.

(** X2.  A file of at least eight bytes that are all 0x00, or all 0xFF, is
    given up with "File appears to contain nothing but zeros or 0xFF!",
    after the one message that junk is skipped. *)
Theorem filler_only_input_is_given_up
  (c : byte) (input : list byte) (formatCode : Z) :
  c = x00 \/ c = xff ->
  Forall (eq c) input -> (8 <= length input)%nat ->
  main input formatCode
  = Some (Exit1 [SkippingInitialJunk (if Byte.eqb c x00 then 0 else 0xFFFFFFFF);
                 NothingButZerosOrFF]).
Proof.
  intros Hc F H.
  set (w := word (Z_of_byte c) (Z_of_byte c) (Z_of_byte c) (Z_of_byte c)).
  assert (Hw : w = (if Byte.eqb c x00 then 0 else 0xFFFFFFFF)
               /\ is_filler w = true).
  { subst w. destruct Hc as [-> | ->]; split; reflexivity. }
  destruct Hw as (Ew & Fw).
  unfold main, detect, startOfFile, fopen.
  rewrite (get4Bytes_at input 0 w)
    by (apply word_at_constant; (assumption || lia)).
  cbv beta iota. change (0 + 4) with 4.
  rewrite (get4Bytes_at input 4 w)
    by (apply word_at_constant; (assumption || lia)).
  cbv beta iota. change (4 + 4) with 8.
  unfold enoughFuel.
  pose proof (checkStart_filler_only c input (S (length input)) 8 true []
                F Fw ltac:(lia) ltac:(lia)) as Q.
  cbv zeta in Q. fold w in Q. rewrite Q, Ew. reflexivity.
Qed.

Lemma filler_only_input_witness :
  main (repeat xff 11) (char "8")
  = Some (Exit1 [SkippingInitialJunk 0xFFFFFFFF; NothingButZerosOrFF]).
Proof.
  apply (filler_only_input_is_given_up xff (repeat xff 11) (char "8")).
  - right. reflexivity.
  - repeat constructor.
  - simpl. lia.
Defined.
(** ** What a type 1 repair always satisfies *)

Lemma nestedFtyp_pos (fuel : nat) (n : Z) (f : FILE) (err : list message)
  (cp n' : Z) (g : FILE) (err' : list message) :
  0 <= n -> 0 <= position f <= size f ->
  nestedFtyp fuel n f err = Some (cp, n', g, err') ->
  position f <= cp <= size f /\ contents g = contents f.
Proof.
  revert n f err. induction fuel as [|fuel IH]; intros n f err Hn P;
    [discriminate|].
  cbn [nestedFtyp]. rewrite fseek_forward by lia. unfold ftell.
  assert (Stop : forall h : FILE,
            contents h = contents f ->
            Some (position f, n, h, err) = Some (cp, n', g, err') ->
            position f <= cp <= size f /\ contents g = contents f).
  { intros h C Q. inversion Q; subst. split; [lia|exact C]. }
  destruct (checkAtom_inv (advance f n) fourcc_moov)
    as [(m & -> & R1 & _ & _ & Hm)|(h & -> & C & _)]; [|apply Stop; exact C].
  rewrite fseek_forward by (simpl; lia).
  destruct (checkAtom_inv (advance (advance (advance f n) 8) m) fourcc_mdat)
    as [(x & -> & R2 & _)|(h & -> & C & _)]; [|apply Stop; exact C].
  destruct (checkAtom_inv
              (advance (advance (advance (advance f n) 8) m) 8) fourcc_ftyp)
    as [(y & -> & R3 & _ & _ & Hy)|(h & -> & C & _)]; [|apply Stop; exact C].
  apply readable_true in R3. unfold size in *. simpl in R3.
  intros Q. apply IH in Q; [|lia|unfold size; simpl; lia].
  unfold size in Q. simpl in Q. split; [lia|tauto].
Qed.

Lemma fallBackToType2_not_type1 (fuel : nat) (f : FILE) (err : list message)
  (s : Z) (g : FILE) (e : list message) :
  fallBackToType2 fuel f err <> Some (RepairType1 s g e).
Proof.
  unfold fallBackToType2.
  destruct (lookFor2 fuel f (say LookingFor2 err)) as [[[[w|] h] e']|];
    discriminate.
Qed.

Lemma checkMdat_in_range (fuel : nat) (f : FILE) (err : list message)
  (s : Z) (g : FILE) (e : list message) :
  checkMdat fuel f err = Some (RepairType1 s g e) ->
  16 <= position g <= size g /\ contents g = contents f.
Proof.
  unfold checkMdat.
  destruct (checkAtom_inv f fourcc_mdat)
    as [(x & -> & R1 & _)|(h & -> & _)];
    [|intros Q; exfalso; eapply fallBackToType2_not_type1; exact Q].
  destruct (checkAtom_inv (advance f 8) fourcc_ftyp)
    as [(n & -> & R2 & _ & _ & Hn)|(h & -> & _)].
  - apply readable_true in R2. unfold size in R2. simpl in R2.
    destruct R2 as (_ & P0 & P1).
    destruct (nestedFtyp fuel n (advance (advance f 8) 8) (say SawMdat err))
      as [[[[cp n'] h] e']|] eqn:N; [|discriminate].
    apply nestedFtyp_pos in N; [|lia|unfold size; simpl; lia].
    unfold size in N. simpl in N. destruct N as (Hcp & C).
    unfold fseek. destruct (Z.ltb_spec cp 0); [lia|].
    intros Q; inversion Q; subst. unfold size. simpl. rewrite C.
    apply readable_true in R1. split; [lia|reflexivity].
  - destruct (fseek h (-8) SEEK_CUR) as [k|]; [|discriminate].
    intros Q; exfalso; eapply fallBackToType2_not_type1; exact Q.
Qed.

Lemma checkFree_in_range (fuel : nat) (f : FILE) (err : list message)
  (s : Z) (g : FILE) (e : list message) :
  checkFree fuel f err = Some (RepairType1 s g e) ->
  16 <= position g <= size g.
Proof.
  unfold checkFree.
  destruct (checkAtom f fourcc_free) as [[n|] h].
  - destruct (fseek h n SEEK_CUR) as [k|]; [|discriminate].
    intros Q. apply checkMdat_in_range in Q. tauto.
  - destruct (fseek h (-8) SEEK_CUR) as [k|]; [|discriminate].
    intros Q. apply checkMdat_in_range in Q. tauto.
Qed.

Lemma checkType1_in_range (fuel : nat) (f : FILE) (err : list message)
  (s : Z) (g : FILE) (e : list message) :
  checkType1 fuel f err = Some (RepairType1 s g e) ->
  16 <= position g <= size g.
Proof.
  unfold checkType1.
  destruct (checkAtom f fourcc_moov) as [[n|] h].
  - destruct (fseek h n SEEK_CUR) as [k|]; [|discriminate].
    apply checkFree_in_range.
  - destruct (fseek h (-8) SEEK_CUR) as [k|]; [|discriminate].
    apply checkFree_in_range.
Qed.

Lemma detect_in_range (fuel : nat) (f : FILE)
  (s : Z) (g : FILE) (e : list message) :
  detect fuel f = Some (RepairType1 s g e) -> 16 <= position g <= size g.
Proof.
  unfold detect.
  destruct (startOfFile fuel f) as [[e0|h e0|w h e0]|]; try discriminate.
  destruct (checkType1 fuel h e0) as [[e1|s1 g1 e1|w1 g1 e1]|] eqn:T;
    try discriminate.
  intros Q; inversion Q; subst. eapply checkType1_in_range; exact T.
Qed.

(** The shape of every type 1 run. *)
Lemma type1_run (input : list byte) (formatCode : Z) (out : list byte)
  (err : list message) :
  main input formatCode = Some (Exit0 1 out err) ->
  exists S q,
    8 <= S < 2 ^ 32
    /\ (16 <= q <= length input)%nat
    /\ out = be32 S ++ tag_ftyp ++ skipn q input.
Proof.
  intros M. destruct (detect_ok input) as (v & D & Hv).
  destruct v as [e|s g e|w g e].
  - unfold main in M. rewrite D in M. discriminate.
  - pose proof (detect_in_range _ _ _ _ _ D) as R.
    simpl in Hv. destruct Hv as ((C & _) & Hs). simpl in C.
    rewrite (main_type1 input formatCode s g e D) in M.
    unfold size in R. rewrite C in R.
    injection M as Eo _. rewrite <- Eo.
    exists s, (Z.to_nat (position g)). repeat split; try lia.
  - unfold main in M. rewrite D in M.
    destruct (doRepairType2 _ _ _ _ _) as [[h o]|]; discriminate.
Qed.

(** X3.  Whenever a run ends in a type 1 repair, the size written is at
    least 8 and fits 32 bits, and the rest of the output is the input from
    an offset [q] on, with [q] at least 16 and inside the file: the output
    is shorter than the input by [q - 8] bytes, never longer. *)
Theorem type1_output_is_header_and_suffix
  (input : list byte) (formatCode : Z) (out : list byte)
  (err : list message) :
  main input formatCode = Some (Exit0 1 out err) ->
  exists S q,
    8 <= S < 2 ^ 32
    /\ (16 <= q <= length input)%nat
    /\ out = be32 S ++ tag_ftyp ++ skipn q input
    /\ (length out + q = length input + 8)%nat.
Proof.
  intros M. destruct (type1_run _ _ _ _ M) as (S & q & HS & Hq & ->).
  exists S, q. repeat split; try lia.
  rewrite !length_app, length_skipn. simpl. lia.
Qed.

Lemma type1_output_is_header_and_suffix_witness :
  exists S q,
    8 <= S < 2 ^ 32
    /\ (16 <= q <= length sample_nested)%nat
    /\ be32 12 ++ tag_ftyp ++ bytes [1; 2; 3; 4]
       = be32 S ++ tag_ftyp ++ skipn q sample_nested
    /\ (length (be32 12 ++ tag_ftyp ++ bytes [1; 2; 3; 4]%Z) + q
        = length sample_nested + 8)%nat.
Proof.
  apply (type1_output_is_header_and_suffix sample_nested (char "8") _
           [SawInitialFtyp; DidntSeeMoov; SawMdat; SawNestedFtyp;
            SawFtypWithinMdat; Done]).
  vm_compute. reflexivity.
Defined.

(** X4.  The header written by a type 1 repair reads back: in the repaired
    file [checkAtom] finds a 'ftyp' atom at offset 0 with the size that was
    written, and the check of the start of the file accepts it as a file
    that starts with 'ftyp', leaving the stream at the end of that atom. *)
Theorem type1_output_starts_with_ftyp_atom
  (input : list byte) (formatCode : Z) (out : list byte)
  (err : list message) :
  main input formatCode = Some (Exit0 1 out err) ->
  exists S,
    8 <= S < 2 ^ 32
    /\ checkAtom (fopen out) fourcc_ftyp = (Some (S - 8), mkFILE out 8 false)
    /\ startOfFile (enoughFuel out) (fopen out)
       = Some (StartType1 (mkFILE out S false) [SawInitialFtyp]).
Proof.
  intros M. destruct (type1_run _ _ _ _ M) as (S & q & HS & Hq & ->).
  exists S. split; [exact HS|].
  set (out := be32 S ++ tag_ftyp ++ skipn q input).
  assert (W0 : word_at out 0 = Some S).
  { subst out. unfold be32. cbn [app]. rewrite word_at_cons4.
    rewrite be32_word by lia. reflexivity. }
  assert (W4 : word_at out 4 = Some fourcc_ftyp).
  { subst out. unfold be32, tag_ftyp. cbn [app].
    rewrite (word_at_skip4 _ _ _ _ _ 0) by lia.
    rewrite word_at_cons4. reflexivity. }
  pose proof (word_at_inside _ _ _ W4) as (_ & L).
  split.
  - unfold fopen. rewrite checkAtom_at by lia.
    unfold header_at. simpl Z.add. rewrite W0, W4, Z.eqb_refl.
    destruct (Z.leb_spec 8 S); [reflexivity|lia].
  - unfold startOfFile, fopen.
    rewrite (get4Bytes_at out 0 S W0). cbv beta iota. change (0 + 4) with 4.
    rewrite (get4Bytes_at out 4 _ W4). cbv beta iota. change (4 + 4) with 8.
    unfold enoughFuel.
    cbn [checkStart]. rewrite Z.eqb_refl.
    destruct (Z.ltb_spec S 8); [lia|].
    unfold u32. rewrite Z.mod_small by lia.
    unfold fseek. cbn [position contents].
    destruct (Z.ltb_spec (8 + (S - 8)) 0); [lia|].
    cbn [negb]. replace (8 + (S - 8)) with S by lia. reflexivity.
Qed.

Lemma type1_output_starts_with_ftyp_atom_witness :
  exists S,
    8 <= S < 2 ^ 32
    /\ checkAtom (fopen (be32 12 ++ tag_ftyp ++ bytes [1; 2; 3; 4]))
         fourcc_ftyp
       = (Some (S - 8),
          mkFILE (be32 12 ++ tag_ftyp ++ bytes [1; 2; 3; 4]) 8 false)
    /\ startOfFile (enoughFuel (be32 12 ++ tag_ftyp ++ bytes [1; 2; 3; 4]))
         (fopen (be32 12 ++ tag_ftyp ++ bytes [1; 2; 3; 4]))
       = Some (StartType1
                 (mkFILE (be32 12 ++ tag_ftyp ++ bytes [1; 2; 3; 4]) S false)
                 [SawInitialFtyp]).
Proof.
  apply (type1_output_starts_with_ftyp_atom sample_nested (char "8") _
           [SawInitialFtyp; DidntSeeMoov; SawMdat; SawNestedFtyp;
            SawFtypWithinMdat; Done]).
  vm_compute. reflexivity.
Defined.
(** ** The tables and the start of every type 2 output *)

Lemma terminated_spec (l : list Z) :
  terminated l = true -> exists a, l = a ++ [0xff] /\ ~ In 0xff a.
Proof.
  unfold terminated. destruct (rev l) as [|x r] eqn:E; [discriminate|].
  rewrite andb_true_iff, Z.eqb_eq, forallb_forall. intros (-> & F).
  exists (rev r). split.
  - rewrite <- (rev_involutive l), E. reflexivity.
  - intros I. apply in_rev in I. apply F in I.
    rewrite Z.eqb_refl in I. discriminate.
Qed.

Lemma writeNAL_body (a t : list Z) (out : list byte) :
  ~ In 0xff a -> writeNAL (a ++ 0xff :: t) out = out ++ bytes a.
Proof.
  revert out. induction a as [|c a IH]; intros out N; simpl.
  - symmetry. apply app_nil_r.
  - destruct (Z.eqb_spec c 255) as [->|Nc]; [exfalso; apply N; left; reflexivity|].
    rewrite IH by (intros I; apply N; right; exact I).
    unfold fputc. rewrite <- app_assoc. reflexivity.
Qed.

Lemma selectFormat_terminated (formatCode : Z) :
  terminated (fst (selectFormat formatCode)) = true
  /\ terminated (snd (selectFormat formatCode)) = true.
Proof.
  unfold selectFormat.
  repeat match goal with
  | |- context [if ?b then _ else _] => destruct b
  end; split; vm_compute; reflexivity.
Qed.

Lemma doRepairType2_extends (fuel : nat) (formatCode : Z) (f : FILE)
  (out : list byte) (w : Z) (a b : list Z) :
  selectFormat formatCode = (a ++ [0xff], b ++ [0xff]) ->
  ~ In 0xff a -> ~ In 0xff b ->
  (remaining f < fuel)%nat ->
  exists g o,
    doRepairType2 fuel formatCode f out w
    = Some (g, out ++ startCode ++ bytes a ++ startCode ++ bytes b
               ++ startCode
               ++ [byte_of_Z (w / 2 ^ 24); byte_of_Z (w / 2 ^ 16)] ++ o).
Proof.
  intros E Na Nb Hf.
  destruct (doRepairType2_total fuel formatCode f out w Hf) as ([g o] & D).
  exists g. revert D. unfold doRepairType2. rewrite E.
  rewrite !putStartCode_app, !writeNAL_body by assumption.
  set (pre := fputc _ (fputc _ _)).
  assert (Hpre : pre = out ++ startCode ++ bytes a ++ startCode ++ bytes b
                       ++ startCode
                       ++ [byte_of_Z (w / 2 ^ 24); byte_of_Z (w / 2 ^ 16)]).
  { subst pre. unfold fputc. rewrite !Z.shiftr_div_pow2 by lia.
    rewrite <- !app_assoc. reflexivity. }
  assert (Stop : forall h : FILE, Some (h, pre) = Some (g, o) ->
            exists o', Some (g, o)
                       = Some (g, out ++ startCode ++ bytes a ++ startCode
                                  ++ bytes b ++ startCode
                                  ++ [byte_of_Z (w / 2 ^ 24);
                                      byte_of_Z (w / 2 ^ 16)] ++ o')).
  { intros h Q; inversion Q; subst o. exists []. rewrite Hpre.
    reflexivity. }
  destruct (get1Byte f) as [[c1|] f1]; [|intros D; rewrite D; apply (Stop _ D)].
  destruct (get1Byte f1) as [[c2|] f2]; [|intros D; rewrite D; apply (Stop _ D)].
  intros D. rewrite D. apply restream_extends in D. destruct D as (o' & ->).
  exists o'. rewrite Hpre, <- !app_assoc. reflexivity.
Qed.

(** X5.  Whatever the format code, both tables chosen by the switch end in
    0xff and hold no 0xff before it, so each write loop stops at the last
    element of its table and writes the table without that element; and the
    output of [doRepairType2] is what was there before, then start code,
    SPS, start code, PPS, start code and the two high bytes of the word
    kept from detection, then the units. *)
Theorem every_type2_output_starts_with_tables
  (fuel : nat) (formatCode : Z) (f : FILE) (out : list byte) (w : Z) :
  (remaining f < fuel)%nat ->
  exists a b g o,
    selectFormat formatCode = (a ++ [0xff], b ++ [0xff])
    /\ ~ In 0xff a /\ ~ In 0xff b
    /\ writeNAL (a ++ [0xff]) out = out ++ bytes a
    /\ writeNAL (b ++ [0xff]) out = out ++ bytes b
    /\ doRepairType2 fuel formatCode f out w
       = Some (g, out ++ type2_preamble (a ++ [0xff]) (b ++ [0xff]) w ++ o).
Proof.
  intros Hf.
  destruct (selectFormat_terminated formatCode) as (Ta & Tb).
  apply terminated_spec in Ta, Tb.
  destruct Ta as (a & Ea & Na). destruct Tb as (b & Eb & Nb).
  assert (E : selectFormat formatCode = (a ++ [0xff], b ++ [0xff])).
  { rewrite <- Ea, <- Eb. destruct (selectFormat formatCode); reflexivity. }
  destruct (doRepairType2_extends fuel formatCode f out w a b E Na Nb Hf)
    as (g & o & D).
  exists a, b, g, o. split; [exact E|]. split; [exact Na|].
  split; [exact Nb|].
  split; [apply writeNAL_body; exact Na|].
  split; [apply writeNAL_body; exact Nb|].
  rewrite D. unfold type2_preamble. rewrite !removelast_last.
  rewrite <- !app_assoc. reflexivity.
Qed.

Lemma every_type2_output_starts_with_tables_witness :
  exists a b g o,
    selectFormat (char "2") = (a ++ [0xff], b ++ [0xff])
    /\ ~ In 0xff a /\ ~ In 0xff b
    /\ writeNAL (a ++ [0xff]) [] = [] ++ bytes a
    /\ writeNAL (b ++ [0xff]) [] = [] ++ bytes b
    /\ doRepairType2 20 (char "2") (mkFILE sample_truncated 8 false) []
         0x09100000
       = Some (g, [] ++ type2_preamble (a ++ [0xff]) (b ++ [0xff]) 0x09100000
                  ++ o).
Proof.
  apply every_type2_output_starts_with_tables. vm_compute. lia.
Defined.

(** ** The copy of one unit *)

(** X6.  The loop that copies a unit of declared length [n] always writes
    exactly [n] bytes: the bytes that can still be read, at most [n] of
    them, and then one byte 0xff for each byte that is missing.  The stream
    is left after the bytes read. *)
Theorem copyNAL_writes_declared_length
  (n : nat) (f : FILE) (out : list byte) :
  snd (copyNAL n f out)
  = out ++ firstn n (rest f) ++ repeat xff (n - remaining f)
  /\ length (snd (copyNAL n f out)) = (length out + n)%nat
  /\ rest (fst (copyNAL n f out)) = skipn n (rest f).
Proof.
  destruct (copyNAL_spec n f out) as (g & -> & R & _).
  simpl fst; simpl snd. split; [reflexivity|]. split; [|exact R].
  rewrite !length_app, length_firstn, repeat_length. unfold remaining.
  destruct (Nat.le_ge_cases n (length (rest f)));
    [rewrite Nat.min_l by assumption|rewrite Nat.min_r by assumption]; lia.
Qed.

(** ** Zero bytes after a zero length *)

Lemma skipAnomalous_zero_run (m : nat) :
  forall (fuel : nat) (f : FILE) (r : list byte),
    rest f = repeat x00 m ++ x02 :: r ->
    (remaining f < fuel)%nat ->
    skipAnomalous fuel 0 f = Some (Some 2, advance f (Z.of_nat (S m)))
    /\ rest (advance f (Z.of_nat (S m))) = r.
Proof.
  induction m as [|m IH]; intros fuel f r E Hf;
    (destruct fuel as [|fuel]; [lia|]); cbn [skipAnomalous];
    cbn [repeat app] in E; rewrite get1Byte_rest, E.
  - pose proof (rest_advance f _ _ E) as Er.
    change (Z.lor (u32 (Z.shiftl 0 8)) (Z_of_byte x02)) with 2.
    cbn [Z.eqb negb Pos.eqb]. split; [reflexivity|exact Er].
  - pose proof (rest_advance f _ _ E) as Er.
    change (Z.lor (u32 (Z.shiftl 0 8)) (Z_of_byte x00)) with 0.
    cbn [Z.eqb negb].
    destruct (IH fuel (advance f 1) r Er) as (Q & Qr).
    { unfold remaining in *. rewrite Er. rewrite E in Hf.
      cbn [length] in Hf. lia. }
    rewrite Q, advance_advance in *.
    replace (1 + Z.of_nat (S m)) with (Z.of_nat (S (S m))) in * by lia.
    split; [reflexivity|exact Qr].
Qed.

(** X7.  After a length field of zero, a run of zero bytes of any length
    followed by a byte 02 ends the scan for 0x00000002 at that byte: the
    scan returns length 2 with the stream just past it. *)
Theorem zero_run_ends_at_first_02
  (m fuel : nat) (f : FILE) (r : list byte) :
  rest f = repeat x00 m ++ x02 :: r ->
  (remaining f < fuel)%nat ->
  skipAnomalous fuel 0 f = Some (Some 2, advance f (Z.of_nat (S m)))
  /\ rest (advance f (Z.of_nat (S m))) = r.
Proof. apply skipAnomalous_zero_run. Qed.

Lemma zero_run_ends_at_first_02_witness :
  skipAnomalous 20 0 (fopen (bytes [0; 0; 0; 0; 0; 2; 0xAA; 0xBB]))
  = Some (Some 2,
          advance (fopen (bytes [0; 0; 0; 0; 0; 2; 0xAA; 0xBB]))
            (Z.of_nat 6))
  /\ rest (advance (fopen (bytes [0; 0; 0; 0; 0; 2; 0xAA; 0xBB]))
             (Z.of_nat 6))
     = bytes [0xAA; 0xBB].
Proof.
  apply (zero_run_ends_at_first_02 5 20).
  - reflexivity.
  - vm_compute. lia.
Defined.

(** ** A well-formed stream is re-framed unit by unit *)

Lemma get4Bytes_rest (f : FILE) (a b c d : byte) (r : list byte) :
  rest f = a :: b :: c :: d :: r ->
  get4Bytes f
  = (Some (word (Z_of_byte a) (Z_of_byte b) (Z_of_byte c) (Z_of_byte d)),
     advance f 4)
  /\ rest (advance f 4) = r.
Proof.
  intros E.
  assert (R : readable f 4 = true).
  { apply (readable_of_remaining f 4). unfold remaining. rewrite E.
    simpl. lia. }
  assert (Rk : forall k, k <= 4 -> readable f k = true)
    by (intros k Hk; eapply readable_less; [exact R|exact Hk]).
  assert (R0 : readable f 0 = true) by (apply Rk; lia).
  split.
  - destruct (get4Bytes_readable f R) as (-> & _). f_equal.
    destruct (rest_cons f (Rk 1 ltac:(lia))) as (x0 & E0 & B0).
    rewrite E in E0. injection E0 as <- E0.
    assert (R2 : readable (advance f 1) 1 = true).
    { rewrite readable_advance by (first [apply Rk; lia|lia]).
      apply Rk. lia. }
    destruct (rest_cons _ R2) as (x1 & E1 & B1).
    rewrite <- E0 in E1. injection E1 as <- E1.
    assert (R3 : readable (advance (advance f 1) 1) 1 = true).
    { rewrite advance_advance, readable_advance
        by (first [apply Rk; lia|lia]).
      apply Rk. lia. }
    destruct (rest_cons _ R3) as (x2 & E2 & B2).
    rewrite <- E1 in E2. injection E2 as <- E2.
    assert (R4 : readable (advance (advance (advance f 1) 1) 1) 1 = true).
    { rewrite !advance_advance, readable_advance
        by (first [apply Rk; lia|lia]).
      apply Rk. lia. }
    destruct (rest_cons _ R4) as (x3 & E3 & B3).
    rewrite <- E2 in E3. injection E3 as <- E3.
    simpl in B1, B2, B3. unfold word_at.
    replace (position f + 2) with (position f + 1 + 1) by lia.
    replace (position f + 3) with (position f + 1 + 1 + 1) by lia.
    rewrite B0, B1, B2, B3. reflexivity.
  - rewrite rest_advance_n by (assumption || lia). rewrite E. reflexivity.
Qed.

Lemma get4Bytes_rest_nil (f : FILE) :
  rest f = [] -> exists g, get4Bytes f = (None, g).
Proof.
  intros E. destruct (get4Bytes_inv f) as [(w & _ & R & _)|(p & -> & _)].
  - pose proof (remaining_advance f 4 R ltac:(lia)) as M.
    unfold remaining in M. rewrite E in M. simpl in M. lia.
  - eexists. reflexivity.
Qed.

Lemma restream_wellformed (units : list (list byte)) :
  forall (u0 : list byte) (fuel : nat) (f : FILE) (out : list byte),
    feof f = false ->
    rest f = u0 ++ concat (map frame units) ->
    Forall plainLength units ->
    (remaining f < fuel)%nat ->
    exists g,
      restream fuel (Z.of_nat (length u0)) f out
      = Some (g, out ++ startCode ++ u0 ++ withStartCodes units).
Proof.
  induction units as [|u units IH]; intros u0 fuel f out E Hr F Hf;
    (destruct fuel as [|fuel]; [lia|]); cbn [restream]; rewrite E;
    rewrite Nat2Z.id;
    destruct (copyNAL_spec (length u0) f (putStartCode out))
      as (f1 & -> & R1 & _ & A1);
    rewrite Hr in R1; rewrite skipn_app, skipn_all, Nat.sub_diag in R1;
    cbn [skipn app] in R1;
    rewrite Hr, firstn_app, firstn_all, Nat.sub_diag, firstn_O, app_nil_r;
    (replace (length u0 - remaining f)%nat with O
       by (unfold remaining; rewrite Hr, length_app; lia));
    cbn [repeat]; rewrite app_nil_r, putStartCode_app.
  - simpl in R1. destruct (get4Bytes_rest_nil f1 R1) as (g & ->).
    exists g. unfold withStartCodes. simpl. rewrite app_nil_r, <- app_assoc.
    reflexivity.
  - cbn [map concat] in R1. unfold frame at 1, be32 in R1.
    rewrite <- !app_assoc in R1. cbn [app] in R1.
    destruct (get4Bytes_rest f1 _ _ _ _ _ R1) as (-> & R2).
    inversion F as [|? ? Hu F']; subst. unfold plainLength in Hu.
    rewrite be32_word by lia.
    assert (An : anomalous (Z.of_nat (length u)) = false).
    { unfold anomalous.
      destruct (Z.eqb_spec (Z.of_nat (length u)) 0); [lia|].
      destruct (Z.gtb_spec (Z.of_nat (length u)) 16777215); [lia|].
      reflexivity. }
    rewrite An.
    assert (M : (remaining (advance f1 4) < fuel)%nat).
    { unfold remaining in *. rewrite R2. rewrite Hr in Hf.
      rewrite length_app in Hf. cbn [map concat] in Hf.
      unfold frame at 1 in Hf. rewrite !length_app in Hf.
      cbn [length be32] in Hf. rewrite length_app. lia. }
    destruct (IH u fuel (advance f1 4) ((out ++ startCode) ++ u0)
                eq_refl R2 F' M) as (g & ->).
    exists g. unfold withStartCodes. cbn [map concat].
    rewrite <- !app_assoc. reflexivity.
Qed.

(** X8.  When the unread input is a unit of the length in hand followed by
    well-formed units, each four bytes of length (between 1 and 0x00FFFFFF)
    and then that many bytes, the main loop writes every unit after a start
    code, with no byte added, dropped or changed, and ends at the end of
    the input. *)
Theorem restream_reframes_wellformed_units
  (units : list (list byte)) (u0 : list byte) (fuel : nat) (f : FILE)
  (out : list byte) :
  feof f = false ->
  rest f = u0 ++ concat (map frame units) ->
  Forall plainLength units ->
  (remaining f < fuel)%nat ->
  exists g,
    restream fuel (Z.of_nat (length u0)) f out
    = Some (g, out ++ withStartCodes (u0 :: units)).
Proof.
  intros E Hr F Hf.
  destruct (restream_wellformed units u0 fuel f out E Hr F Hf) as (g & ->).
  exists g. unfold withStartCodes. cbn [map concat].
  rewrite <- !app_assoc. reflexivity.
Qed.

Lemma restream_reframes_wellformed_units_witness :
  exists g,
    restream 20 (Z.of_nat (length (bytes [0xAA])))
      (fopen (bytes [0xAA] ++ concat (map frame [bytes [1; 2]; bytes [3]])))
      []
    = Some (g, [] ++ withStartCodes
                       (bytes [0xAA] :: [bytes [1; 2]; bytes [3]])).
Proof.
  apply restream_reframes_wellformed_units.
  - reflexivity.
  - reflexivity.
  - repeat (apply Forall_cons; [unfold plainLength; simpl; lia|]).
    apply Forall_nil.
  - vm_compute. lia.
Defined.
Lemma first_nal_size_value (h1 h2 n : Z) :
  0 <= h1 < 256 -> 0 <= h2 < 256 -> 0 <= n < 2 ^ 32 ->
  let b0 := (n / 2 ^ 24) mod 256 in
  let b1 := (n / 2 ^ 16) mod 256 in
  let b2 := (n / 2 ^ 8) mod 256 in
  let b3 := n mod 256 in
  u32 (Z.lor (Z.lor (Z.shiftl (Z.land (word h1 h2 b0 b1) 0xFFFF) 16)
                    (Z.shiftl b2 8)) b3) = n.
Proof.
  intros H1 H2 Hn b0 b1 b2 b3.
  assert (R0 : 0 <= b0 < 256) by (apply Z.mod_pos_bound; lia).
  assert (R1 : 0 <= b1 < 256) by (apply Z.mod_pos_bound; lia).
  assert (R2 : 0 <= b2 < 256) by (apply Z.mod_pos_bound; lia).
  assert (R3 : 0 <= b3 < 256) by (apply Z.mod_pos_bound; lia).
  rewrite first_nal_size by assumption.
  change 0xFFFF with (Z.ones 16). rewrite Z.land_ones by lia.
  rewrite (lor_shiftl_add b2 b3 8) by lia.
  assert (Lo : word h1 h2 b0 b1 mod 2 ^ 16 = b0 * 2 ^ 8 + b1).
  { unfold word. change (2 ^ 24) with (2 ^ 8 * 2 ^ 16).
    replace (h1 * (2 ^ 8 * 2 ^ 16) + h2 * 2 ^ 16 + b0 * 2 ^ 8 + b1)
      with (b0 * 2 ^ 8 + b1 + (h1 * 2 ^ 8 + h2) * 2 ^ 16) by lia.
    rewrite Z.mod_add by lia. apply Z.mod_small. lia. }
  rewrite Lo, lor_shiftl_add by lia.
  pose proof (be32_word n Hn) as W. rewrite !Z_of_byte_of_Z in W.
  fold b0 b1 b2 b3 in W. unfold word in W. lia.
Qed.

(** X9.  A whole run on a well-formed raw stream.  The input is
    0x00000002, two bytes [h1], [h2] (the first unit, of length 2), and then
    one or more units, each four bytes of length (between 1 and 0x00FFFFFF)
    and that many bytes.  The run settles on a type 2 repair without
    skipping anything and the repaired file is exactly: the SPS and the PPS
    of the format entered, the unit [h1 h2] and every unit of the input in
    order, each after a start code. *)
Theorem main_reframes_wellformed_stream
  (h1 h2 : byte) (u1 : list byte) (us : list (list byte)) (formatCode : Z) :
  Forall plainLength (u1 :: us) ->
  exists a b,
    selectFormat formatCode = (a ++ [0xff], b ++ [0xff])
    /\ main ([x00; x00; x00; x02; h1; h2] ++ concat (map frame (u1 :: us)))
         formatCode
       = Some (Exit0 2
                 (withStartCodes
                    (bytes a :: bytes b :: [h1; h2] :: u1 :: us))
                 [ResultWillBeH264; Done]).
Proof.
  intros F. inversion F as [|? ? Hu1 Fus]; subst.
  destruct (selectFormat_terminated formatCode) as (Ta & Tb).
  apply terminated_spec in Ta, Tb.
  destruct Ta as (a & Ea & Na). destruct Tb as (b & Eb & Nb).
  assert (E : selectFormat formatCode = (a ++ [0xff], b ++ [0xff])).
  { rewrite <- Ea, <- Eb. destruct (selectFormat formatCode); reflexivity. }
  exists a, b. split; [exact E|].
  set (n := Z.of_nat (length u1)).
  assert (Hn : 1 <= n <= 0x00FFFFFF) by exact Hu1.
  set (t := u1 ++ concat (map frame us)).
  set (input := [x00; x00; x00; x02; h1; h2] ++ concat (map frame (u1 :: us))).
  assert (Ei : input
               = x00 :: x00 :: x00 :: x02 :: h1 :: h2
                 :: byte_of_Z (n / 2 ^ 24) :: byte_of_Z (n / 2 ^ 16)
                 :: byte_of_Z (n / 2 ^ 8) :: byte_of_Z n :: t).
  { subst input t n. cbn [map concat app]. unfold frame at 1, be32.
    rewrite <- app_assoc. reflexivity. }
  set (W := word (Z_of_byte h1) (Z_of_byte h2)
                 (Z_of_byte (byte_of_Z (n / 2 ^ 24)))
                 (Z_of_byte (byte_of_Z (n / 2 ^ 16)))).
  assert (W0 : word_at input 0 = Some 2)
    by (rewrite Ei, word_at_cons4; reflexivity).
  assert (W4 : word_at input 4 = Some W).
  { rewrite Ei, (word_at_skip4 _ _ _ _ _ 0) by lia.
    rewrite word_at_cons4. reflexivity. }
  pose proof (Z_of_byte_range h1) as Rh1.
  pose proof (Z_of_byte_range h2) as Rh2.
  assert (NW : W <> fourcc_ftyp).
  { subst W. rewrite !Z_of_byte_of_Z. unfold word.
    assert (Q0 : (n / 2 ^ 24) mod 256 = 0).
    { rewrite Z.div_small by lia. reflexivity. }
    rewrite Q0.
    pose proof (Z.mod_pos_bound (n / 2 ^ 16) 256 ltac:(lia)).
    change fourcc_ftyp with 1718909296.
    change (2 ^ 24) with 16777216 in *. change (2 ^ 16) with 65536 in *.
    change (2 ^ 8) with 256 in *. lia. }
  assert (D : detect (enoughFuel input) (fopen input)
              = Some (RepairType2 W (mkFILE input 8 false)
                        [ResultWillBeH264])).
  { unfold detect, startOfFile, fopen.
    rewrite (get4Bytes_at input 0 2 W0). cbv beta iota.
    change (0 + 4) with 4. rewrite (get4Bytes_at input 4 W W4).
    cbv beta iota. change (4 + 4) with 8. unfold enoughFuel.
    rewrite checkStart_marker by exact NW. reflexivity. }
  unfold main. rewrite D. unfold doRepairType2. rewrite E.
  rewrite !putStartCode_app, !writeNAL_body by assumption.
  assert (R8 : rest (mkFILE input 8 false)
               = byte_of_Z (n / 2 ^ 8) :: byte_of_Z n :: t).
  { rewrite rest_skipn by (simpl; (reflexivity || lia)).
    simpl contents. simpl position. rewrite Ei. reflexivity. }
  rewrite get1Byte_rest, R8.
  pose proof (rest_advance _ _ _ R8) as R9.
  rewrite get1Byte_rest, R9.
  pose proof (rest_advance _ _ _ R9) as R10.
  subst W. rewrite !Z_of_byte_of_Z.
  rewrite (first_nal_size_value (Z_of_byte h1) (Z_of_byte h2) n)
    by (assumption || lia).
  set (pre := fputc _ (fputc _ _)).
  assert (Hpre : pre = withStartCodes [bytes a; bytes b; [h1; h2]]).
  { subst pre. unfold fputc, withStartCodes. cbn [map concat].
    rewrite !Z.shiftr_div_pow2 by lia.
    assert (B1 : byte_of_Z (word (Z_of_byte h1) (Z_of_byte h2)
                              ((n / 2 ^ 24) mod 256) ((n / 2 ^ 16) mod 256)
                            / 2 ^ 24) = h1).
    { rewrite <- (byte_of_Z_of_byte h1) at 2. f_equal. unfold word.
      pose proof (Z.mod_pos_bound (n / 2 ^ 24) 256 ltac:(lia)).
      pose proof (Z.mod_pos_bound (n / 2 ^ 16) 256 ltac:(lia)).
      change (2 ^ 24) with 16777216 in *. change (2 ^ 16) with 65536 in *.
      change (2 ^ 8) with 256 in *.
      Z.div_mod_to_equations. lia. }
    assert (B2 : byte_of_Z (word (Z_of_byte h1) (Z_of_byte h2)
                              ((n / 2 ^ 24) mod 256) ((n / 2 ^ 16) mod 256)
                            / 2 ^ 16) = h2).
    { rewrite <- (byte_of_Z_of_byte h2) at 2.
      rewrite <- (byte_of_Z_mod (word _ _ _ _ / 2 ^ 16)),
              <- (byte_of_Z_mod (Z_of_byte h2)).
      f_equal. unfold word.
      pose proof (Z.mod_pos_bound (n / 2 ^ 24) 256 ltac:(lia)).
      pose proof (Z.mod_pos_bound (n / 2 ^ 16) 256 ltac:(lia)).
      change (2 ^ 24) with 16777216 in *. change (2 ^ 16) with 65536 in *.
      change (2 ^ 8) with 256 in *.
      Z.div_mod_to_equations. lia. }
    rewrite B1, B2. rewrite <- !app_assoc. reflexivity. }
  destruct (restream_wellformed us u1 (enoughFuel input)
              (advance (advance (mkFILE input 8 false) 1) 1) pre)
    as (g & Q); [reflexivity|exact R10|exact Fus| |].
  { unfold remaining. rewrite R10. unfold enoughFuel.
    rewrite Ei. cbn [length]. lia. }
  fold n in Q. rewrite Q, Hpre. unfold withStartCodes. cbn [map concat].
  rewrite <- !app_assoc. reflexivity.
Qed.

Lemma main_reframes_wellformed_stream_witness :
  exists a b,
    selectFormat (char "8") = (a ++ [0xff], b ++ [0xff])
    /\ main ([x00; x00; x00; x02; x09; x10]
             ++ concat (map frame (bytes [0xAA; 0xBB] :: [bytes [0xCC]])))
         (char "8")
       = Some (Exit0 2
                 (withStartCodes
                    (bytes a :: bytes b :: [x09; x10]
                     :: bytes [0xAA; 0xBB] :: [bytes [0xCC]]))
                 [ResultWillBeH264; Done]).
Proof.
  apply main_reframes_wellformed_stream.
  repeat (apply Forall_cons; [unfold plainLength; simpl; lia|]).
  apply Forall_nil.
Defined.
(** ** The search for 0x00000002, in general *)

Lemma lookFor2_blocks (n : nat) :
  forall (fuel : nat) (d : list byte) (p w : Z) (err : list message),
    (forall i, 0 <= i < Z.of_nat n ->
       exists a b c,
         word_at d (p + 12 * i) = Some a /\ a <> 2
         /\ word_at d (p + 12 * i + 4) = Some b
         /\ word_at d (p + 12 * i + 8) = Some c) ->
    word_at d (p + 12 * Z.of_nat n) = Some 2 ->
    word_at d (p + 12 * Z.of_nat n + 4) = Some w ->
    (n < fuel)%nat ->
    lookFor2 fuel (mkFILE d p false) err
    = Some (Some w, mkFILE d (p + 12 * Z.of_nat n + 8) false,
            say (Found2At (p + 12 * Z.of_nat n)) err).
Proof.
  induction n as [|n IH]; intros fuel d p w err Hb H2 Hw Hf;
    (destruct fuel as [|fuel]; [lia|]).
  - replace (p + 12 * Z.of_nat 0) with p in * by lia.
    cbn [lookFor2].
    rewrite (get4Bytes_at d p 2 H2), (get4Bytes_at d (p + 4) w Hw).
    cbn [Z.eqb Pos.eqb]. unfold ftell. cbn [position].
    replace (p + 4 + 4 - 8) with p by lia.
    replace (p + 4 + 4) with (p + 8) by lia. reflexivity.
  - destruct (Hb 0 ltac:(lia)) as (a & b & c & Ha & Na & Hb0 & Hc).
    replace (p + 12 * 0) with p in * by lia.
    rewrite (lookFor2_stride fuel d p a b c err Ha Na Hb0 Hc).
    replace (p + 12 * Z.of_nat (S n)) with (p + 12 + 12 * Z.of_nat n) in *
      by lia.
    apply (IH fuel d (p + 12) w err); [|exact H2|exact Hw|lia].
    intros i Hi. destruct (Hb (i + 1) ltac:(lia)) as (a' & b' & c' & Q).
    exists a', b', c'.
    replace (p + 12 + 12 * i) with (p + 12 * (i + 1)) by lia. exact Q.
Qed.

Lemma lookFor2_found (fuel : nat) :
  forall (f : FILE) (err : list message) (w : Z) (g : FILE)
         (err' : list message),
    lookFor2 fuel f err = Some (Some w, g, err') ->
    exists n : nat,
      position g = position f + 12 * Z.of_nat n + 8
      /\ word_at (contents f) (position f + 12 * Z.of_nat n) = Some 2
      /\ word_at (contents f) (position f + 12 * Z.of_nat n + 4) = Some w
      /\ err' = say (Found2At (position f + 12 * Z.of_nat n)) err.
Proof.
  induction fuel as [|fuel IH]; intros f err w g err'; [discriminate|].
  cbn [lookFor2].
  destruct (get4Bytes_inv f) as [(a & -> & R1 & W1)|(p & -> & _)];
    [|discriminate].
  destruct (get4Bytes_inv (advance f 4)) as [(b & -> & R2 & W2)|(p & -> & _)];
    [|discriminate].
  simpl in W2.
  destruct (Z.eqb_spec a 2) as [->|Na].
  - intros Q. inversion Q; subst. exists O. simpl.
    replace (position f + 0) with (position f) by lia.
    repeat split; try assumption; try lia.
    unfold ftell. simpl. do 2 f_equal. lia.
  - destruct (get4Bytes_inv (advance (advance f 4) 4))
      as [(c & -> & R3 & _)|(p & -> & _)]; [|discriminate].
    intros Q. apply IH in Q. destruct Q as (n & Hp & H2 & Hw & He).
    simpl in Hp, H2, Hw, He. exists (S n).
    replace (position f + 12 * Z.of_nat (S n))
      with (position f + 4 + 4 + 4 + 12 * Z.of_nat n) by lia.
    repeat split; assumption.
Qed.

(** X10.  The search that follows a failed type 1 check looks at the input
    in blocks of twelve bytes from where it starts and tests the first word
    of each block only.  If 0x00000002 is the first word of block [n], with
    a word behind it, and the blocks before are complete and do not begin
    with it, the search finds it, reports its offset and leaves the stream
    eight bytes further.  Whatever it finds is the first word of such a
    block, whatever the other two words of the blocks are. *)
Theorem lookFor2_tests_first_word_of_each_block :
  (forall (n fuel : nat) (d : list byte) (p w : Z) (err : list message),
     (forall i, 0 <= i < Z.of_nat n ->
        exists a b c,
          word_at d (p + 12 * i) = Some a /\ a <> 2
          /\ word_at d (p + 12 * i + 4) = Some b
          /\ word_at d (p + 12 * i + 8) = Some c) ->
     word_at d (p + 12 * Z.of_nat n) = Some 2 ->
     word_at d (p + 12 * Z.of_nat n + 4) = Some w ->
     (n < fuel)%nat ->
     lookFor2 fuel (mkFILE d p false) err
     = Some (Some w, mkFILE d (p + 12 * Z.of_nat n + 8) false,
             say (Found2At (p + 12 * Z.of_nat n)) err))
  /\ (forall (fuel : nat) (f : FILE) (err : list message) (w : Z) (g : FILE)
             (err' : list message),
        lookFor2 fuel f err = Some (Some w, g, err') ->
        exists n : nat,
          position g = position f + 12 * Z.of_nat n + 8
          /\ word_at (contents f) (position f + 12 * Z.of_nat n) = Some 2
          /\ word_at (contents f) (position f + 12 * Z.of_nat n + 4) = Some w
          /\ err' = say (Found2At (position f + 12 * Z.of_nat n)) err).
Proof.
  split.
  - intros n. apply lookFor2_blocks.
  - intros fuel. apply lookFor2_found.
Qed.

Lemma lookFor2_tests_first_word_of_each_block_witness :
  lookFor2 5 (mkFILE (bytes [0; 0; 0; 0;  0; 0; 0; 2;  1; 1; 1; 1;
                             0; 0; 0; 2;  9; 9; 9; 9]) 0 false) []
  = Some (Some 0x09090909,
          mkFILE (bytes [0; 0; 0; 0;  0; 0; 0; 2;  1; 1; 1; 1;
                         0; 0; 0; 2;  9; 9; 9; 9])
            (0 + 12 * Z.of_nat 1 + 8) false,
          say (Found2At (0 + 12 * Z.of_nat 1)) []).
Proof.
  apply (proj1 lookFor2_tests_first_word_of_each_block 1%nat 5%nat).
  - intros i Hi. assert (i = 0) by lia. subst i.
    exists 0, 2, 0x01010101. repeat split; try (vm_compute; reflexivity).
    discriminate.
  - vm_compute. reflexivity.
  - vm_compute. reflexivity.
  - lia.
Defined.

(** ** The prompt for the video format *)

Lemma readEntry_once (fuel : nat) (stdin : list Z) :
  readEntry (S fuel) stdin = Some (getchar stdin).
Proof.
  cbn [readEntry]. destruct (getchar stdin) as [c s].
  destruct (Z.eqb_spec c (char x0d)) as [->|N]; reflexivity.
Qed.

Lemma promptLoop_first_valid (pre : list Z) :
  forall (c : Z) (post : list Z) (fuel k : nat),
    Forall (fun x => validEntry x = false) pre ->
    validEntry c = true ->
    (length pre < fuel)%nat ->
    promptLoop fuel (pre ++ c :: post) k
    = Some (c, post, (k + length pre)%nat).
Proof.
  induction pre as [|x pre IH]; intros c post fuel k F V Hf;
    (destruct fuel as [|fuel]; [simpl in Hf; lia|]);
    cbn [promptLoop]; rewrite readEntry_once; cbn [app getchar].
  - rewrite V. do 2 f_equal. simpl. lia.
  - inversion F as [|? ? Vx F']; subst. rewrite Vx.
    rewrite IH by (assumption || (simpl in Hf; lia)).
    do 2 f_equal. simpl. lia.
Qed.

Lemma promptLoop_no_valid (fuel : nat) :
  forall (stdin : list Z) (k : nat),
    Forall (fun x => validEntry x = false) stdin ->
    promptLoop fuel stdin k = None.
Proof.
  induction fuel as [|fuel IH]; intros stdin k F; [reflexivity|].
  cbn [promptLoop]. rewrite readEntry_once.
  destruct stdin as [|x stdin]; cbn [getchar].
  - change (validEntry EOF) with false. cbv iota. apply IH. constructor.
  - inversion F as [|? ? Vx F']; subst. rewrite Vx. apply IH. exact F'.
Qed.

(** X11.  The prompt takes the characters typed one at a time and returns
    the first one that is a supported format code; every character before
    it, carriage return and line feed among them, is answered with
    "Invalid entry!" (the inner loop meant to pass over line ends never
    repeats, since no character is both '\r' and '\n').  As long as no
    supported code has come the prompt does not return, also not at the end
    of the input. *)
Theorem prompt_returns_first_valid_entry :
  (forall (pre : list Z) (c : Z) (post : list Z) (fuel : nat),
     Forall (fun x => validEntry x = false) pre ->
     validEntry c = true ->
     (length pre < fuel)%nat ->
     promptLoop fuel (pre ++ c :: post) 0 = Some (c, post, length pre))
  /\ validEntry (char x0d) = false /\ validEntry (char x0a) = false
  /\ (forall (fuel : nat) (stdin : list Z),
        readEntry (S fuel) stdin = Some (getchar stdin))
  /\ (forall (fuel : nat) (stdin : list Z),
        Forall (fun x => validEntry x = false) stdin ->
        promptLoop fuel stdin 0 = None).
Proof.
  split; [|split; [reflexivity|split; [reflexivity|split]]].
  - intros pre c post fuel F V Hf.
    apply (promptLoop_first_valid pre c post fuel 0%nat F V Hf).
  - apply readEntry_once.
  - intros fuel stdin F. apply promptLoop_no_valid. exact F.
Qed.

Lemma prompt_returns_first_valid_entry_witness :
  promptLoop 5 ([char "x"; char x0a] ++ char "8" :: [char x0a]) 0
  = Some (char "8", [char x0a], length [char "x"; char x0a]).
Proof.
  apply (proj1 prompt_returns_first_valid_entry).
  - repeat constructor.
  - reflexivity.
  - simpl. lia.
Defined.
(** ** The string formatted for the name of the output file *)

Lemma strrchr_None (s : list byte) (c : byte) :
  strrchr s c = None -> ~ In c s.
Proof.
  induction s as [|x s IH]; simpl; [tauto|].
  destruct (strrchr s c); [discriminate|].
  destruct (Byte.eqb x c) eqn:E; [discriminate|].
  intros _ [->|I]; [|exact (IH eq_refl I)].
  rewrite (Byte.byte_dec_lb eq_refl) in E. discriminate.
Qed.

Lemma strrchr_Some (s : list byte) (c : byte) (i : nat) :
  strrchr s c = Some i ->
  s = firstn i s ++ c :: skipn (S i) s /\ ~ In c (skipn (S i) s).
Proof.
  revert i. induction s as [|x s IH]; intros i; simpl; [discriminate|].
  destruct (strrchr s c) as [j|] eqn:E.
  - intros Q; inversion Q; subst. destruct (IH j eq_refl) as (Es & N).
    cbn [firstn skipn app]. split; [f_equal; exact Es|exact N].
  - destruct (Byte.eqb x c) eqn:B; [|discriminate].
    intros Q; inversion Q; subst. apply Byte.byte_dec_bl in B. subst x.
    cbn [firstn skipn app]. split; [reflexivity|].
    apply strrchr_None. exact E.
Qed.

Lemma strrchr_last (a b : list byte) (c : byte) :
  ~ In c b -> strrchr (a ++ c :: b) c = Some (length a).
Proof.
  intros N. induction a as [|x a IH]; simpl.
  - destruct (strrchr b c) as [j|] eqn:E.
    + exfalso. apply strrchr_Some in E. destruct E as (E & _).
      apply N. rewrite E. apply in_or_app. right. left. reflexivity.
    + rewrite (Byte.byte_dec_lb eq_refl). reflexivity.
  - rewrite IH. reflexivity.
Qed.

Lemma strrchr_absent (s : list byte) (c : byte) :
  ~ In c s -> strrchr s c = None.
Proof.
  intros N. destruct (strrchr s c) as [i|] eqn:E; [|reflexivity].
  exfalso. apply strrchr_Some in E. destruct E as (E & _).
  apply N. rewrite E. apply in_or_app. right. left. reflexivity.
Qed.

(** X12.  The string that [main] gives [sprintf] to write as the name of
    the output file is the name given, cut at its last '.', followed by
    "-repaired." and "mp4" for a type 1 repair or "h264" otherwise.  A name
    without '.' is kept whole.  The last '.' counts wherever it stands: also
    in a directory part of the name.  This is the string formatted, not the
    name of the file that is created: the buffer is too short for it (X14),
    and the statement says nothing of what is done with the buffer. *)
Theorem output_name_is_stem_repaired_suffix
  (inputFileName : list byte) (repairType : Z) :
  let suffix := if repairType =? 1 then ["m"; "p"; "4"]%byte
                else ["h"; "2"; "6"; "4"]%byte in
  (forall stem ext,
     inputFileName = stem ++ "."%byte :: ext -> ~ In "."%byte ext ->
     fst (makeOutputFileName inputFileName repairType)
     = stem ++ repairedFilenameStr ++ ["."%byte] ++ suffix)
  /\ (~ In "."%byte inputFileName ->
      fst (makeOutputFileName inputFileName repairType)
      = inputFileName ++ repairedFilenameStr ++ ["."%byte] ++ suffix).
Proof.
  intros suffix. split.
  - intros stem ext -> N. unfold makeOutputFileName.
    rewrite strrchr_last by exact N. cbn [fst].
    rewrite firstn_app, firstn_all, Nat.sub_diag, firstn_O, app_nil_r.
    reflexivity.
  - intros N. unfold makeOutputFileName.
    rewrite strrchr_absent by exact N. cbn [fst].
    rewrite firstn_all. reflexivity.
Qed.

Lemma output_name_witness :
  fst (makeOutputFileName
         ["d"; "."; "d"; "/"; "v"; "."; "M"; "P"; "4"]%byte 1)
  = ["d"; "."; "d"; "/"; "v"]%byte ++ repairedFilenameStr ++ ["."%byte]
    ++ ["m"; "p"; "4"]%byte
  /\ fst (makeOutputFileName ["."; "/"; "v"]%byte 2)
     = [] ++ repairedFilenameStr ++ ["."%byte] ++ ["h"; "2"; "6"; "4"]%byte.
Proof.
  split.
  - apply (proj1 (output_name_is_stem_repaired_suffix
                    ["d"; "."; "d"; "/"; "v"; "."; "M"; "P"; "4"]%byte 1)
             ["d"; "."; "d"; "/"; "v"]%byte ["M"; "P"; "4"]%byte).
    + reflexivity.
    + simpl. intuition discriminate.
  - apply (proj1 (output_name_is_stem_repaired_suffix
                    ["."; "/"; "v"]%byte 2) [] ["/"; "v"]%byte).
    + reflexivity.
    + simpl. intuition discriminate.
Defined.

(** X14.  The size computed for the buffer of the output name leaves out
    "-repaired": the string that [sprintf] stores, with its final NUL, is
    nine bytes longer than [outputFileNameSize], for every input name. *)
Theorem output_name_buffer_is_nine_bytes_short
  (inputFileName : list byte) (repairType : Z) :
  Z.of_nat (length inputFileName) < 2 ^ 32 - 6 ->
  Z.of_nat (length (fst (makeOutputFileName inputFileName repairType))) + 1
  = snd (makeOutputFileName inputFileName repairType) + 9.
Proof.
  intros H. unfold makeOutputFileName. cbn [fst snd].
  set (dot := match strrchr inputFileName "." with
              | Some i => i
              | None => length inputFileName
              end).
  assert (Hd : (dot <= length inputFileName)%nat).
  { subst dot. destruct (strrchr inputFileName ".") as [i|] eqn:E; [|lia].
    apply strrchr_Some in E. destruct E as (E & _).
    apply (f_equal (@length byte)) in E.
    rewrite length_app, length_firstn in E. cbn [length] in E. lia. }
  rewrite !length_app, length_firstn, Nat.min_l by exact Hd.
  unfold u32.
  destruct (Z.eqb_spec repairType 1); cbn [length repairedFilenameStr];
    rewrite Z.mod_small by lia; lia.
Qed.

Lemma output_name_buffer_witness :
  Z.of_nat (length (fst (makeOutputFileName
                           ["v"; "."; "m"; "p"; "4"]%byte 1))) + 1
  = snd (makeOutputFileName ["v"; "."; "m"; "p"; "4"]%byte 1) + 9.
Proof.
  apply output_name_buffer_is_nine_bytes_short. vm_compute. reflexivity.
Defined.

(** ** A header cut short by the end of the file *)

(** X15.  When fewer than eight bytes, but at least one, are left at a
    probe, [checkAtom] fails at the end of the file, and the rewind of
    eight bytes that follows a failed probe starts from there: it puts the
    stream eight bytes before the end of the file, which is before the
    place where the probe started, not back at it. *)
Theorem rewind_after_short_probe_overshoots (f : FILE) (tag : Z) :
  good f -> (0 < remaining f < 8)%nat -> 8 <= size f ->
  exists g h,
    checkAtom f tag = (None, g)
    /\ fseek g (-8) SEEK_CUR = Some h
    /\ position h = size f - 8
    /\ position h < position f.
Proof.
  intros (E & P) Hr Hs.
  assert (R0 : readable f 0 = true).
  { destruct (readable f 0) eqn:R0; [reflexivity|].
    unfold remaining, rest in Hr. rewrite R0 in Hr. simpl in Hr. lia. }
  pose proof (remaining_readable f R0) as M.
  assert (R8 : readable f 8 = false).
  { destruct (readable f 8) eqn:R8; [|reflexivity].
    apply readable_true in R8. lia. }
  destruct (checkAtom_short f tag R8) as (p & -> & Hp & Hend).
  specialize (Hend R0). subst p.
  exists (at_eof f (size f)). unfold fseek. simpl.
  destruct (Z.ltb_spec (size f + -8) 0); [lia|].
  eexists. repeat split; simpl; lia.
Qed.

Lemma rewind_after_short_probe_witness :
  exists g h,
    checkAtom (mkFILE sample_type1 24 false) fourcc_moov = (None, g)
    /\ fseek g (-8) SEEK_CUR = Some h
    /\ position h = size (mkFILE sample_type1 24 false) - 8
    /\ position h < position (mkFILE sample_type1 24 false).
Proof.
  apply rewind_after_short_probe_overshoots.
  - split; simpl; [reflexivity|lia].
  - vm_compute. lia.
  - vm_compute. discriminate.
Defined.

(** ** The check of the start of the file, in general *)

(** X17.  The window of the check of the start of the file moves four bytes
    on over a word that is 0 or 0xFFFFFFFF and one byte on over any other
    window without signature, in whatever order they come.  When this walk
    brings it to offset [k]: 0x00000002 there (not before 'ftyp') settles on
    type 2 with the stream just past the window, and the offset reported is
    [k]; a size of at least 8 before 'ftyp' settles on type 1 with the
    stream at the end of that atom; a smaller word before 'ftyp' ends the
    run. *)
Theorem start_check_follows_scan_path (input : list byte) (k a0 : Z) :
  scan_path input 0 k ->
  word_at input 0 = Some a0 ->
  let first_message := if is_filler a0 then SkippingInitialJunk a0
                       else LookingForSaneData in
  (forall b, word_at input k = Some 2 -> word_at input (k + 4) = Some b ->
             b <> fourcc_ftyp ->
     startOfFile (enoughFuel input) (fopen input)
     = Some (StartType2 b (mkFILE input (k + 8) false)
               (if k =? 0 then [] else [first_message; Found2At k])))
  /\ (forall s, word_at input k = Some s -> 8 <= s ->
                word_at input (k + 4) = Some fourcc_ftyp ->
        exists err,
          startOfFile (enoughFuel input) (fopen input)
          = Some (StartType1 (mkFILE input (k + s) false) err))
  /\ (forall s, word_at input k = Some s -> s < 8 ->
                word_at input (k + 4) = Some fourcc_ftyp ->
        startOfFile (enoughFuel input) (fopen input)
        = Some (StartBad
                  ((if k =? 0 then [] else [first_message])
                   ++ [BadInitialFtypLength]))).
Proof.
  intros P Ha first_message. split; [|split].
  - intros b H2 Hb Nb.
    destruct (startOfFile_path input k a0 2 b P Ha H2 Hb) as (fuel' & ->).
    rewrite checkStart_marker by assumption.
    destruct (Z.eqb_spec k 0) as [->|Nk]; [reflexivity|].
    unfold ftell, say. cbn [negb position app].
    replace (k + 8 - 8) with k by lia. reflexivity.
  - intros s Hs H8 Ht.
    destruct (startOfFile_path input k a0 s _ P Ha Hs Ht) as (fuel' & ->).
    pose proof (word_at_range _ _ _ Hs).
    pose proof (scan_path_le _ _ _ P).
    match goal with |- context [checkStart _ _ _ ?s' _ ?e] =>
      destruct (checkStart_ftyp fuel' s s' input (k + 8) e)
        as (err' & ->); [lia|lia|] end.
    exists err'. do 3 f_equal. lia.
  - intros s Hs H8 Ht.
    destruct (startOfFile_path input k a0 s _ P Ha Hs Ht) as (fuel' & ->).
    cbn [checkStart]. rewrite Z.eqb_refl.
    destruct (Z.ltb_spec s 8); [|lia].
    destruct (k =? 0); reflexivity.
Qed.

Lemma start_check_follows_scan_path_witness :
  startOfFile (enoughFuel (bytes [0xFF; 0xFF; 0xFF; 0xFF;  7; 9; 9; 9; 9;
                                  0; 0; 0; 2;  1; 2; 3; 4]))
    (fopen (bytes [0xFF; 0xFF; 0xFF; 0xFF;  7; 9; 9; 9; 9;
                   0; 0; 0; 2;  1; 2; 3; 4]))
  = Some (StartType2 0x01020304
            (mkFILE (bytes [0xFF; 0xFF; 0xFF; 0xFF;  7; 9; 9; 9; 9;
                            0; 0; 0; 2;  1; 2; 3; 4]) (9 + 8) false)
            (if 9 =? 0 then []
             else [(if is_filler 0xFFFFFFFF
                    then SkippingInitialJunk 0xFFFFFFFF
                    else LookingForSaneData); Found2At 9])).
Proof.
  refine (proj1 (start_check_follows_scan_path _ 9 0xFFFFFFFF _ _)
            0x01020304 _ _ _).
  - eapply path_filler;
      [vm_compute; reflexivity|vm_compute; reflexivity
      |vm_compute; discriminate|reflexivity|].
    repeat (eapply path_garbage;
      [vm_compute; reflexivity|vm_compute; reflexivity
      |vm_compute; discriminate|vm_compute; discriminate|reflexivity|]).
    apply path_here.
  - vm_compute. reflexivity.
  - vm_compute. reflexivity.
  - vm_compute. reflexivity.
  - vm_compute. discriminate.
Defined.

(** ** The search after a missing 'mdat' *)



(** ** A raw stream that ends right after its first words *)

Lemma word_high_bytes (h1 h2 : byte) (x y : Z) :
  0 <= x < 256 -> 0 <= y < 256 ->
  byte_of_Z (word (Z_of_byte h1) (Z_of_byte h2) x y / 2 ^ 24) = h1
  /\ byte_of_Z (word (Z_of_byte h1) (Z_of_byte h2) x y / 2 ^ 16) = h2.
Proof.
  intros Hx Hy.
  pose proof (Z_of_byte_range h1). pose proof (Z_of_byte_range h2).
  split.
  - rewrite <- (byte_of_Z_of_byte h1) at 2. f_equal. unfold word.
    change (2 ^ 24) with 16777216 in *. change (2 ^ 16) with 65536 in *.
    change (2 ^ 8) with 256 in *.
    Z.div_mod_to_equations. lia.
  - rewrite <- (byte_of_Z_of_byte h2) at 2.
    rewrite <- (byte_of_Z_mod (word _ _ _ _ / 2 ^ 16)),
            <- (byte_of_Z_mod (Z_of_byte h2)).
    f_equal. unfold word.
    change (2 ^ 24) with 16777216 in *. change (2 ^ 16) with 65536 in *.
    change (2 ^ 8) with 256 in *.
    Z.div_mod_to_equations. lia.
Qed.

(** X19.  The file starts with 0x00000002 and at most one byte follows its
    second word.  When the second word is not 'ftyp', the repaired file
    holds the SPS, the PPS and the unit made of the first two bytes of that
    word, and nothing else: the other two bytes of the word and the byte
    after it are not written.  When the second word is 'ftyp', the first
    word is taken as the size of a 'ftyp' atom, 2 is below 8, and the run
    is given up with "Bad length for initial 'ftyp' atom". *)
Theorem raw_stream_without_units
  (h1 h2 c d : byte) (t : list byte) (formatCode : Z) :
  (length t < 2)%nat ->
  (word (Z_of_byte h1) (Z_of_byte h2) (Z_of_byte c) (Z_of_byte d)
   <> fourcc_ftyp ->
   exists a b,
     selectFormat formatCode = (a ++ [0xff], b ++ [0xff])
     /\ main ([x00; x00; x00; x02; h1; h2; c; d] ++ t) formatCode
        = Some (Exit0 2 (withStartCodes [bytes a; bytes b; [h1; h2]])
                  [ResultWillBeH264; Done]))
  /\ (word (Z_of_byte h1) (Z_of_byte h2) (Z_of_byte c) (Z_of_byte d)
      = fourcc_ftyp ->
      main ([x00; x00; x00; x02; h1; h2; c; d] ++ t) formatCode
      = Some (Exit1 [BadInitialFtypLength])).
Proof.
  intros Ht.
  set (W := word (Z_of_byte h1) (Z_of_byte h2) (Z_of_byte c) (Z_of_byte d)).
  set (input := [x00; x00; x00; x02; h1; h2; c; d] ++ t).
  assert (W0 : word_at input 0 = Some 2)
    by (subst input; cbn [app]; rewrite word_at_cons4; reflexivity).
  assert (W4 : word_at input 4 = Some W).
  { subst input. cbn [app]. rewrite (word_at_skip4 _ _ _ _ _ 0) by lia.
    rewrite word_at_cons4. reflexivity. }
  split.
  - intros NW.
    destruct (selectFormat_terminated formatCode) as (Ta & Tb).
    apply terminated_spec in Ta, Tb.
    destruct Ta as (a & Ea & Na). destruct Tb as (b & Eb & Nb).
    assert (E : selectFormat formatCode = (a ++ [0xff], b ++ [0xff])).
    { rewrite <- Ea, <- Eb. destruct (selectFormat formatCode); reflexivity. }
    exists a, b. split; [exact E|].
    assert (D : detect (enoughFuel input) (fopen input)
                = Some (RepairType2 W (mkFILE input 8 false)
                          [ResultWillBeH264])).
    { unfold detect, startOfFile, fopen.
      rewrite (get4Bytes_at input 0 2 W0). cbv beta iota.
      change (0 + 4) with 4. rewrite (get4Bytes_at input 4 W W4).
      cbv beta iota. change (4 + 4) with 8. unfold enoughFuel.
      rewrite checkStart_marker by exact NW. reflexivity. }
    unfold main. rewrite D. unfold doRepairType2. rewrite E.
    rewrite !putStartCode_app, !writeNAL_body by assumption.
    assert (R8 : rest (mkFILE input 8 false) = t).
    { rewrite rest_skipn by (simpl; (reflexivity || lia)). reflexivity. }
    set (pre := fputc _ (fputc _ _)).
    assert (Hpre : pre = withStartCodes [bytes a; bytes b; [h1; h2]]).
    { subst pre. unfold fputc, withStartCodes. cbn [map concat].
      rewrite !Z.shiftr_div_pow2 by lia. subst W.
      destruct (word_high_bytes h1 h2 (Z_of_byte c) (Z_of_byte d)
                  (Z_of_byte_range c) (Z_of_byte_range d)) as (-> & ->).
      rewrite <- !app_assoc. reflexivity. }
    rewrite get1Byte_rest, R8.
    destruct t as [|x t]; [rewrite Hpre; reflexivity|].
    pose proof (rest_advance _ _ _ R8) as R9.
    rewrite get1Byte_rest, R9.
    destruct t as [|y t]; [rewrite Hpre; reflexivity|].
    simpl in Ht. lia.
  - intros EW. rewrite EW in W4.
    unfold main, detect, startOfFile, fopen.
    rewrite (get4Bytes_at input 0 2 W0). cbv beta iota.
    change (0 + 4) with 4. rewrite (get4Bytes_at input 4 _ W4).
    cbv beta iota. unfold enoughFuel. cbn [checkStart].
    rewrite Z.eqb_refl. reflexivity.
Qed.

Lemma raw_stream_without_units_witness :
  exists a b,
    selectFormat (char "8") = (a ++ [0xff], b ++ [0xff])
    /\ main ([x00; x00; x00; x02; x09; x10; x00; x05] ++ [xaa]) (char "8")
       = Some (Exit0 2 (withStartCodes [bytes a; bytes b; [x09; x10]])
                 [ResultWillBeH264; Done]).
Proof.
  apply (proj1 (raw_stream_without_units x09 x10 x00 x05 [xaa] (char "8")
                  ltac:(simpl; lia))).
  vm_compute. discriminate.
Defined.

(** ** An entry that is not a format code *)

Lemma validEntry_hasCase (formatCode : Z) :
  validEntry formatCode = hasCase formatCode.
Proof.
  destruct (validEntry formatCode) eqn:V; symmetry.
  - unfold validEntry in V.
    change (char "0") with 48 in V. change (char "9") with 57 in V.
    change (char "a") with 97 in V. change (char "e") with 101 in V.
    change (char "A") with 65 in V. change (char "E") with 69 in V.
    rewrite !orb_true_iff, !andb_true_iff, !Z.leb_le in V.
    assert (Q : formatCode = 48 \/ formatCode = 49 \/ formatCode = 50
                \/ formatCode = 51 \/ formatCode = 52 \/ formatCode = 53
                \/ formatCode = 54 \/ formatCode = 55 \/ formatCode = 56
                \/ formatCode = 57 \/ formatCode = 97 \/ formatCode = 98
                \/ formatCode = 99 \/ formatCode = 100 \/ formatCode = 101
                \/ formatCode = 65 \/ formatCode = 66 \/ formatCode = 67
                \/ formatCode = 68 \/ formatCode = 69) by lia.
    repeat (destruct Q as [->|Q]; [reflexivity|]). subst. reflexivity.
  - unfold hasCase.
    repeat match goal with
    | |- context [formatCode =? ?c] =>
        destruct (Z.eqb_spec formatCode c) as [->|_];
        [vm_compute in V; discriminate|]
    end.
    reflexivity.
Qed.

Lemma doRepairType2_first_unit (fuel : nat) (formatCode : Z) (f : FILE)
  (out : list byte) (w : Z) (a b : list Z) :
  selectFormat formatCode = (a ++ [0xff], b ++ [0xff]) ->
  ~ In 0xff a -> ~ In 0xff b ->
  (remaining f < fuel)%nat ->
  exists g o,
    doRepairType2 fuel formatCode f out w
    = Some (g, out ++ type2_preamble (a ++ [0xff]) (b ++ [0xff]) w ++ o)
    /\ (forall c1 c2 r,
          rest f = c1 :: c2 :: r ->
          let nalSize :=
            Z.lor (Z.shiftl (Z.land w 0xFFFF) 16)
                  (Z.lor (Z.shiftl (Z_of_byte c1) 8) (Z_of_byte c2)) in
          exists o',
            o = startCode ++ firstn (Z.to_nat nalSize) r
                ++ repeat xff (Z.to_nat nalSize - length r) ++ o')
    /\ ((remaining f < 2)%nat -> o = []).
Proof.
  intros E Na Nb Hf. unfold doRepairType2. rewrite E.
  rewrite !putStartCode_app, !writeNAL_body by assumption.
  set (pre := fputc _ (fputc _ _)).
  assert (Hpre : pre = out ++ type2_preamble (a ++ [0xff]) (b ++ [0xff]) w).
  { subst pre. unfold fputc, type2_preamble.
    rewrite !removelast_last, !Z.shiftr_div_pow2 by lia.
    rewrite <- !app_assoc. reflexivity. }
  unfold remaining in *.
  rewrite get1Byte_rest.
  destruct (rest f) as [|c1 r1] eqn:R0.
  { exists (at_eof f (position f)), []. rewrite app_nil_r, Hpre.
    split; [reflexivity|]. split; [discriminate|reflexivity]. }
  pose proof (rest_advance f c1 r1 R0) as R1.
  rewrite get1Byte_rest, R1.
  destruct r1 as [|c2 r].
  { eexists _, []. rewrite app_nil_r, Hpre.
    split; [reflexivity|]. split; [discriminate|reflexivity]. }
  pose proof (rest_advance _ c2 r R1) as R2.
  rewrite first_nal_size by apply Z_of_byte_range.
  set (nalSize := Z.lor _ _). set (g := advance (advance f 1) 1).
  assert (Hg : (remaining g < fuel)%nat).
  { unfold remaining. subst g. rewrite R2. simpl in Hf. lia. }
  destruct (restream_total fuel nalSize g pre Hg) as ([h o] & Hr).
  rewrite Hr.
  destruct (restream_first_unit _ _ _ _ _ _ Hr eq_refl) as (o' & ->).
  exists h. eexists. split; [rewrite Hpre, <- app_assoc; reflexivity|].
  split; [|simpl; lia].
  intros c1' c2' r' Q. inversion Q; subst c1' c2' r'.
  exists o'. fold nalSize. unfold remaining. subst g. rewrite R2.
  reflexivity.
Qed.

(** C8 (as the code has it).  (1) The prompt accepts exactly the values
    that have a label in the switch, so the entry that reaches the switch
    never takes its [default]; the [default] would select the tables of
    entry 8, SPS_1080p30 and PPS_P2VP.  (2) An entry that is not a format
    code is answered with "Invalid entry!" and the prompt asks again: with
    such entries [pre] typed before the first format code [c], the repair
    runs with the tables of [c], whatever [pre] holds.  Its output is what
    was there, start code, the SPS of [c] without its final 0xff, start
    code, the PPS of [c] likewise, start code and the two high bytes of the
    word kept from detection; when two more bytes [c1], [c2] can be read
    the first unit follows, of length ((w & 0xFFFF) << 16) | (c1 << 8 | c2),
    and otherwise nothing follows.  (3) When no format code is ever typed,
    the prompt does not return and nothing is repaired. *)
Theorem unsupported_entry_is_asked_again :
  ((forall formatCode, validEntry formatCode = hasCase formatCode)
   /\ (forall formatCode,
         hasCase formatCode = false ->
         selectFormat formatCode = (SPS_1080p30, PPS_P2VP)
         /\ selectFormat formatCode = selectFormat (char "8")))
  /\ (forall (pre : list Z) (c : Z) (post : list Z) (promptFuel fuel : nat)
             (f : FILE) (out : list byte) (w : Z),
        Forall (fun x => validEntry x = false) pre ->
        validEntry c = true ->
        (length pre < promptFuel)%nat ->
        (remaining f < fuel)%nat ->
        exists a b g o,
          selectFormat c = (a ++ [0xff], b ++ [0xff])
          /\ ~ In 0xff a /\ ~ In 0xff b
          /\ hasCase c = true
          /\ doRepairType2_prompted promptFuel fuel (pre ++ c :: post) f out w
             = Some (g,
                     out ++ type2_preamble (a ++ [0xff]) (b ++ [0xff]) w ++ o,
                     post, length pre)
          /\ (forall c1 c2 r,
                rest f = c1 :: c2 :: r ->
                let nalSize :=
                  Z.lor (Z.shiftl (Z.land w 0xFFFF) 16)
                        (Z.lor (Z.shiftl (Z_of_byte c1) 8) (Z_of_byte c2)) in
                exists o',
                  o = startCode ++ firstn (Z.to_nat nalSize) r
                      ++ repeat xff (Z.to_nat nalSize - length r) ++ o')
          /\ ((remaining f < 2)%nat -> o = []))
  /\ (forall (stdin : list Z) (promptFuel fuel : nat) (f : FILE)
             (out : list byte) (w : Z),
        Forall (fun x => validEntry x = false) stdin ->
        doRepairType2_prompted promptFuel fuel stdin f out w = None).
Proof.
  split; [split|split].
  - exact validEntry_hasCase.
  - intros formatCode H. rewrite <- validEntry_hasCase in H.
    rewrite (selectFormat_default formatCode H). split; reflexivity.
  - intros pre c post promptFuel fuel f out w F V Hp Hf.
    destruct (selectFormat_terminated c) as (Ta & Tb).
    apply terminated_spec in Ta, Tb.
    destruct Ta as (a & Ea & Na). destruct Tb as (b & Eb & Nb).
    assert (E : selectFormat c = (a ++ [0xff], b ++ [0xff])).
    { rewrite <- Ea, <- Eb. destruct (selectFormat c); reflexivity. }
    destruct (doRepairType2_first_unit fuel c f out w a b E Na Nb Hf)
      as (g & o & D & U & S).
    exists a, b, g, o.
    split; [exact E|]. split; [exact Na|]. split; [exact Nb|].
    split; [rewrite <- validEntry_hasCase; exact V|].
    split; [|split; [exact U|exact S]].
    unfold doRepairType2_prompted.
    rewrite (promptLoop_first_valid pre c post promptFuel 0 F V Hp), D.
    reflexivity.
  - intros stdin promptFuel fuel f out w F.
    unfold doRepairType2_prompted.
    rewrite (promptLoop_no_valid promptFuel stdin 0 F). reflexivity.
Qed.

Lemma unsupported_entry_witness :
  exists a b g o,
    selectFormat (char "2") = (a ++ [0xff], b ++ [0xff])
    /\ doRepairType2_prompted 3 (enoughFuel sample_truncated)
         ([char "z"; char x0a] ++ char "2" :: [char x0a])
         (mkFILE sample_truncated 8 false) [] 0x09100000
       = Some (g,
               [] ++ type2_preamble (a ++ [0xff]) (b ++ [0xff]) 0x09100000
               ++ o,
               [char x0a], length [char "z"; char x0a]).
Proof.
  destruct (proj1 (proj2 unsupported_entry_is_asked_again)
              [char "z"; char x0a] (char "2") [char x0a] 3%nat
              (enoughFuel sample_truncated)
              (mkFILE sample_truncated 8 false) [] 0x09100000)
    as (a & b & g & o & E & _ & _ & _ & D & _).
  - repeat constructor.
  - reflexivity.
  - simpl. lia.
  - vm_compute. lia.
  - exists a, b, g, o. split; [exact E|exact D].
Defined.

(** C8, counterexample.  The entry 'z' is not a format code.  Typed alone,
    it does not make the repair run with the tables of entry 8: the prompt
    never returns, whatever the fuel.  Typed before '2', it is passed over
    and the repair runs with the tables of entry 2, SPS_2160p24 and
    PPS_Inspire, which are not those of entry 8. *)
Lemma unsupported_entry_counterexample :
  validEntry (char "z") = false
  /\ (forall promptFuel fuel,
        doRepairType2_prompted promptFuel fuel [char "z"]
          (mkFILE sample_truncated 8 false) [] 0x09100000 = None)
  /\ (exists g o,
        doRepairType2_prompted 2 (enoughFuel sample_truncated)
          [char "z"; char "2"] (mkFILE sample_truncated 8 false) []
          0x09100000
        = Some (g, type2_preamble SPS_2160p24 PPS_Inspire 0x09100000 ++ o,
                [], 1%nat))
  /\ type2_preamble SPS_2160p24 PPS_Inspire 0x09100000
     <> type2_preamble SPS_1080p30 PPS_P2VP 0x09100000.
Proof.
  split; [reflexivity|]. split; [|split].
  - intros promptFuel fuel. unfold doRepairType2_prompted.
    rewrite (promptLoop_no_valid promptFuel [char "z"] 0); [reflexivity|].
    repeat constructor.
  - eexists _, _. vm_compute. reflexivity.
  - vm_compute. discriminate.
Qed.
